(** * PubMed XML parser: a shallow embedding of [parsers.py]

    The development follows [PubMedXMLParser]: the text normaliser
    ([_clean_text], [_decode_unicode_references] and the three compiled
    patterns), the field extractors ([_get_date], [_get_authors],
    [_get_texts]), the review classifiers ([_is_review],
    [_is_review_in_text]) and the record extractor with its generator
    ([_get_abstract_data_from_xml_el], [parse_file]).

    Python strings are sequences of Unicode code points, so a [str] is a
    list of [N].  Exceptions are values of [result].  A Python [dict] with
    string keys is a [gmap string _]: a key that was never assigned is
    absent from the map, a key assigned [None] is present and maps to
    [VNone]. *)

From Stdlib Require Import NArith ZArith List Lia Bool String Ascii.
From Stdlib Require Import DecimalN DecimalFacts.
From stdpp Require Import gmap strings list fin_maps.

Open Scope N_scope.

#[local] Set Warnings "-register-all".

(** ** Python strings *)

Abbreviation pystr := (list N).

(** A literal of the source, given as an ASCII string. *)
Definition py (s : string) : pystr :=
  List.map N_of_ascii (list_ascii_of_string s).

(** [str.isspace] on one code point; the pattern class [\s] of a [str]
    pattern and [str.strip()] use the same test. *)
Definition is_space (c : N) : bool :=
  ((9 <=? c) && (c <=? 13)) || ((28 <=? c) && (c <=? 32))
  || (c =? 133) || (c =? 160) || (c =? 5760)
  || ((8192 <=? c) && (c <=? 8202))
  || (c =? 8232) || (c =? 8233) || (c =? 8239) || (c =? 8287) || (c =? 12288).

(** Longest prefix whose characters satisfy [p], and the rest. *)
Fixpoint span (p : N -> bool) (s : pystr) : pystr * pystr :=
  match s with
  | [] => ([], [])
  | c :: s' =>
      if p c then let '(a, b) := span p s' in (c :: a, b) else ([], s)
  end.

Fixpoint lstrip (s : pystr) : pystr :=
  match s with
  | [] => []
  | c :: s' => if is_space c then lstrip s' else s
  end.

Definition rstrip (s : pystr) : pystr := rev (lstrip (rev s)).

(** [s.strip()] *)
Definition strip (s : pystr) : pystr := rstrip (lstrip s).

(** [p in s] on strings *)
Fixpoint starts_with (p s : pystr) : bool :=
  match p, s with
  | [], _ => true
  | _ :: _, [] => false
  | a :: p', b :: s' => (a =? b) && starts_with p' s'
  end.

Fixpoint contains (p s : pystr) : bool :=
  starts_with p s || match s with [] => false | _ :: s' => contains p s' end.

(** The text after the prefix [p], when [s] starts with it. *)
Fixpoint strip_prefix (p s : pystr) : option pystr :=
  match p, s with
  | [], _ => Some s
  | _ :: _, [] => None
  | a :: p', b :: s' => if a =? b then strip_prefix p' s' else None
  end.

(** [s[:n]] *)
Definition slice_to (n : nat) (s : pystr) : pystr := take n s.

(** ** Exceptions *)

Inductive exn := AttributeError | TypeError | ValueError | OverflowError.

Inductive result (A : Type) :=
| Ok (a : A)
| Err (e : exn).
Arguments Ok {A} a.
Arguments Err {A} e.

Definition bind {A B} (r : result A) (f : A -> result B) : result B :=
  match r with
  | Ok a => f a
  | Err e => Err e
  end.

Notation "'let*' x ':=' r 'in' k" := (bind r (fun x => k))
  (at level 10, x name, r at level 100, k at level 200).

(** [o.attr] where [o] may be [None]: attribute access on [None] raises
    [AttributeError]. *)
Definition deref {A} (o : option A) : result A :=
  match o with
  | Some a => Ok a
  | None => Err AttributeError
  end.

(** ** The interpreter's tables

    The Unicode character database and the entity table of the markup
    parser are data of the Python installation, not of [parsers.py].
    They are taken as parameters; the laws are the facts about them that
    the proofs use: the ASCII range of each table, that no digit is
    whitespace, and that a character with a lower-case mapping is
    printable. *)

Class PyEnv := {
  (** decimal value of a code point of category Nd: the class [\d] of a
      [str] pattern, and the digits [int()] accepts *)
  py_decimal : N -> option N;
  (** full lower-case mapping of one code point *)
  py_tolower_full : N -> pystr;
  (** the final-sigma test of [str.lower()], on the characters before (nearest
      first) and after a capital sigma *)
  py_final_sigma : pystr -> pystr -> bool;
  (** [str.isprintable] on one code point *)
  py_isprintable : N -> bool;
  (** [sys.get_int_max_str_digits()], [None] where the limit does not exist *)
  py_int_max_str_digits : option nat;
  (** named character references known to the markup parser *)
  html_entity : pystr -> option pystr;
  (** what the markup parser emits for the numeric reference of a number *)
  html_charref : N -> pystr;

  py_decimal_ascii : forall c, c < 128 ->
    py_decimal c = if (48 <=? c) && (c <=? 57) then Some (c - 48) else None;
  py_decimal_lt : forall c d, py_decimal c = Some d -> d < 10;
  py_decimal_space : forall c, is_space c = true -> py_decimal c = None;
  py_tolower_ascii : forall c, c < 128 ->
    py_tolower_full c = [if (65 <=? c) && (c <=? 90) then c + 32 else c];
  py_tolower_nonprintable : forall c, 128 <= c ->
    py_isprintable c = false -> py_tolower_full c = [c]
}.

(** ** Substitution of a pattern, [pattern.sub(repl, s)]

    The scan of [sub] is written for any matcher at one position: on the
    text that starts there the matcher returns the number of characters
    matched and their replacement.  [re_sub] scans from the left, replaces
    the leftmost match, and resumes after it; none of the patterns of the
    source matches the empty string. *)

Definition matcher := pystr -> option (nat * pystr).

Fixpoint re_sub_from (m : matcher) (skip : nat) (s : pystr) : pystr :=
  match s with
  | [] => []
  | c :: s' =>
      match skip with
      | S k => re_sub_from m k s'
      | O =>
          match m s with
          | Some (S n, r) => r ++ re_sub_from m n s'
          | _ => c :: re_sub_from m 0 s'
          end
      end
  end.

Definition re_sub (m : matcher) (s : pystr) : pystr := re_sub_from m 0 s.

(** ** Patterns

    The patterns of the source use character classes, concatenation,
    alternation, greedy and lazy repetition, a look-ahead and groups.
    [Repeat] is "zero or more"; [r+] is [r] followed by [r*], [r{2,}] is
    [r r r*].  [Group] marks group 1, the only group whose text the source
    reads. *)

Inductive regex :=
| Class (p : N -> bool)
| Cat (r1 r2 : regex)
| Or (r1 r2 : regex)
| Repeat (greedy : bool) (r : regex)
| Ahead (p : N -> bool)
| Group (r : regex).

Definition plus (greedy : bool) (r : regex) : regex := Cat r (Repeat greedy r).

(** The class of one character. *)
Definition chr_is (c : N) : N -> bool := N.eqb c.

(** *** Matching at a position

    The matcher is the backtracking one of [re]: an alternation tries its
    branches in order, a greedy repetition tries one more round before it
    tries what follows, a lazy one tries what follows first.  [k] is what
    follows: it is given the text that is left and the text of group 1. *)

Section Exec.
Context {A : Type}.

Definition cont : Type := pystr -> option pystr -> option A.

(** The rounds of a repetition.  Every round takes at least one character,
    so the length of the text bounds their number. *)
Fixpoint repeat_loop (body : pystr -> option pystr -> cont -> option A)
    (greedy : bool) (k : cont) (fuel : nat) (s : pystr) (g : option pystr)
  : option A :=
  match fuel with
  | O => k s g
  | S fuel' =>
      let again (_ : unit) :=
        body s g (fun s' g' =>
                    if (length s' <? length s)%nat
                    then repeat_loop body greedy k fuel' s' g'
                    else None) in
      if greedy then
        match again tt with
        | Some a => Some a
        | None => k s g
        end
      else
        match k s g with
        | Some a => Some a
        | None => again tt
        end
  end.

Fixpoint exec (r : regex) (s : pystr) (g : option pystr) (k : cont) : option A :=
  match r with
  | Class p =>
      match s with
      | c :: s' => if p c then k s' g else None
      | [] => None
      end
  | Cat r1 r2 => exec r1 s g (fun s' g' => exec r2 s' g' k)
  | Or r1 r2 =>
      match exec r1 s g k with
      | Some a => Some a
      | None => exec r2 s g k
      end
  | Repeat greedy r => repeat_loop (exec r) greedy k (length s) s g
  | Ahead p =>
      match s with
      | c :: _ => if p c then k s g else None
      | [] => None
      end
  | Group r =>
      exec r s g (fun s' _ => k s' (Some (take (length s - length s') s)))
  end.

End Exec.

(** [pattern.match(s)]: the number of characters matched at the head of [s]
    and the text of group 1. *)
Definition re_match (r : regex) (s : pystr) : option (nat * option pystr) :=
  exec r s None (fun s' g => Some ((length s - length s')%nat, g)).

(** The matcher of [pattern.sub(repl, s)], [repl] a function of group 1. *)
Definition matcher_of (r : regex) (repl : option pystr -> pystr) : matcher :=
  fun s =>
    match re_match r s with
    | Some (n, g) => Some (n, repl g)
    | None => None
    end.

Definition pattern_sub (r : regex) (repl : option pystr -> pystr) (s : pystr)
  : pystr :=
  re_sub (matcher_of r repl) s.

(** *** The compiled patterns of [PubMedXMLParser] *)

(** the class [[ \-–,;]] *)
Definition is_bracket_filler (c : N) : bool :=
  (c =? 32) || (c =? 45) || (c =? 8211) || (c =? 44) || (c =? 59).

(** the class [[-,;]] *)
Definition is_delim (c : N) : bool := (c =? 45) || (c =? 44) || (c =? 59).

(** [(\s*?\[[ \-–,;]*?\])|(\s+?\([ \-–,;]*?\))] *)
Definition _empty_brackets_re : regex :=
  Or (Cat (Repeat false (Class is_space))
        (Cat (Class (chr_is 91))
           (Cat (Repeat false (Class is_bracket_filler)) (Class (chr_is 93)))))
     (Cat (plus false (Class is_space))
        (Cat (Class (chr_is 40))
           (Cat (Repeat false (Class is_bracket_filler)) (Class (chr_is 41))))).

(** [(\s+[-,;]\s+?)+] *)
Definition _spaces_with_delimeter_re : regex :=
  plus true (Cat (plus true (Class is_space))
               (Cat (Class is_delim) (plus false (Class is_space)))).

(** [\s{2,}] *)
Definition _whitespaces_re : regex :=
  Cat (Class is_space) (Cat (Class is_space) (Repeat true (Class is_space))).

Section Model.
Context {env : PyEnv}.

(** ** [str.lower()], [int()], [chr()] *)

(** Every character is replaced by its full lower-case mapping; the capital
    sigma (U+03A3) is the one character whose result depends on its
    neighbours. *)
Fixpoint lower_from (before : pystr) (s : pystr) : pystr :=
  match s with
  | [] => []
  | c :: s' =>
      (if c =? 931
       then [if py_final_sigma before s' then 962 else 963]
       else py_tolower_full c)
      ++ lower_from (c :: before) s'
  end.

Definition lower (s : pystr) : pystr := lower_from [] s.

Definition is_decimal (c : N) : bool :=
  match py_decimal c with Some _ => true | None => false end.

Definition decimal_value (c : N) : N :=
  match py_decimal c with Some d => d | None => 0 end.

Definition digits_value (ds : pystr) : N :=
  fold_left (fun acc c => 10 * acc + decimal_value c) ds 0.

(** [int(ds)] on a string of decimal digits: fails only where the
    interpreter limits the number of digits. *)
Definition py_int (ds : pystr) : result N :=
  match py_int_max_str_digits with
  | Some m => if (m <? length ds)%nat then Err ValueError else Ok (digits_value ds)
  | None => Ok (digits_value ds)
  end.

(** [chr(n)] for [n >= 0] *)
Definition py_chr (n : N) : result pystr :=
  if n <=? 1114111 then Ok [n]
  else if n <=? 2147483647 then Err ValueError
  else Err OverflowError.

(** ** [_decode_unicode_references] *)

(** The callback, on [id = matches.group(1)]:
    [try: return chr(int(id))  except: return id]. *)
Definition _callback (id : pystr) : pystr :=
  match (let* n := py_int id in py_chr n) with
  | Ok ch => ch
  | Err _ => id
  end.

(** [&#(\d+)(;|(?=\s))] *)
Definition charref_re : regex :=
  Cat (Class (chr_is 38))
    (Cat (Class (chr_is 35))
       (Cat (Group (plus true (Class is_decimal)))
          (Or (Class (chr_is 59)) (Ahead is_space)))).

(** Group 1 takes part in every match of the pattern. *)
Definition group1 (g : option pystr) : pystr :=
  match g with Some id => id | None => [] end.

Definition _decode_unicode_references (text : pystr) : pystr :=
  pattern_sub charref_re (fun g => _callback (group1 g)) text.

(** ** The markup parser, [BeautifulSoup(text, 'html.parser')]

    The model covers what [_clean_text] receives: plain text, and the
    serialisation of an element (start tags with quoted attributes, end
    tags, empty-element tags, comments, character and entity references).
    Not modelled are the recovery rules of the parser for constructs that
    are not closed and for numeric references that are not well formed, a
    [>] inside an attribute value, [CDATA] sections, and the content of
    [script] and [style].  The theorems below that speak of [_clean_text] on
    every input of a class are stated for text without markup, which the
    parser hands on as one string. *)

Inductive token :=
| TData (s : pystr)
| TStart (name : pystr)
| TStartEnd (name : pystr)
| TEnd (name : pystr)
| TSkip.

Definition is_ascii_letter (c : N) : bool :=
  ((65 <=? c) && (c <=? 90)) || ((97 <=? c) && (c <=? 122)).
Definition is_ascii_digit (c : N) : bool := (48 <=? c) && (c <=? 57).
Definition is_hex_digit (c : N) : bool :=
  is_ascii_digit c || ((65 <=? c) && (c <=? 70)) || ((97 <=? c) && (c <=? 102)).
Definition hex_value (c : N) : N :=
  if is_ascii_digit c then c - 48
  else if c <=? 70 then c - 55 else c - 87.

(** characters of a tag name: anything but [\t \n \r \f], space, [/], [>], NUL *)
Definition is_tag_name_char (c : N) : bool :=
  negb ((c =? 9) || (c =? 10) || (c =? 13) || (c =? 12) || (c =? 32)
        || (c =? 47) || (c =? 62) || (c =? 0)).
(** characters of an entity name after its first letter *)
Definition is_entity_name_char (c : N) : bool :=
  is_ascii_letter c || is_ascii_digit c || (c =? 45) || (c =? 46).

Definition tag_name (body : pystr) : pystr :=
  lower (fst (span is_tag_name_char body)).

Definition ends_with_slash (body : pystr) : bool :=
  match rev body with c :: _ => c =? 47 | [] => false end.

(** number of characters before the first [-->], when there is one *)
Fixpoint comment_end (s : pystr) : option nat :=
  match s with
  | [] => None
  | _ :: s' =>
      if starts_with [45; 45; 62] s then Some 0%nat
      else option_map S (comment_end s')
  end.

(** The token that starts with [<]; [s1] is the text after it. *)
Definition markup_token (s1 : pystr) : token * nat :=
  let '(body, rest) := span (fun c => negb (c =? 62)) s1 in
  match strip_prefix [33; 45; 45] s1 with
  | Some s2 =>
      match comment_end s2 with
      | Some n => (TSkip, 4 + n + 3)%nat
      | None => (TData [60], 1%nat)
      end
  | None =>
      match s1, rest with
      | c :: s2, _ :: _ =>
          let n := (1 + length body + 1)%nat in
          if is_ascii_letter c then
            (if ends_with_slash body then TStartEnd (tag_name body)
             else TStart (tag_name body), n)
          else if c =? 47 then
            match s2 with
            | d :: _ =>
                if is_ascii_letter d then (TEnd (tag_name s2), n)
                else (TSkip, n)
            | [] => (TSkip, n)
            end
          else if (c =? 33) || (c =? 63) then (TSkip, n)
          else (TData [60], 1%nat)
      | _, _ => (TData [60], 1%nat)
      end
  end.

(** The token that starts with [&#]; [s1] is the text after it. *)
Definition charref_token (s1 : pystr) : token * nat :=
  let hex := match s1 with c :: _ => (c =? 120) || (c =? 88) | [] => false end in
  let s1' := if hex then tail s1 else s1 in
  let '(ds, rest) := span (if hex then is_hex_digit else is_ascii_digit) s1' in
  match ds, rest with
  | _ :: _, t :: _ =>
      if is_hex_digit t then (TData [38], 1%nat)
      else
        let n :=
          if hex then fold_left (fun a c => 16 * a + hex_value c) ds 0
          else fold_left (fun a c => 10 * a + (c - 48)) ds 0 in
        (TData (html_charref n),
         (2 + (if hex then 1 else 0) + length ds
          + (if (t =? 59)%N then 1 else 0))%nat)
  | _, _ => (TData [38], 1%nat)
  end.

(** The longest part of [run] that has a [-] or [.] behind it. *)
Fixpoint before_last_punct (run : pystr) : option pystr :=
  match run with
  | [] => None
  | d :: run' =>
      match before_last_punct run' with
      | Some nm => Some (d :: nm)
      | None => if (d =? 45) || (d =? 46) then Some [] else None
      end
  end.

(** The token that starts with [&] and a letter [c]; [s1] is the text after
    the letter.  The name is a run of letters, digits, [-] and [.] that has
    a character behind it which is no letter and no digit; at the end of
    the text the run is cut at its last [-] or [.].  A [;] behind the name
    belongs to the reference.  A name the table does not know is kept as
    text, without the [;]. *)
Definition entityref_token (c : N) (s1 : pystr) : token * nat :=
  let '(run, rest) := span is_entity_name_char s1 in
  let found :=
    match rest with
    | t :: _ => Some (run, if (t =? 59)%N then 1%nat else 0%nat)
    | [] => option_map (fun nm => (nm, 0%nat)) (before_last_punct run)
    end in
  match found with
  | Some (nm, semicolon) =>
      (TData (match html_entity (c :: nm) with
              | Some r => r
              | None => 38 :: c :: nm
              end),
       (2 + length nm + semicolon)%nat)
  | None => (TData [38], 1%nat)
  end.

(** The token at the head of a non-empty text and the number of characters
    it takes. *)
Definition token_at (s : pystr) : token * nat :=
  match s with
  | [] => (TSkip, 0%nat)
  | c0 :: s1 =>
      if c0 =? 60 then markup_token s1
      else if c0 =? 38 then
        match s1 with
        | c :: s2 =>
            if c =? 35 then charref_token s2
            else if is_ascii_letter c then entityref_token c s2
            else (TData [38], 1%nat)
        | [] => (TData [38], 1%nat)
        end
      else
        let '(run, _) := span (fun c => negb ((c =? 60) || (c =? 38))) s in
        (TData run, length run)
  end.

Fixpoint tokenize_from (skip : nat) (s : pystr) : list token :=
  match s with
  | [] => []
  | _ :: s' =>
      match skip with
      | S k => tokenize_from k s'
      | O => let '(tok, n) := token_at s in tok :: tokenize_from (n - 1) s'
      end
  end.

Definition tokenize (s : pystr) : list token := tokenize_from 0 s.

(** The tree the builder makes of the tokens. *)
Inductive node :=
| Text (s : pystr)
| Tag (name : pystr) (children : list node).

(** An open element: its name and the siblings before it, latest first. *)
Definition frame : Type := pystr * list node.

(** [_popToTag]: close the open elements up to and including the innermost
    one called [name]. *)
Fixpoint pop_to (name : pystr) (cur : list node) (stack : list frame)
  : list node * list frame :=
  match stack with
  | [] => (cur, [])
  | (n, before) :: stack' =>
      let cur' := Tag n (rev cur) :: before in
      if bool_decide (n = name) then (cur', stack') else pop_to name cur' stack'
  end.

Fixpoint close_all (cur : list node) (stack : list frame) : list node :=
  match stack with
  | [] => rev cur
  | (n, before) :: stack' => close_all (Tag n (rev cur) :: before) stack'
  end.

(** [endData]: the text gathered since the last tag becomes one string of
    the tree.  A string of ASCII whitespace only is cut down to one newline,
    or one space if it has no newline, except inside [pre] and
    [textarea]. *)
Definition is_ascii_space (c : N) : bool :=
  (c =? 32) || (c =? 10) || (c =? 9) || (c =? 12) || (c =? 13).

Definition preserves_whitespace (name : pystr) : bool :=
  bool_decide (name = py "pre") || bool_decide (name = py "textarea").

Definition data_string (data : pystr) (stack : list frame) : pystr :=
  if forallb is_ascii_space data
     && negb (existsb (fun fr : frame => preserves_whitespace fr.1) stack)
  then (if existsb (N.eqb 10) data then [10] else [32])
  else data.

Definition end_data (data : pystr) (cur : list node) (stack : list frame)
  : list node :=
  match data with
  | [] => cur
  | _ :: _ => Text (data_string data stack) :: cur
  end.

(** The builder: [data] is the text gathered so far, [cur] the children
    of the innermost open element, latest first, [stack] the open
    elements. *)
Fixpoint build (toks : list token) (data : pystr) (cur : list node)
    (stack : list frame) : list node :=
  match toks with
  | [] => close_all (end_data data cur stack) stack
  | TData s :: toks' => build toks' (data ++ s) cur stack
  | TStart n :: toks' => build toks' [] [] ((n, end_data data cur stack) :: stack)
  | TStartEnd n :: toks' => build toks' [] (Tag n [] :: end_data data cur stack) stack
  | TEnd n :: toks' =>
      let cur := end_data data cur stack in
      if bool_decide (n ∈ (fst <$> stack)) then
        let '(cur', stack') := pop_to n cur stack in build toks' [] cur' stack'
      else build toks' [] cur stack
  | TSkip :: toks' => build toks' [] (end_data data cur stack) stack
  end.

Definition html_parse (text : pystr) : list node :=
  build (tokenize text) [] [] [].

(** [tag.get_text()] *)
Fixpoint node_text (n : node) : pystr :=
  match n with
  | Text s => s
  | Tag _ cs => concat (List.map node_text cs)
  end.

Definition get_text (soup : list node) : pystr := concat (List.map node_text soup).

(** [for link in soup.find_all(["xref", "a"]): link.extract()] *)
Fixpoint extract_links_node (n : node) : list node :=
  match n with
  | Text _ => [n]
  | Tag nm cs =>
      if bool_decide (nm = py "xref") || bool_decide (nm = py "a") then []
      else [Tag nm (concat (List.map extract_links_node cs))]
  end.

Definition extract_links (soup : list node) : list node :=
  concat (List.map extract_links_node soup).

(** [for s in soup.find_all(["sub", "sup"]): s.replace_with(f'-{s.text}')];
    the outermost element is replaced first, by the text of everything in
    it, and what is replaced later inside it is no longer part of the
    tree. *)
Fixpoint replace_sub_sup_node (n : node) : node :=
  match n with
  | Text _ => n
  | Tag nm cs =>
      if bool_decide (nm = py "sub") || bool_decide (nm = py "sup")
      then Text (45 :: node_text n)
      else Tag nm (List.map replace_sub_sup_node cs)
  end.

Definition replace_sub_sup (soup : list node) : list node :=
  List.map replace_sub_sup_node soup.

(** ** [_clean_text] *)

Definition _clean_text (text : pystr) : pystr :=
  let soup_text := html_parse text in
  let soup_text := extract_links soup_text in
  let soup_text := replace_sub_sup soup_text in
  let text := get_text soup_text in
  let text := _decode_unicode_references text in
  let text := pattern_sub _empty_brackets_re (fun _ => []) text in
  let text := pattern_sub _spaces_with_delimeter_re (fun _ => [32]) text in
  let text := pattern_sub _whitespaces_re (fun _ => [32]) text in
  strip text.

(** ** The element tree, [lxml.etree]

    An element has a tag, attributes, the text before its first child, its
    children and the text after its end tag.  [el.text] of the library is
    [None] where there is no text: a parsed document has no empty text
    node, so the stored text is a plain string and the accessor decides.
    Comments and processing instructions are no elements and match no
    tag. *)

Inductive element :=
| Element (tag : pystr) (attrib : list (pystr * pystr)) (content : pystr)
          (children : list element) (tail : pystr).

Definition el_tag (e : element) : pystr := let 'Element t _ _ _ _ := e in t.
Definition el_attrib (e : element) : list (pystr * pystr) :=
  let 'Element _ a _ _ _ := e in a.
Definition el_children (e : element) : list element :=
  let 'Element _ _ _ c _ := e in c.

(** [el.text] *)
Definition el_text (e : element) : option pystr :=
  let 'Element _ _ s _ _ := e in
  match s with [] => None | _ :: _ => Some s end.

Definition has_tag (t : pystr) (e : element) : bool := bool_decide (el_tag e = t).

(** [el.findall(tag)]: the children with this tag, in document order *)
Definition findall (t : pystr) (e : element) : list element :=
  List.filter (has_tag t) (el_children e).

(** [el.find(tag)]: the first of them, or [None] *)
Definition find (t : pystr) (e : element) : option element :=
  head (findall t e).

(** [el.find('a/b/c')]: the first element reached along the path, in
    document order *)
Fixpoint findall_path (path : list pystr) (es : list element) : list element :=
  match path with
  | [] => es
  | t :: path' => findall_path path' (flat_map (findall t) es)
  end.

Definition find_path (path : list pystr) (e : element) : option element :=
  head (findall_path path [e]).

Definition attrib_get (k : pystr) (e : element) : option pystr :=
  snd <$> List.find (fun kv => bool_decide (fst kv = k)) (el_attrib e).

(** *** [etree.tostring(el).decode('utf-8')]

    The serialisation is ASCII: markup characters are escaped and every
    character outside ASCII is written as a decimal reference.  The tail
    of the element is part of it. *)

Fixpoint uint_digits (u : Decimal.uint) : pystr :=
  match u with
  | Decimal.Nil => []
  | Decimal.D0 u' => 48 :: uint_digits u'
  | Decimal.D1 u' => 49 :: uint_digits u'
  | Decimal.D2 u' => 50 :: uint_digits u'
  | Decimal.D3 u' => 51 :: uint_digits u'
  | Decimal.D4 u' => 52 :: uint_digits u'
  | Decimal.D5 u' => 53 :: uint_digits u'
  | Decimal.D6 u' => 54 :: uint_digits u'
  | Decimal.D7 u' => 55 :: uint_digits u'
  | Decimal.D8 u' => 56 :: uint_digits u'
  | Decimal.D9 u' => 57 :: uint_digits u'
  end.

Definition decimal_digits (n : N) : pystr := uint_digits (N.to_uint n).

Definition charref_of (c : N) : pystr := py "&#" ++ decimal_digits c ++ py ";".

Definition escape_text_char (c : N) : pystr :=
  if c =? 38 then py "&amp;"
  else if c =? 60 then py "&lt;"
  else if c =? 62 then py "&gt;"
  else if (c =? 13) || (128 <=? c) then charref_of c
  else [c].

Definition escape_attr_char (c : N) : pystr :=
  if c =? 34 then py "&quot;"
  else if (c =? 9) || (c =? 10) then charref_of c
  else escape_text_char c.

Definition attr_string (kv : pystr * pystr) : pystr :=
  32 :: fst kv ++ py "=" ++ 34 :: flat_map escape_attr_char (snd kv) ++ [34].

Fixpoint tostring (e : element) : pystr :=
  match e with
  | Element t attrs content children tail =>
      let start := 60 :: t ++ concat (List.map attr_string attrs) in
      (match content, children with
       | [], [] => start ++ py "/>"
       | _, _ =>
           start ++ py ">" ++ flat_map escape_text_char content
           ++ concat (List.map tostring children)
           ++ py "</" ++ t ++ py ">"
       end) ++ flat_map escape_text_char tail
  end.

(** ** Values of the record *)

Record datetime := { dt_year : N; dt_month : N; dt_day : N }.

(** One entry of [abstract_texts]: a dict with the key ['text'] and, after
    it, possibly ['nlm_category'], in insertion order. *)
Definition text_dict : Type := list (pystr * pystr).

(** One author: a dict from the names of [author_name_parse_map] to the
    text of the sub-element, which may be [None]. *)
Definition author_dict : Type := gmap string (option pystr).

Inductive pyval :=
| VNone
| VStr (s : pystr)
| VDate (d : datetime)
| VTexts (l : list text_dict)
| VAuthors (l : list author_dict).

Definition of_opt (o : option pystr) : pyval :=
  match o with Some s => VStr s | None => VNone end.

Definition of_date (o : option datetime) : pyval :=
  match o with Some d => VDate d | None => VNone end.

(** [f'{x}'] for [x] a string or [None] *)
Definition fmt_opt (o : option pystr) : pystr :=
  match o with Some s => s | None => py "None" end.

(** *** [repr] of strings, dicts and lists, as [str(list)] needs it *)

Definition hex_char (n : N) : N := if n <? 10 then 48 + n else 87 + n.

Fixpoint hex_fixed (width : nat) (n : N) : pystr :=
  match width with
  | O => []
  | S w => hex_fixed w (n / 16) ++ [hex_char (n mod 16)]
  end.

Definition repr_char (quote c : N) : pystr :=
  if (c =? quote) || (c =? 92) then [92; c]
  else if c =? 9 then py "\t"
  else if c =? 10 then py "\n"
  else if c =? 13 then py "\r"
  else if (c <? 32) || (c =? 127) then py "\x" ++ hex_fixed 2 c
  else if c <? 127 then [c]
  else if py_isprintable c then [c]
  else if c <=? 255 then py "\x" ++ hex_fixed 2 c
  else if c <=? 65535 then py "\u" ++ hex_fixed 4 c
  else py "\U" ++ hex_fixed 8 c.

(** The quote is ['], unless the string has a ['] and no double quote. *)
Definition repr_quote (s : pystr) : N :=
  if existsb (N.eqb 39) s && negb (existsb (N.eqb 34) s) then 34 else 39.

Definition repr_str (s : pystr) : pystr :=
  let q := repr_quote s in
  q :: flat_map (repr_char q) s ++ [q].

(** [', '.join(items)] *)
Fixpoint join_comma (items : list pystr) : pystr :=
  match items with
  | [] => []
  | [x] => x
  | x :: rest => x ++ py ", " ++ join_comma rest
  end.

Definition repr_text_dict (d : text_dict) : pystr :=
  py "{" ++ join_comma (List.map (fun kv => repr_str (fst kv) ++ py ": " ++ repr_str (snd kv)) d)
  ++ py "}".

Definition repr_texts (l : list text_dict) : pystr :=
  py "[" ++ join_comma (List.map repr_text_dict l) ++ py "]".

(** ** [_get_authors] *)

Definition author_name_parse_map (t : pystr) : option string :=
  if bool_decide (t = py "ForeName") then Some "first_name"%string
  else if bool_decide (t = py "LastName") then Some "last_name"%string
  else if bool_decide (t = py "Initials") then Some "initials"%string
  else if bool_decide (t = py "Suffix") then Some "suffix"%string
  else None.

(** The inner loop over the sub-elements of one [Author]; the state is the
    dict of the author and the collective name seen last. *)
Fixpoint author_names (name_els : list element)
    (author : author_dict) (collective_name : option pystr)
  : author_dict * option pystr :=
  match name_els with
  | [] => (author, collective_name)
  | name_el :: rest =>
      match author_name_parse_map (el_tag name_el) with
      | Some k => author_names rest (<[k := el_text name_el]> author) collective_name
      | None =>
          if bool_decide (el_tag name_el = py "CollectiveName")
          then author_names rest author (el_text name_el)
          else author_names rest author collective_name
      end
  end.

Fixpoint authors_loop (author_els : list element)
    (authors : list author_dict) (collective_name : option pystr)
  : list author_dict * option pystr :=
  match author_els with
  | [] => (authors, collective_name)
  | author_el :: rest =>
      let '(author, collective_name) :=
        author_names (el_children author_el) ∅ collective_name in
      if bool_decide (author = ∅) then authors_loop rest authors collective_name
      else authors_loop rest (authors ++ [author]) collective_name
  end.

Definition _get_authors (article_el : element) : list author_dict * option pystr :=
  match find (py "AuthorList") article_el with
  | Some author_list_el => authors_loop (findall (py "Author") author_list_el) [] None
  | None => ([], None)
  end.

(** ** [_get_date] *)

(** [datetime.strptime(s, '%Y-%m-%d')].  The format compiles to
    [(\d\d\d\d)-(1[0-2]|0[1-9]|[1-9])-(3[01]|[12]\d|0[1-9]|[1-9]| [1-9])];
    the text must match it to its end and name a day of the calendar. *)

Definition in_range (lo hi c : N) : bool := (lo <=? c) && (c <=? hi).

(** the ways the month can match, in the order the pattern tries them *)
Definition month_alternatives (s : pystr) : list (N * pystr) :=
  match s with
  | a :: b :: r =>
      (if (a =? 49) && in_range 48 50 b then [(10 + (b - 48), r)] else [])
      ++ (if (a =? 48) && in_range 49 57 b then [(b - 48, r)] else [])
      ++ (if in_range 49 57 a then [(a - 48, b :: r)] else [])
  | [a] => if in_range 49 57 a then [(a - 48, [])] else []
  | [] => []
  end.

(** the first way the day matches *)
Definition day_match (s : pystr) : option (N * pystr) :=
  match s with
  | a :: b :: r =>
      if (a =? 51) && in_range 48 49 b then Some (30 + (b - 48), r)
      else if in_range 49 50 a && is_decimal b
      then Some (10 * (a - 48) + decimal_value b, r)
      else if (a =? 48) && in_range 49 57 b then Some (b - 48, r)
      else if in_range 49 57 a then Some (a - 48, b :: r)
      else if (a =? 32) && in_range 49 57 b then Some (b - 48, r)
      else None
  | [a] => if in_range 49 57 a then Some (a - 48, []) else None
  | [] => None
  end.

Definition is_leap (y : N) : bool :=
  ((y mod 4 =? 0) && negb (y mod 100 =? 0)) || (y mod 400 =? 0).

Definition days_in_month (y m : N) : N :=
  if m =? 2 then (if is_leap y then 29 else 28)
  else if (m =? 4) || (m =? 6) || (m =? 9) || (m =? 11) then 30
  else 31.

(** the first month alternative after which [-] and a day follow *)
Fixpoint month_and_day (alts : list (N * pystr)) : option (N * N * pystr) :=
  match alts with
  | [] => None
  | (m, r) :: alts' =>
      match r with
      | c :: r' =>
          if c =? 45 then
            match day_match r' with
            | Some (d, rest) => Some (m, d, rest)
            | None => month_and_day alts'
            end
          else month_and_day alts'
      | [] => month_and_day alts'
      end
  end.

Definition strptime_ymd (s : pystr) : result datetime :=
  match s with
  | y1 :: y2 :: y3 :: y4 :: c :: r =>
      if forallb is_decimal [y1; y2; y3; y4] && (c =? 45) then
        match month_and_day (month_alternatives r) with
        | Some (m, d, []) =>
            let y := digits_value [y1; y2; y3; y4] in
            if (1 <=? y) && (d <=? days_in_month y m)
            then Ok {| dt_year := y; dt_month := m; dt_day := d |}
            else Err ValueError
        | _ => Err ValueError
        end
      else Err ValueError
  | _ => Err ValueError
  end.

Definition _get_date (medline_citation_el : element) (key : pystr)
  : result (option datetime) :=
  match find key medline_citation_el with
  | Some date_el =>
      let* year_el := deref (find (py "Year") date_el) in
      let year := el_text year_el in
      let* month_el := deref (find (py "Month") date_el) in
      let month := el_text month_el in
      let* day_el := deref (find (py "Day") date_el) in
      let day := el_text day_el in
      let* d := strptime_ymd
                  (fmt_opt year ++ py "-" ++ fmt_opt month ++ py "-" ++ fmt_opt day) in
      Ok (Some d)
  | None => Ok None
  end.

(** ** [_get_texts] *)

Fixpoint texts_loop (abstract_text_els : list element) (texts : list text_dict)
  : list text_dict :=
  match abstract_text_els with
  | [] => texts
  | abstract_text_el :: rest =>
      let abstract_text := _clean_text (tostring abstract_text_el) in
      match abstract_text with
      | [] => texts_loop rest texts
      | _ :: _ =>
          let d := [(py "text", abstract_text)] in
          let d :=
            match attrib_get (py "NlmCategory") abstract_text_el with
            | Some v => d ++ [(py "nlm_category", v)]
            | None => d
            end in
          texts_loop rest (texts ++ [d])
      end
  end.

Definition _get_texts (article_el : element) : list text_dict :=
  match find (py "Abstract") article_el with
  | Some abstract_el => texts_loop (findall (py "AbstractText") abstract_el) []
  | None => []
  end.

(** ** [_is_review] and [_is_review_in_text] *)

(** [el.text is not None and 'review' in el.text.lower()] *)
Definition text_has_review (e : element) : bool :=
  match el_text e with
  | Some t => contains (py "review") (lower t)
  | None => false
  end.

(** The loop over the MeSH headings: a heading without [DescriptorName]
    raises when the loop reaches it. *)
Fixpoint mesh_loop (mesh_heading_els : list element) : result bool :=
  match mesh_heading_els with
  | [] => Ok false
  | mesh_heading_el :: rest =>
      let* descriptor_name_el := deref (find (py "DescriptorName") mesh_heading_el) in
      match el_text descriptor_name_el with
      | None => mesh_loop rest
      | Some t =>
          if contains (py "review") (lower t) then Ok true else mesh_loop rest
      end
  end.

Definition _is_review (medline_citation_el : element) : result bool :=
  let* article_el := deref (find (py "Article") medline_citation_el) in
  let by_type :=
    match find (py "PublicationTypeList") article_el with
    | Some pub_type_l_el =>
        existsb text_has_review (findall (py "PublicationType") pub_type_l_el)
    | None => false
    end in
  if by_type then Ok true else
  let* by_mesh :=
    match find (py "MeshHeadingList") medline_citation_el with
    | Some mesh_heading_list_el =>
        mesh_loop (findall (py "MeshHeading") mesh_heading_list_el)
    | None => Ok false
    end in
  if by_mesh then Ok true else
  match find (py "KeywordList") medline_citation_el with
  | Some keyword_list_el =>
      Ok (existsb text_has_review (findall (py "Keyword") keyword_list_el))
  | None => Ok false
  end.

Definition filtering_phrases : list pystr := [py "systematic review"].

Definition _is_review_in_text (text : pystr) : bool :=
  let text_lower := lower text in
  existsb (fun filtering_phrase => contains filtering_phrase text_lower)
          filtering_phrases.

(** ** [_get_abstract_data_from_xml_el] *)

Definition source_name : pystr := py "pubmed".

(** [f"{d.get(k, '')}"] for the two keys the source formats: a string is
    itself, the list of abstract texts is its [repr], a missing key is the
    empty string. *)
Definition format_get (d : gmap string pyval) (k : string) : pystr :=
  match d !! k with
  | Some (VStr s) => s
  | Some (VTexts l) => repr_texts l
  | Some VNone => py "None"
  | _ => []
  end.

(** The text the phrase classifier is given. *)
Definition review_text (d : gmap string pyval) : pystr :=
  strip (format_get d "title" ++ [10] ++ format_get d "abstract_texts").

Definition year_path : list pystr :=
  [py "Journal"; py "JournalIssue"; py "PubDate"; py "Year"].
Definition medline_date_path : list pystr :=
  [py "Journal"; py "JournalIssue"; py "PubDate"; py "MedlineDate"].
Definition journal_title_path : list pystr := [py "Journal"; py "Title"].

(** [try: ...Year').text  except AttributeError: ...MedlineDate').text[:4]] *)
Definition article_date (article_el : element) : result pyval :=
  match find_path year_path article_el with
  | Some year_el => Ok (of_opt (el_text year_el))
  | None =>
      let* medline_date_el := deref (find_path medline_date_path article_el) in
      match el_text medline_date_el with
      | Some s => Ok (VStr (slice_to 4 s))
      | None => Err TypeError
      end
  end.

Definition _get_abstract_data_from_xml_el (pubmed_article_el : element)
  : result (option (gmap string pyval)) :=
  let article_data_dict : gmap string pyval := ∅ in
  let* medline_citation_el := deref (find (py "MedlineCitation") pubmed_article_el) in
  match find (py "PMID") medline_citation_el with
  | None => Ok None
  | Some pmid_el =>
      let article_data_dict := <["pmid" := of_opt (el_text pmid_el)]> article_data_dict in
      let article_data_dict :=
        <["id" := VStr (source_name ++ py "_" ++ fmt_opt (el_text pmid_el))]>
          article_data_dict in
      let* review := _is_review medline_citation_el in
      if review then Ok None else
      let* article_el := deref (find (py "Article") medline_citation_el) in
      let texts := _get_texts article_el in
      let article_data_dict :=
        match texts with
        | [] => article_data_dict
        | _ :: _ => <["abstract_texts" := VTexts texts]> article_data_dict
        end in
      let* date := article_date article_el in
      let article_data_dict := <["date" := date]> article_data_dict in
      let* journal_title_el := deref (find_path journal_title_path article_el) in
      let article_data_dict :=
        <["journal_title" := of_opt (el_text journal_title_el)]> article_data_dict in
      let article_data_dict :=
        match find (py "ArticleTitle") article_el with
        | Some article_title_el =>
            match _clean_text (tostring article_title_el) with
            | [] => article_data_dict
            | article_title => <["title" := VStr article_title]> article_data_dict
            end
        | None => article_data_dict
        end in
      if negb (bool_decide (is_Some (article_data_dict !! "title"))
               || bool_decide (is_Some (article_data_dict !! "abstract_texts")))
      then Ok None else
      let text := review_text article_data_dict in
      if _is_review_in_text text then Ok None else
      let '(authors, collective_name) := _get_authors article_el in
      let article_data_dict :=
        match authors with
        | [] => article_data_dict
        | _ :: _ => <["authors" := VAuthors authors]> article_data_dict
        end in
      let article_data_dict :=
        match collective_name with
        | Some s => <["collective_name" := VStr s]> article_data_dict
        | None => article_data_dict
        end in
      let* date_completed := _get_date medline_citation_el (py "DateCompleted") in
      let article_data_dict :=
        <["date_completed" := of_date date_completed]> article_data_dict in
      let* date_revised := _get_date medline_citation_el (py "DateRevised") in
      let article_data_dict :=
        <["date_revised" := of_date date_revised]> article_data_dict in
      let* date_article := _get_date article_el (py "ArticleDate") in
      let article_data_dict :=
        <["date_article" := of_date date_article]> article_data_dict in
      Ok (Some article_data_dict)
  end.

(** ** [parse_file]

    The generator over the [PubmedArticle] children of the parsed
    document: the records it yields, in order, and the exception that ends
    it, if one does.  Parsing the XML text into the tree is the library's
    part. *)

Fixpoint parse_articles (pubmed_article_els : list element)
  : list (gmap string pyval) * option exn :=
  match pubmed_article_els with
  | [] => ([], None)
  | pubmed_article_el :: rest =>
      match _get_abstract_data_from_xml_el pubmed_article_el with
      | Err e => ([], Some e)
      | Ok None => parse_articles rest
      | Ok (Some article_data) =>
          let '(yielded, e) := parse_articles rest in
          (article_data :: yielded, e)
      end
  end.

Definition parse_file (xml_pubmed_article_set : element)
  : list (gmap string pyval) * option exn :=
  parse_articles (findall (py "PubmedArticle") xml_pubmed_article_set).

End Model.

(** ** A concrete set of tables

    The tables of an interpreter restricted to Basic Latin: the digits
    [0]-[9], the letters [A]-[Z] with their lower case, the five predefined
    entities.  It shows that the laws of [PyEnv] can be met, and is what the
    examples are evaluated with. *)

Definition basic_decimal (c : N) : option N :=
  if (48 <=? c) && (c <=? 57) then Some (c - 48) else None.

Definition basic_tolower_full (c : N) : pystr :=
  [if (65 <=? c) && (c <=? 90) then c + 32 else c].

Definition basic_isprintable (c : N) : bool :=
  (32 <=? c) && negb ((127 <=? c) && (c <=? 160)).

Definition basic_entity (name : pystr) : option pystr :=
  if bool_decide (name = py "amp") then Some (py "&")
  else if bool_decide (name = py "lt") then Some (py "<")
  else if bool_decide (name = py "gt") then Some (py ">")
  else if bool_decide (name = py "quot") then Some [34]
  else if bool_decide (name = py "apos") then Some (py "'")
  else None.

Definition basic_charref (n : N) : pystr :=
  if n <=? 1114111 then [n] else [65533].

#[export] Instance basic_env : PyEnv.
Proof.
  refine {| py_decimal := basic_decimal;
            py_tolower_full := basic_tolower_full;
            py_final_sigma := fun _ _ => false;
            py_isprintable := basic_isprintable;
            py_int_max_str_digits := Some 4300%nat;
            html_entity := basic_entity;
            html_charref := basic_charref |}.
  - intros c _. reflexivity.
  - intros c d. unfold basic_decimal.
    destruct ((48 <=? c) && (c <=? 57)) eqn:E; [|discriminate].
    intros [= <-]. apply andb_prop in E as [_ E2]. apply N.leb_le in E2. lia.
  - intros c Hs. unfold basic_decimal.
    destruct ((48 <=? c) && (c <=? 57)) eqn:E; [|reflexivity].
    apply andb_prop in E as [E1 E2].
    apply N.leb_le in E1. apply N.leb_le in E2.
    assert (is_space c = false) as Hf; [|congruence].
    unfold is_space.
    repeat match goal with
           | |- context [?a <=? ?b] => destruct (N.leb_spec a b); try lia
           | |- context [?a =? ?b] => destruct (N.eqb_spec a b); try lia
           end; reflexivity.
  - intros c _. reflexivity.
  - intros c Hc _. unfold basic_tolower_full.
    destruct ((65 <=? c) && (c <=? 90)) eqn:E; [|reflexivity].
    apply andb_prop in E as [_ E2]. apply N.leb_le in E2. lia.
Defined.

(** * The vocabulary of the properties *)

(** ** Texts *)

(** A text that [strip] leaves alone: no whitespace at either end. *)
Definition trimmed (s : pystr) : Prop := lstrip s = s /\ lstrip (rev s) = rev s.

(** What [_whitespaces_re] matches at the head of a text: the whole run of
    whitespace, if it has two characters or more. *)
Definition match_whitespaces (s : pystr) : option (nat * pystr) :=
  let '(ws, _) := span is_space s in
  if (2 <=? length ws)%nat then Some (length ws, [32]) else None.

(** The longest run of [p], then [k]; one character less at a time
    when [k] fails. *)
Fixpoint greedy_run {A : Type} (p : N -> bool) (k : pystr -> option A)
    (s : pystr) : option A :=
  match s with
  | c :: s' =>
      if p c then
        match greedy_run p k s' with
        | Some a => Some a
        | None => k s
        end
      else k s
  | [] => k s
  end.

(** Every match of the pattern holds a character of [q]. *)
Fixpoint needs (q : N -> Prop) (r : regex) : Prop :=
  match r with
  | Class p | Ahead p => forall c, p c = true -> q c
  | Cat r1 r2 => needs q r1 \/ needs q r2
  | Or r1 r2 => needs q r1 /\ needs q r2
  | Repeat _ _ => False
  | Group r => needs q r
  end.

(** The last four steps of [_clean_text]. *)
Definition tidy (text : pystr) : pystr :=
  strip (pattern_sub _whitespaces_re (fun _ => [32])
           (pattern_sub _spaces_with_delimeter_re (fun _ => [32])
              (pattern_sub _empty_brackets_re (fun _ => []) text))).

(** No two whitespace characters next to each other. *)
Fixpoint single_spaced (s : pystr) : bool :=
  match s with
  | [] => true
  | a :: s' =>
      match s' with
      | b :: _ => negb (is_space a && is_space b)
      | [] => true
      end && single_spaced s'
  end.

(** A character that is no start of markup: neither [<] nor [&]. *)
Definition plain_char (c : N) : Prop := c <> 60 /\ c <> 38.

(** A character none of the steps of [_clean_text] looks for, whitespace
    apart: no markup, no opening bracket, no separator. *)
Definition ordinary_char (c : N) : Prop :=
  plain_char c /\ c <> 91 /\ c <> 40 /\ c <> 45 /\ c <> 44 /\ c <> 59.

(** Lower case of a character of ASCII. *)
Definition ascii_lower (c : N) : N :=
  if (65 <=? c) && (c <=? 90) then c + 32 else c.

(** ASCII text without [&]: what the tokenizer does with it depends on no
    table. *)
Definition ascii_markup_char (c : N) : Prop := c < 128 /\ c <> 38.

(** The abstract segment of the spec's example. *)
Definition example_segment : pystr :=
  py "<i>Background</i>: values were <sup>2</sup>elevated [12].".


(** [p] occurs in [s]. *)
Definition infix (p s : pystr) : Prop := exists a b, s = a ++ p ++ b.

(** The characters of the filtering phrases: small letters and the space. *)
Definition phrase_char (c : N) : Prop := (97 <= c /\ c <= 122) \/ c = 32.

(** The two small sigmas are taken for one: which of them [str.lower()]
    writes depends on the neighbours, and it is the one thing in it that
    does. *)
Definition fold_sigma (c : N) : N := if c =? 962 then 963 else c.

Section Vocabulary.
Context {env : PyEnv}.

(** What the pattern of the references matches at the head of a text:
    [&#], the whole run of digits, and a [;] or, not taken, a
    whitespace. *)
Definition match_charref (s : pystr) : option (nat * pystr) :=
  match strip_prefix [38; 35] s with
  | Some s1 =>
      let '(id, s2) := span is_decimal s1 in
      match id, s2 with
      | _ :: _, c :: _ =>
          if c =? 59 then Some (2 + length id + 1, _callback id)%nat
          else if is_space c then Some (2 + length id, _callback id)%nat
          else None
      | _, _ => None
      end
  | None => None
  end.

(** The spec's words: a reference is [&#NNN;], or [&#NNN] followed by
    whitespace.  [reference s ds rest]: the text [s] begins with a
    reference whose digits are [ds], and [rest] is the text after it (the
    whitespace that ends a reference is not part of it). *)
Inductive reference : pystr -> pystr -> pystr -> Prop :=
| reference_semicolon ds rest :
    ds <> [] -> Forall (fun c => is_decimal c = true) ds ->
    reference (38 :: 35 :: ds ++ 59 :: rest) ds rest
| reference_space ds w rest :
    ds <> [] -> Forall (fun c => is_decimal c = true) ds ->
    is_space w = true ->
    reference (38 :: 35 :: ds ++ w :: rest) ds (w :: rest).

(** The conversion of the digits to a character succeeds when the number
    can be read and is a code point. *)
Definition converts (ds : pystr) : bool :=
  match py_int_max_str_digits with
  | Some m => (length ds <=? m)%nat
  | None => true
  end && (digits_value ds <=? 1114111).

(** The character with code NNN when the conversion succeeds, the digits
    otherwise. *)
Definition reference_value (ds : pystr) : pystr :=
  if converts ds then [digits_value ds] else ds.

(** [decoded s out]: [out] is [s] with every reference, from the left,
    replaced by its value, and every other character kept. *)
Inductive decoded : pystr -> pystr -> Prop :=
| decoded_nil : decoded [] []
| decoded_reference s ds rest out :
    reference s ds rest -> decoded rest out ->
    decoded s (reference_value ds ++ out)
| decoded_char c s out :
    (forall ds rest, ~ reference (c :: s) ds rest) ->
    decoded s out -> decoded (c :: s) (c :: out).

(** What [str.lower()] makes of one character, sigmas folded. *)
Definition lower_char (c : N) : pystr :=
  List.map fold_sigma (if c =? 931 then [963] else py_tolower_full c).

(** The stages of the record, as [_get_abstract_data_from_xml_el] assigns
    its keys. *)
Definition with_abstract_texts (texts : list text_dict) (d : gmap string pyval)
  : gmap string pyval :=
  match texts with
  | [] => d
  | _ :: _ => <["abstract_texts" := VTexts texts]> d
  end.

(** The cleaned title; empty where the entry has no [ArticleTitle]. *)
Definition cleaned_title (article_el : element) : pystr :=
  match find (py "ArticleTitle") article_el with
  | Some article_title_el => _clean_text (tostring article_title_el)
  | None => []
  end.

Definition with_title (title : pystr) (d : gmap string pyval) : gmap string pyval :=
  match title with
  | [] => d
  | _ :: _ => <["title" := VStr title]> d
  end.

Definition with_authors (authors : list author_dict) (d : gmap string pyval)
  : gmap string pyval :=
  match authors with
  | [] => d
  | _ :: _ => <["authors" := VAuthors authors]> d
  end.

Definition with_collective_name (name : option pystr) (d : gmap string pyval)
  : gmap string pyval :=
  match name with
  | Some s => <["collective_name" := VStr s]> d
  | None => d
  end.

(** The record when the gates are reached. *)
Definition gated_record (pmid_el article_el : element) (date : pyval)
    (journal_title_el : element) : gmap string pyval :=
  with_title (cleaned_title article_el)
    (<["journal_title" := of_opt (el_text journal_title_el)]>
       (<["date" := date]>
          (with_abstract_texts (_get_texts article_el)
             (<["id" := VStr (source_name ++ py "_" ++ fmt_opt (el_text pmid_el))]>
                (<["pmid" := of_opt (el_text pmid_el)]> ∅))))).

(** The record that is returned. *)
Definition final_record (gated : gmap string pyval) (article_el : element)
    (date_completed date_revised date_article : option datetime)
  : gmap string pyval :=
  <["date_article" := of_date date_article]>
    (<["date_revised" := of_date date_revised]>
       (<["date_completed" := of_date date_completed]>
          (with_collective_name (_get_authors article_el).2
             (with_authors (_get_authors article_el).1 gated)))).


(** The article has an abstract segment whose cleaned text has the phrase
    "systematic review" in it, in any case of the letters. *)
Definition has_review_phrase (article_el : element) : Prop :=
  exists abstract_el abstract_text_el,
    find (py "Abstract") article_el = Some abstract_el
    /\ abstract_text_el ∈ findall (py "AbstractText") abstract_el
    /\ contains (py "systematic review")
         (lower (_clean_text (tostring abstract_text_el))) = true.

End Vocabulary.



(** The citation has a publication type whose text has "review" in it, in
    any case of the letters. *)
Definition has_review_type {env : PyEnv} (mc : element) : Prop :=
  exists article_el pub_type_l_el pub_type_el t,
    find (py "Article") mc = Some article_el
    /\ find (py "PublicationTypeList") article_el = Some pub_type_l_el
    /\ pub_type_el ∈ findall (py "PublicationType") pub_type_l_el
    /\ el_text pub_type_el = Some t
    /\ contains (py "review") (lower t) = true.


(** What C10 says of the keys of a record [r] made from the citation [mc]
    and its article: the three dates are always there, [None] exactly
    where the container is absent; the four optional keys are there only
    with a non-empty value. *)
Definition record_fields {env : PyEnv} (mc article_el : element)
    (r : gmap string pyval) : Prop :=
  (exists dc dr da,
      r !! "date_completed" = Some (of_date dc)
      /\ r !! "date_revised" = Some (of_date dr)
      /\ r !! "date_article" = Some (of_date da)
      /\ (dc = None <-> find (py "DateCompleted") mc = None)
      /\ (dr = None <-> find (py "DateRevised") mc = None)
      /\ (da = None <-> find (py "ArticleDate") article_el = None))
  /\ r !! "title" =
     match cleaned_title article_el with [] => None | t => Some (VStr t) end
  /\ r !! "abstract_texts" =
     match _get_texts article_el with [] => None | ts => Some (VTexts ts) end
  /\ r !! "authors" =
     match (_get_authors article_el).1 with [] => None | l => Some (VAuthors l) end
  /\ r !! "collective_name" =
     match (_get_authors article_el).2 with None => None | Some s => Some (VStr s) end.

(** ** Sample entries *)

(** An element with text only, and one with children only. *)
Definition leaf (t txt : string) : element := Element (py t) [] (py txt) [] [].

Definition branch (t : string) (cs : list element) : element :=
  Element (py t) [] [] cs [].

(** An entry with an identifier, a completion date, a journal, a title, one
    abstract segment and one author; its publication date, its publication
    type and the text of its abstract are left open. *)
Definition sample_citation (pub_date : list element) (pub_type abstract : string)
  : element :=
  branch "MedlineCitation"
    [leaf "PMID" "31415";
     branch "DateCompleted"
       [leaf "Year" "2020"; leaf "Month" "02"; leaf "Day" "29"];
     branch "Article"
       [branch "Journal"
          [branch "JournalIssue" [branch "PubDate" pub_date];
           leaf "Title" "Addiction"];
        leaf "ArticleTitle" "Cannabis use and sleep";
        branch "Abstract"
          [Element (py "AbstractText") [(py "NlmCategory", py "RESULTS")]
             (py abstract) [] []];
        branch "AuthorList"
          [branch "Author" [leaf "LastName" "Doe"; leaf "ForeName" "Jane"];
           branch "Author" []];
        branch "PublicationTypeList" [leaf "PublicationType" pub_type]]].

Definition sample_article (pub_date : list element) (pub_type abstract : string)
  : element :=
  branch "PubmedArticle" [sample_citation pub_date pub_type abstract].

Definition both_dates : list element :=
  [leaf "Year" "2019"; leaf "MedlineDate" "2018 Jan-Feb"].

Definition sample_set : element :=
  branch "PubmedArticleSet"
    [sample_article both_dates "Journal Article" "Sleep improved."].

Definition sample_record : gmap string pyval :=
  match @_get_abstract_data_from_xml_el basic_env
          (sample_article both_dates "Journal Article" "Sleep improved.") with
  | Ok (Some r) => r
  | _ => ∅
  end.

(** A citation whose completion date has no day. *)
Definition citation_without_day : element :=
  branch "MedlineCitation"
    [leaf "PMID" "31415";
     branch "DateCompleted" [leaf "Year" "2020"; leaf "Month" "02"]].

(** ** Authors *)

(** The keys of an author: the values of [author_name_parse_map]. *)
Definition name_keys : list string :=
  ["first_name"; "last_name"; "initials"; "suffix"]%string.

(** The [Author] elements of the article's [AuthorList], in document order. *)
Definition author_elements {env : PyEnv} (article_el : element) : list element :=
  match find (py "AuthorList") article_el with
  | Some author_list_el => findall (py "Author") author_list_el
  | None => []
  end.

(** The text of the last sub-element of an author that goes to the key
    [k], if there is such a sub-element. *)
Definition name_field (k : string) (author_el : element)
  : option (option pystr) :=
  el_text <$>
    last (List.filter
            (fun e => bool_decide (author_name_parse_map (el_tag e) = Some k))
            (el_children author_el)).

Definition is_collective_name (e : element) : bool :=
  bool_decide (el_tag e = py "CollectiveName").

(** ** Dates *)

(** A day of the calendar of [datetime]. *)
Definition valid_date (dt : datetime) : Prop :=
  (1 <= dt_year dt /\ dt_year dt <= 9999)
  /\ (1 <= dt_month dt /\ dt_month dt <= 12)
  /\ (1 <= dt_day dt /\ dt_day dt <= days_in_month (dt_year dt) (dt_month dt)).

(** A number in two and in four decimal digits, with leading zeros. *)
Definition digits2 (n : N) : pystr := [48 + n / 10; 48 + n mod 10].
Definition digits4 (n : N) : pystr :=
  [48 + n / 1000; 48 + (n / 100) mod 10; 48 + (n / 10) mod 10; 48 + n mod 10].

(** The container has a sub-element [t] with the text [s]. *)
Definition has_field (t : string) (s : pystr) (date_el : element) : Prop :=
  exists e, find (py t) date_el = Some e /\ el_text e = Some s.

(** ** The review classifier *)

Section ReviewVocabulary.
Context {env : PyEnv}.

(** The elements the three tests of [_is_review] read. *)
Definition publication_types (article_el : element) : list element :=
  match find (py "PublicationTypeList") article_el with
  | Some pub_type_l_el => findall (py "PublicationType") pub_type_l_el
  | None => []
  end.

Definition mesh_headings (medline_citation_el : element) : list element :=
  match find (py "MeshHeadingList") medline_citation_el with
  | Some mesh_heading_list_el => findall (py "MeshHeading") mesh_heading_list_el
  | None => []
  end.

Definition keywords (medline_citation_el : element) : list element :=
  match find (py "KeywordList") medline_citation_el with
  | Some keyword_list_el => findall (py "Keyword") keyword_list_el
  | None => []
  end.

(** The text of the element has no "review" in it, or the element has no
    text. *)
Definition no_review (e : element) : Prop := text_has_review e = false.

(** A heading with a [DescriptorName], and one whose descriptor name has no
    "review" in it. *)
Definition has_descriptor (mesh_heading_el : element) : Prop :=
  is_Some (find (py "DescriptorName") mesh_heading_el).

Definition plain_heading (mesh_heading_el : element) : Prop :=
  exists descriptor_name_el,
    find (py "DescriptorName") mesh_heading_el = Some descriptor_name_el
    /\ no_review descriptor_name_el.

(** A heading whose descriptor name has "review" in it. *)
Definition review_heading (mesh_heading_el : element) : Prop :=
  exists descriptor_name_el,
    find (py "DescriptorName") mesh_heading_el = Some descriptor_name_el
    /\ text_has_review descriptor_name_el = true.

End ReviewVocabulary.

(** ** Markup *)

(** The test of the tokenizer for a character of text. *)
Definition is_text_char (c : N) : bool := negb ((c =? 60) || (c =? 38)).

(** A start tag and an end tag, as [etree.tostring] writes them. *)
Definition start_tag (name : pystr) (attrs : list (pystr * pystr)) : pystr :=
  60 :: name ++ concat (List.map attr_string attrs) ++ [62].

Definition end_tag (name : pystr) : pystr := 60 :: 47 :: name ++ [62].

(** A name of ASCII letters. *)
Definition letters (name : pystr) : Prop :=
  name <> [] /\ Forall (fun c => is_ascii_letter c = true) name.

(** A text the tree keeps as it is: it is empty, or it has a character
    that is no ASCII whitespace. *)
Definition kept_text (s : pystr) : Prop :=
  s = [] \/ forallb is_ascii_space s = false.

(** The elements [_clean_text] takes out, the ones it replaces, and
    elements of the text markup of PubMed that it has no rule for: the
    two it is given, and bold, italic and underline. *)
Definition link_tags : list pystr := [py "xref"; py "a"].
Definition script_tags : list pystr := [py "sub"; py "sup"].
Definition text_tags : list pystr :=
  [py "AbstractText"; py "ArticleTitle"; py "b"; py "i"; py "u"].

(** ** Serialised elements *)

Definition el_tail (e : element) : pystr := let 'Element _ _ _ _ tl := e in tl.

Definition is_link (t : pystr) : bool := bool_decide (t ∈ link_tags).
Definition is_script (t : pystr) : bool := bool_decide (t ∈ script_tags).

Section ElementText.
Context {env : PyEnv}.

(** A character of text that comes back from the parser as it went into
    the serialiser: one that is written as it is or as one of [&amp;],
    [&lt;], [&gt;], or one whose numeric reference the parser turns into
    the character itself. *)
Definition text_ok (c : N) : Prop :=
  (c < 128 /\ c <> 13) \/ html_charref c = [c].

(** The three entities the serialiser writes are known to the parser. *)
Definition entities_known : Prop :=
  html_entity (py "amp") = Some (py "&")
  /\ html_entity (py "lt") = Some (py "<")
  /\ html_entity (py "gt") = Some (py ">").

(** The string the tree has for a run of text outside [pre] and
    [textarea]. *)
Definition soup_string (s : pystr) : pystr :=
  match s with
  | [] => []
  | _ :: _ => data_string s []
  end.

(** The text inside an element once the links are taken out. *)
Fixpoint inner_text (e : element) : pystr :=
  match e with
  | Element t _ content children _ =>
      if is_link t then []
      else soup_string content
           ++ concat (List.map (fun c => inner_text c ++ soup_string (el_tail c))
                        children)
  end.

(** The text [_clean_text] has for an element before it decodes the
    references and tidies the text up: nothing for a link, a hyphen and
    the inner text for a subscript or superscript, and for any other
    element its own text and, for each child, the text of the child and
    the text after it. *)
Fixpoint shown_text (e : element) : pystr :=
  match e with
  | Element t _ content children _ =>
      if is_link t then []
      else if is_script t then 45 :: inner_text e
      else soup_string content
           ++ concat (List.map (fun c => shown_text c ++ soup_string (el_tail c))
                        children)
  end.

(** An element of text markup: its tag and those of its descendants are
    among the ones above, the attribute names are of letters, and the
    texts come back from the parser. *)
Inductive markup : element -> Prop :=
| markup_element t attrs content children tail :
    t ∈ text_tags ++ link_tags ++ script_tags ->
    Forall (fun kv => letters (fst kv)) attrs ->
    Forall text_ok content ->
    Forall text_ok tail ->
    Forall markup children ->
    markup (Element t attrs content children tail).

(** The open elements are none of [pre] and [textarea]. *)
Definition plain_stack (stack : list frame) : Prop :=
  Forall (fun fr : frame => preserves_whitespace fr.1 = false) stack.

(** The tree the parser builds of a serialised element. *)
Definition text_node (s : pystr) : list node :=
  match s with
  | [] => []
  | _ :: _ => [Text (data_string s [])]
  end.

Fixpoint tree (e : element) : node :=
  match e with
  | Element t _ content children _ =>
      Tag (List.map ascii_lower t)
        (text_node content
         ++ concat (List.map (fun c => tree c :: text_node (el_tail c)) children))
  end.

(** The children of an element, in the order of the document. *)
Definition kids (children : list element) : list node :=
  concat (List.map (fun c => tree c :: text_node (el_tail c)) children).

End ElementText.

(** ** Records *)

(** The keys every record has, and the keys a record may have. *)
Definition required_keys : list string :=
  ["pmid"; "id"; "date"; "journal_title";
   "date_completed"; "date_revised"; "date_article"]%string.

Definition optional_keys : list string :=
  ["title"; "abstract_texts"; "authors"; "collective_name"]%string.

(** A text as [_clean_text] leaves it, and not empty. *)
Definition clean_nonempty (t : pystr) : Prop :=
  t <> [] /\ single_spaced t = true /\ trimmed t.

(** The [AbstractText] elements of the article, in document order. *)
Definition abstract_text_elements {env : PyEnv} (article_el : element)
  : list element :=
  match find (py "Abstract") article_el with
  | Some abstract_el => findall (py "AbstractText") abstract_el
  | None => []
  end.

(** The entry of [abstract_texts] for one [AbstractText]: none where the
    cleaned text is empty. *)
Definition abstract_text_entry {env : PyEnv} (abstract_text_el : element)
  : option text_dict :=
  match _clean_text (tostring abstract_text_el) with
  | [] => None
  | text =>
      Some ((py "text", text)
            :: match attrib_get (py "NlmCategory") abstract_text_el with
               | Some category => [(py "nlm_category", category)]
               | None => []
               end)
  end.

(** ** The patterns *)

(** What [_empty_brackets_re] matches at the head of a text: the
    whitespace before a bracket, the bracket, the filler in it and the
    closing bracket; before a round bracket there is whitespace. *)
Definition bracket_group (close : N) (ws r' : pystr) : option (nat * pystr) :=
  let '(fill, r'') := span is_bracket_filler r' in
  match r'' with
  | c :: _ =>
      if c =? close then Some (length ws + 1 + length fill + 1, [])%nat
      else None
  | [] => None
  end.

Definition match_empty_brackets (s : pystr) : option (nat * pystr) :=
  let '(ws, r) := span is_space s in
  match r with
  | c :: r' =>
      if c =? 91 then bracket_group 93 ws r'
      else if c =? 40 then
        match ws with
        | [] => None
        | _ :: _ => bracket_group 41 ws r'
        end
      else None
  | [] => None
  end.

(** A text that does not end in whitespace, and one that does not start
    with it. *)
Definition ends_in_text (s : pystr) : Prop :=
  match last s with
  | Some c => is_space c = false
  | None => True
  end.

Definition starts_in_text (s : pystr) : Prop :=
  match s with
  | c :: _ => is_space c = false
  | [] => True
  end.

(** One round of [_spaces_with_delimeter_re]: whitespace, a delimiter,
    whitespace. *)
Definition delimiter_round : regex :=
  Cat (plus true (Class is_space))
    (Cat (Class is_delim) (plus false (Class is_space))).

(** ** Further sample entries *)

(** An entry without a citation, and one whose citation has no
    identifier. *)
Definition entry_without_citation : element := branch "PubmedArticle" [].

Definition citation_without_pmid : element :=
  branch "MedlineCitation" [branch "Article" []].

Definition entry_without_pmid : element :=
  branch "PubmedArticle" [citation_without_pmid].

(** A citation that is a review by one of its keywords only. *)
Definition keyword_citation : element :=
  branch "MedlineCitation"
    [leaf "PMID" "27182";
     branch "Article" [];
     branch "MeshHeadingList"
       [branch "MeshHeading" [leaf "DescriptorName" "Cannabis"]];
     branch "KeywordList" [leaf "Keyword" "Literature Review"]].

Definition keyword_article : element := branch "PubmedArticle" [keyword_citation].

(** An abstract segment with a subscript, a link, two characters that the
    serialiser escapes, and the line break and indentation after it. *)
Definition sample_segment : element :=
  Element (py "AbstractText") [(py "Label", py "RESULTS")] (py "CO")
    [Element (py "sub") [] (py "2") [] (py " rose & p < 0.05 ");
     Element (py "xref") [] (py "1") [] []]
    [10; 32; 32].

(** * Facts about strings and substitution *)

Section ListFacts.

Lemma span_app p s : fst (span p s) ++ snd (span p s) = s.
Proof.
  induction s as [|c s IH]; simpl; [reflexivity|].
  destruct (p c); [|reflexivity].
  destruct (span p s) as [a b]; simpl in *. by rewrite IH.
Qed.

Lemma span_fst_Forall p s : Forall (fun c => p c = true) (fst (span p s)).
Proof.
  induction s as [|c s IH]; simpl; [constructor|].
  destruct (p c) eqn:E; [|constructor].
  destruct (span p s) as [a b]; simpl in *. by constructor.
Qed.

Lemma span_snd_head p s c r : snd (span p s) = c :: r -> p c = false.
Proof.
  induction s as [|d s IH]; simpl; [discriminate|].
  destruct (p d) eqn:E.
  - destruct (span p s) as [a b]; simpl in *. exact IH.
  - simpl. by intros [= -> _].
Qed.

Lemma span_all p s : Forall (fun c => p c = true) s -> span p s = (s, []).
Proof.
  induction 1 as [|c s Hc _ IH]; simpl; [reflexivity|].
  by rewrite Hc, IH.
Qed.

Lemma forallb_Forall (p : N -> bool) s :
  forallb p s = true -> Forall (fun c => p c = true) s.
Proof.
  induction s as [|c s IH]; cbn [forallb]; [constructor|].
  intros [Hc Hs]%andb_prop. constructor; [done|by apply IH].
Qed.

Lemma span_length p s :
  (length (fst (span p s)) + length (snd (span p s)) = length s)%nat.
Proof. rewrite <- (span_app p s) at 3. by rewrite length_app. Qed.

(** Skipping [k] characters is substituting in what is left after them. *)
Lemma re_sub_from_skip m k s : re_sub_from m k s = re_sub m (drop k s).
Proof.
  revert k. induction s as [|c s IH]; intros [|k]; simpl; try reflexivity.
  apply IH.
Qed.

Lemma re_sub_cons m c s :
  re_sub m (c :: s) =
  match m (c :: s) with
  | Some (S n, r) => r ++ re_sub m (drop n s)
  | _ => c :: re_sub m s
  end.
Proof.
  unfold re_sub at 1. simpl.
  destruct (m (c :: s)) as [[[|n] r]|]; try reflexivity.
  by rewrite re_sub_from_skip.
Qed.

(** Where the pattern matches nowhere, nothing changes. *)
Lemma re_sub_id (Q : pystr -> Prop) m s :
  (forall c t, Q (c :: t) -> Q t) ->
  (forall t, Q t -> m t = None) ->
  Q s -> re_sub m s = s.
Proof.
  intros Htl Hm. induction s as [|c s IH]; intros HQ; [reflexivity|].
  rewrite re_sub_cons, (Hm _ HQ). f_equal. apply IH. by eapply Htl.
Qed.

(** Every character of the result is one of the text or of a replacement. *)
Lemma re_sub_from_Forall (P : N -> Prop) m k s :
  (forall t n r, m t = Some (n, r) -> Forall P r) ->
  Forall P s -> Forall P (re_sub_from m k s).
Proof.
  intros Hm. revert k. induction s as [|c s IH]; intros k Hs; simpl; [constructor|].
  apply Forall_cons in Hs as [Hc Hs].
  destruct k as [|k]; [|by apply IH].
  destruct (m (c :: s)) as [[[|n] r]|] eqn:E.
  - constructor; [done|by apply IH].
  - apply Forall_app; split; [by eapply Hm|by apply IH].
  - constructor; [done|by apply IH].
Qed.

Lemma lstrip_split s :
  exists ws, s = ws ++ lstrip s /\ Forall (fun c => is_space c = true) ws.
Proof.
  induction s as [|c s (ws & E & H)]; simpl.
  - by exists [].
  - destruct (is_space c) eqn:Ec.
    + exists (c :: ws). split; [simpl; congruence|by constructor].
    + by exists [].
Qed.

Lemma lstrip_head s c t : lstrip s = c :: t -> is_space c = false.
Proof.
  induction s as [|d s IH]; simpl; [discriminate|].
  destruct (is_space d) eqn:E; [exact IH|]. by intros [= -> _].
Qed.

Lemma lstrip_nonspace c s : is_space c = false -> lstrip (c :: s) = c :: s.
Proof. intros E. simpl. by rewrite E. Qed.

Lemma lstrip_idem s : lstrip (lstrip s) = lstrip s.
Proof.
  destruct (lstrip s) as [|c t] eqn:E; [reflexivity|].
  apply lstrip_nonspace. by eapply lstrip_head.
Qed.

Lemma lstrip_app_nonspace a c b :
  is_space c = false -> lstrip (a ++ c :: b) = lstrip a ++ c :: b.
Proof.
  intros Hc. induction a as [|d a IH]; simpl.
  - by rewrite Hc.
  - by destruct (is_space d).
Qed.

Lemma rstrip_split s :
  exists ws, s = rstrip s ++ ws /\ Forall (fun c => is_space c = true) ws.
Proof.
  destruct (lstrip_split (rev s)) as (ws & E & H).
  exists (rev ws). split; [|by apply Forall_rev].
  unfold rstrip. rewrite <- rev_app_distr, <- E. by rewrite rev_involutive.
Qed.

Lemma rstrip_cons_nonspace c s :
  is_space c = false -> rstrip (c :: s) = c :: rstrip s.
Proof.
  intros Hc. unfold rstrip. simpl.
  rewrite lstrip_app_nonspace by done.
  by rewrite rev_app_distr.
Qed.

Lemma strip_trimmed s : trimmed (strip s).
Proof.
  unfold trimmed, strip. split.
  - destruct (lstrip s) as [|c t] eqn:E; [reflexivity|].
    assert (is_space c = false) by (by eapply lstrip_head).
    rewrite rstrip_cons_nonspace by done. by apply lstrip_nonspace.
  - unfold rstrip. rewrite rev_involutive. apply lstrip_idem.
Qed.


Lemma strip_split s :
  exists a b, s = a ++ strip s ++ b.
Proof.
  destruct (lstrip_split s) as (a & E & _).
  destruct (rstrip_split (lstrip s)) as (b & E' & _).
  exists a, b. unfold strip. by rewrite <- E', <- E.
Qed.

End ListFacts.

(** * Facts about the matcher *)

Section Engine.
Context {A : Type}.
Implicit Types (k : @cont A) (r : regex) (s : pystr) (g : option pystr).

(** The matcher calls what follows on suffixes of the text only: where that
    fails on all of them, the match fails. *)
Lemma repeat_loop_none (body : pystr -> option pystr -> cont -> option A)
    greedy fuel :
  (forall s g k,
      (forall s' g', s' `suffix_of` s -> k s' g' = None) -> body s g k = None) ->
  forall s g k,
    (forall s' g', s' `suffix_of` s -> k s' g' = None) ->
    repeat_loop body greedy k fuel s g = None.
Proof.
  intros Hbody. induction fuel as [|fuel IH]; intros s g k Hk; cbn [repeat_loop].
  - by apply Hk.
  - rewrite (Hk s g) by done.
    rewrite Hbody; [by destruct greedy|].
    intros s' g' Hs'. case_match; [|reflexivity].
    apply IH. intros s'' g'' Hs''. apply Hk. by etrans.
Qed.

Lemma exec_none r : forall s g k,
  (forall s' g', s' `suffix_of` s -> k s' g' = None) -> exec r s g k = None.
Proof.
  induction r as [p|r1 IH1 r2 IH2|r1 IH1 r2 IH2|greedy r IH|p|r IH];
    intros s g k Hk; cbn [exec].
  - destruct s as [|c s']; [reflexivity|].
    destruct (p c); [|reflexivity]. apply Hk. by apply suffix_cons_r.
  - apply IH1. intros s' g' Hs'. apply IH2.
    intros s'' g'' Hs''. apply Hk. by etrans.
  - by rewrite IH1, IH2.
  - by apply repeat_loop_none.
  - destruct s as [|c s']; [reflexivity|].
    destruct (p c); [|reflexivity]. by apply Hk.
  - apply IH. intros s' g' Hs'. by apply Hk.
Qed.

(** A pattern that needs a character of [q] matches no text without one. *)
Lemma exec_needs (q : N -> Prop) r : needs q r ->
  forall s g k, Forall (fun c => ~ q c) s -> exec r s g k = None.
Proof.
  induction r as [p|r1 IH1 r2 IH2|r1 IH1 r2 IH2|greedy r IH|p|r IH];
    cbn [needs]; intros Hr s g k Hs; cbn [exec].
  - destruct s as [|c s']; [reflexivity|].
    apply Forall_cons in Hs as [Hc _].
    destruct (p c) eqn:E; [|reflexivity]. by destruct (Hc (Hr c E)).
  - destruct Hr as [Hr|Hr]; [by apply IH1|].
    apply exec_none. intros s' g' [pre ->]. apply IH2; [done|].
    by apply Forall_app in Hs as [_ Hs].
  - destruct Hr as [Hr1 Hr2]. by rewrite IH1, IH2.
  - done.
  - destruct s as [|c s']; [reflexivity|].
    apply Forall_cons in Hs as [Hc _].
    destruct (p c) eqn:E; [|reflexivity]. by destruct (Hc (Hr c E)).
  - by apply IH.
Qed.

(** The repetition of a class. *)
Lemma repeat_class_greedy p k fuel : forall s g,
  (length s <= fuel)%nat ->
  repeat_loop (exec (Class p)) true k fuel s g = greedy_run p (fun t => k t g) s.
Proof.
  induction fuel as [|fuel IH]; intros s g Hlen; cbn [repeat_loop exec].
  - destruct s; [reflexivity|simpl in Hlen; lia].
  - destruct s as [|c s']; [reflexivity|]. cbn [greedy_run].
    destruct (p c); [|reflexivity].
    replace (length s' <? length (c :: s'))%nat with true
      by (symmetry; apply Nat.ltb_lt; simpl; lia).
    rewrite IH by (simpl in Hlen; lia). reflexivity.
Qed.

Lemma greedy_run_total p (k : pystr -> option A) s :
  k (snd (span p s)) <> None -> greedy_run p k s = k (snd (span p s)).
Proof.
  induction s as [|c s IH]; cbn [greedy_run span]; [done|].
  destruct (p c); [|done].
  destruct (span p s) as [a b]. cbn [snd] in *. intros Hk.
  rewrite IH by done. by destruct (k b).
Qed.

Lemma greedy_run_reject p (k : pystr -> option A) s :
  (forall c t, p c = true -> k (c :: t) = None) ->
  greedy_run p k s = k (snd (span p s)).
Proof.
  intros Hk. induction s as [|c s IH]; cbn [greedy_run span]; [done|].
  destruct (p c) eqn:E; [|done].
  destruct (span p s) as [a b]. cbn [snd] in *.
  rewrite IH. destruct (k b); [done|]. by apply Hk.
Qed.

End Engine.

Lemma re_match_needs (q : N -> Prop) r s :
  needs q r -> Forall (fun c => ~ q c) s -> re_match r s = None.
Proof. intros Hr Hs. by apply (exec_needs q). Qed.

Lemma matcher_of_needs (q : N -> Prop) r repl s :
  needs q r -> Forall (fun c => ~ q c) s -> matcher_of r repl s = None.
Proof. intros Hr Hs. unfold matcher_of. by rewrite (re_match_needs q). Qed.

Lemma re_sub_ext m1 m2 s : (forall t, m1 t = m2 t) -> re_sub m1 s = re_sub m2 s.
Proof.
  intros H. unfold re_sub. generalize 0%nat.
  induction s as [|c s IH]; intros k; cbn [re_sub_from]; [done|].
  destruct k; [|apply IH]. rewrite H.
  destruct (m2 (c :: s)) as [[[|n] r]|]; by rewrite IH.
Qed.


Lemma pattern_sub_needs (q : N -> Prop) r repl s :
  needs q r -> Forall (fun c => ~ q c) s -> pattern_sub r repl s = s.
Proof.
  intros Hr Hs. apply (re_sub_id (Forall (fun c => ~ q c))); [| |done].
  - intros c t Hc. by apply Forall_cons in Hc as [_ Hc].
  - intros t Ht. by apply (matcher_of_needs q).
Qed.

Lemma empty_brackets_needs : needs (fun c => c = 91 \/ c = 40) _empty_brackets_re.
Proof.
  split.
  - right. left. intros c H. left. symmetry. by apply N.eqb_eq.
  - right. left. intros c H. right. symmetry. by apply N.eqb_eq.
Qed.

Lemma spaces_with_delimeter_needs :
  needs (fun c => is_delim c = true) _spaces_with_delimeter_re.
Proof. left. right. left. intros c H. exact H. Qed.

(** Folds the body of a repetition of the class [p] back. *)
Ltac fold_class_repeat p :=
  match goal with
  | |- context [repeat_loop _ ?gr ?k ?f ?t ?g] =>
      change (repeat_loop _ gr k f t g)
        with (repeat_loop (exec (Class p)) gr k f t g)
  end.

(** [_whitespaces_re] matches a whole run of two whitespaces or more. *)
Lemma whitespaces_matcher s :
  matcher_of _whitespaces_re (fun _ => [32]) s = match_whitespaces s.
Proof.
  unfold matcher_of, re_match, match_whitespaces, _whitespaces_re.
  cbn [exec].
  destruct s as [|c1 s1]; [reflexivity|]. cbn [span].
  destruct (is_space c1); [|reflexivity].
  destruct s1 as [|c2 s2]; [reflexivity|]. cbn [span].
  destruct (is_space c2); [|reflexivity].
  fold_class_repeat is_space.
  rewrite repeat_class_greedy by done.
  rewrite greedy_run_total by done.
  pose proof (span_app is_space s2) as Happ.
  destruct (span is_space s2) as [ws rest]. cbn [fst snd] in *.
  subst s2. cbn [length]. rewrite length_app.
  replace (S (S (length ws + length rest)) - length rest)%nat
    with (S (S (length ws))) by lia.
  reflexivity.
Qed.

Lemma sub_whitespaces s :
  pattern_sub _whitespaces_re (fun _ => [32]) s = re_sub match_whitespaces s.
Proof. apply re_sub_ext, whitespaces_matcher. Qed.


(** * The text normaliser *)

Section Whitespace.

Lemma single_spaced_cons c x :
  single_spaced x = true ->
  is_space c = false \/ match x with d :: _ => is_space d = false | [] => True end ->
  single_spaced (c :: x) = true.
Proof.
  intros Hx H. simpl. rewrite Hx, andb_true_r.
  destruct x as [|d t]; [reflexivity|].
  destruct H as [-> | ->]; [reflexivity|]. by rewrite andb_false_r.
Qed.


Lemma single_spaced_app a b :
  single_spaced (a ++ b) = true -> single_spaced a = true /\ single_spaced b = true.
Proof.
  induction a as [|c a IH]; simpl; [by split|].
  intros H. apply andb_prop in H as [H1 H2]. destruct (IH H2) as [Ha Hb].
  split; [|done]. rewrite Ha, andb_true_r.
  destruct a as [|d a]; [reflexivity|]. exact H1.
Qed.

Lemma match_whitespaces_nonspace c s :
  is_space c = false -> match_whitespaces (c :: s) = None.
Proof. intros H. unfold match_whitespaces. simpl. by rewrite H. Qed.


Lemma whitespaces_head c s :
  is_space c = false ->
  re_sub match_whitespaces (c :: s) = c :: re_sub match_whitespaces s.
Proof. intros H. by rewrite re_sub_cons, match_whitespaces_nonspace. Qed.

Lemma whitespaces_head_nonspace s :
  match s with d :: _ => is_space d = false | [] => True end ->
  match re_sub match_whitespaces s with
  | d :: _ => is_space d = false
  | [] => True
  end.
Proof. destruct s as [|d t]; [done|]. intros H. by rewrite whitespaces_head. Qed.

Lemma span_rest_nonspace s :
  match snd (span is_space s) with d :: _ => is_space d = false | [] => True end.
Proof.
  destruct (snd (span is_space s)) as [|d t] eqn:E; [done|].
  by eapply span_snd_head.
Qed.

Lemma match_whitespaces_Some s n r :
  match_whitespaces s = Some (n, r) ->
  r = [32] /\ (2 <= n)%nat /\ drop n s = snd (span is_space s).
Proof.
  unfold match_whitespaces.
  pose proof (span_app is_space s) as Happ.
  destruct (span is_space s) as [ws rest]. cbn [fst snd] in *.
  destruct (2 <=? length ws)%nat eqn:E2; [|discriminate].
  intros [= <- <-]. apply Nat.leb_le in E2.
  repeat split; [done|]. rewrite <- Happ. by rewrite drop_app_length.
Qed.

Lemma match_whitespaces_None c s :
  match_whitespaces (c :: s) = None -> is_space c = true ->
  match s with d :: _ => is_space d = false | [] => True end.
Proof.
  unfold match_whitespaces. simpl. intros H Hc. rewrite Hc in H.
  destruct s as [|d t]; [done|]. simpl in H.
  destruct (is_space d); [|done].
  destruct (span is_space t) as [a b]. simpl in H. discriminate.
Qed.

Lemma collapse_single_spaced_aux n : forall s,
  (length s <= n)%nat -> single_spaced (re_sub match_whitespaces s) = true.
Proof.
  induction n as [|n IH]; intros s Hl.
  { destruct s; [reflexivity|simpl in Hl; lia]. }
  destruct s as [|c s]; [reflexivity|]. simpl in Hl.
  rewrite re_sub_cons.
  destruct (match_whitespaces (c :: s)) as [[k r]|] eqn:Em.
  - apply match_whitespaces_Some in Em as (-> & Hk & Hdrop).
    destruct k as [|k]; [lia|]. change (drop (S k) (c :: s)) with (drop k s) in Hdrop.
    change ([32] ++ ?x) with (32 :: x).
    apply single_spaced_cons.
    + apply IH. rewrite length_drop. lia.
    + right. apply whitespaces_head_nonspace. rewrite Hdrop.
      apply span_rest_nonspace.
  - apply single_spaced_cons; [apply IH; lia|].
    destruct (is_space c) eqn:Ec; [right|by left].
    apply whitespaces_head_nonspace. by eapply match_whitespaces_None.
Qed.

(** After [_whitespaces_re.sub(' ', text)] no two whitespace characters
    are left next to each other. *)
Lemma collapse_single_spaced s : single_spaced (re_sub match_whitespaces s) = true.
Proof. by apply (collapse_single_spaced_aux (length s)). Qed.


Lemma strip_single_spaced s : single_spaced s = true -> single_spaced (strip s) = true.
Proof.
  intros H. destruct (strip_split s) as (a & b & E). rewrite E in H.
  apply single_spaced_app in H as [_ H]. by apply single_spaced_app in H as [H _].
Qed.

End Whitespace.

Section CleanFacts.
Context {env : PyEnv}.

Lemma charref_needs : needs (fun c => c = 38) charref_re.
Proof. left. intros c H. symmetry. by apply N.eqb_eq. Qed.

(** Without [&] there is no reference to decode. *)
Lemma decode_no_amp s :
  Forall (fun c => c <> 38) s -> _decode_unicode_references s = s.
Proof. apply pattern_sub_needs, charref_needs. Qed.

Lemma ordinary_not_delim c : ordinary_char c -> is_delim c = false.
Proof.
  intros (_ & _ & _ & H1 & H2 & H3). unfold is_delim.
  destruct (N.eqb_spec c 45); [done|].
  destruct (N.eqb_spec c 44); [done|]. by destruct (N.eqb_spec c 59).
Qed.

Lemma empty_brackets_id s :
  Forall ordinary_char s -> pattern_sub _empty_brackets_re (fun _ => []) s = s.
Proof.
  intros H. apply (pattern_sub_needs _ _ _ _ empty_brackets_needs).
  eapply Forall_impl; [exact H|]. intros c (_ & ? & ? & _) [?|?]; congruence.
Qed.

Lemma spaces_with_delimeter_id s :
  Forall ordinary_char s ->
  pattern_sub _spaces_with_delimeter_re (fun _ => [32]) s = s.
Proof.
  intros H. apply (pattern_sub_needs _ _ _ _ spaces_with_delimeter_needs).
  eapply Forall_impl; [exact H|]. intros c Hc. by rewrite (ordinary_not_delim c Hc).
Qed.

(** *** The parser on text without markup *)

Lemma tokenize_from_skip_all k s : (length s <= k)%nat -> tokenize_from k s = [].
Proof.
  revert k. induction s as [|c s IH]; intros k Hk; [reflexivity|].
  simpl in *. destruct k as [|k]; [lia|]. apply IH. lia.
Qed.

Lemma tokenize_plain c s :
  Forall plain_char (c :: s) -> tokenize (c :: s) = [TData (c :: s)].
Proof.
  intros H. unfold tokenize. cbn [tokenize_from].
  assert (token_at (c :: s) = (TData (c :: s), length (c :: s))) as ->.
  { unfold token_at.
    pose proof H as Hc. apply Forall_cons in Hc as [[Hc1 Hc2] _].
    destruct (N.eqb_spec c 60); [done|]. destruct (N.eqb_spec c 38); [done|].
    rewrite span_all; [reflexivity|].
    eapply Forall_impl; [exact H|]. intros d [Hd1 Hd2].
    destruct (N.eqb_spec d 60); [done|]. by destruct (N.eqb_spec d 38). }
  rewrite tokenize_from_skip_all; [reflexivity|simpl; lia].
Qed.

(** The text the tree gives back is the text that went in, as one string. *)
Lemma soup_text_plain s :
  Forall plain_char s ->
  get_text (replace_sub_sup (extract_links (html_parse s))) =
  match s with [] => [] | _ :: _ => data_string s [] end.
Proof.
  intros H. unfold html_parse. destruct s as [|c s]; [reflexivity|].
  rewrite tokenize_plain by done. cbn. by rewrite app_nil_r.
Qed.

Lemma is_ascii_space_space c : is_ascii_space c = true -> is_space c = true.
Proof.
  unfold is_ascii_space. intros H.
  repeat (apply orb_prop in H as [H | H]); apply N.eqb_eq in H; subst;
    reflexivity.
Qed.

Lemma space_not_special c :
  is_space c = true -> c <> 38 /\ c <> 91 /\ c <> 40 /\ is_delim c = false.
Proof.
  intros H.
  assert (forall x, is_space x = false -> c <> x) as Hx by (intros x Hx ->; congruence).
  assert (c <> 45 /\ c <> 44 /\ c <> 59) as (H1 & H2 & H3)
    by (repeat split; by apply Hx).
  repeat split; try by apply Hx.
  unfold is_delim.
  destruct (N.eqb_spec c 45); [done|].
  destruct (N.eqb_spec c 44); [done|]. by destruct (N.eqb_spec c 59).
Qed.

Lemma lstrip_all_space t : Forall (fun c => is_space c = true) t -> lstrip t = [].
Proof. induction 1 as [|c t Hc _ IH]; [done|]. cbn [lstrip]. by rewrite Hc. Qed.

(** Of whitespace alone the last four steps leave nothing. *)
Lemma clean_blank t : Forall (fun c => is_space c = true) t -> tidy t = [].
Proof.
  intros H. unfold tidy.
  rewrite (pattern_sub_needs _ _ _ t empty_brackets_needs).
  2:{ eapply Forall_impl; [exact H|]. intros c Hc.
      apply space_not_special in Hc as (_ & ? & ? & _). intros [?|?]; congruence. }
  rewrite (pattern_sub_needs _ _ _ t spaces_with_delimeter_needs).
  2:{ eapply Forall_impl; [exact H|]. intros c Hc.
      apply space_not_special in Hc as (_ & _ & _ & Hd). by rewrite Hd. }
  rewrite sub_whitespaces.
  unfold strip. rewrite lstrip_all_space; [reflexivity|].
  apply re_sub_from_Forall; [|exact H].
  intros u n r Hm. apply match_whitespaces_Some in Hm as [-> _].
  by apply Forall_singleton.
Qed.

Lemma clean_text_plain s :
  Forall plain_char s ->
  _clean_text s = tidy s.
Proof.
  intros H. unfold _clean_text. rewrite soup_text_plain by done.
  change (tidy (_decode_unicode_references
                  match s with [] => [] | _ :: _ => data_string s [] end) = tidy s).
  destruct s as [|c s]; [reflexivity|].
  unfold data_string. cbn [existsb negb]. rewrite andb_true_r.
  destruct (forallb is_ascii_space (c :: s)) eqn:E.
  - rewrite (clean_blank (c :: s)).
    + rewrite decode_no_amp.
      * apply clean_blank. case_match; apply Forall_singleton; reflexivity.
      * case_match; apply Forall_singleton; discriminate.
    + apply forallb_Forall in E.
      eapply Forall_impl; [exact E|]. apply is_ascii_space_space.
  - rewrite decode_no_amp; [reflexivity|].
    eapply Forall_impl; [exact H|]. by intros d [_ ?].
Qed.

Lemma clean_text_ordinary s :
  Forall ordinary_char s -> _clean_text s = strip (re_sub match_whitespaces s).
Proof.
  intros H. rewrite clean_text_plain.
  - unfold tidy.
    by rewrite empty_brackets_id, spaces_with_delimeter_id, sub_whitespaces.
  - eapply Forall_impl; [exact H|]. by intros c [? _].
Qed.



End CleanFacts.

(** * Decoding of numeric character references *)

Section Decode.
Context {env : PyEnv}.

Lemma callback_value ds : _callback ds = reference_value ds.
Proof.
  unfold _callback, reference_value, converts, py_int, py_chr.
  destruct py_int_max_str_digits as [m|]; cbn [bind andb].
  - destruct (Nat.ltb_spec m (length ds)), (Nat.leb_spec (length ds) m);
      try lia; cbn [bind andb]; [reflexivity|].
    destruct (digits_value ds <=? 1114111); [reflexivity|].
    by destruct (digits_value ds <=? 2147483647).
  - destruct (digits_value ds <=? 1114111); [reflexivity|].
    by destruct (digits_value ds <=? 2147483647).
Qed.

Lemma span_app_stop p a t :
  Forall (fun c => p c = true) a ->
  match t with c :: _ => p c = false | [] => True end ->
  span p (a ++ t) = (a, t).
Proof.
  intros Ha Ht. induction Ha as [|c a Hc _ IH]; simpl.
  - destruct t as [|c t]; [reflexivity|]. simpl. by rewrite Ht.
  - by rewrite Hc, IH.
Qed.

Lemma is_decimal_semicolon : is_decimal 59 = false.
Proof. unfold is_decimal. by rewrite py_decimal_ascii. Qed.

Lemma is_decimal_space w : is_space w = true -> is_decimal w = false.
Proof. intros H. unfold is_decimal. by rewrite py_decimal_space. Qed.

Lemma drop_after (a b : pystr) n : n = length a -> drop n (a ++ b) = b.
Proof. intros ->. apply drop_app_length. Qed.

Lemma match_charref_unfold s1 :
  match_charref (38 :: 35 :: s1) =
  let '(id, s2) := span is_decimal s1 in
  match id, s2 with
  | _ :: _, c :: _ =>
      if c =? 59 then Some (S (S (length id + 1)), _callback id)
      else if is_space c then Some (S (S (length id)), _callback id)
      else None
  | _, _ => None
  end.
Proof. reflexivity. Qed.

(** The pattern of the references matches [&#], the whole run of digits
    and a [;], or stops before a whitespace. *)
Lemma charref_matcher s :
  matcher_of charref_re (fun g => _callback (group1 g)) s = match_charref s.
Proof.
  destruct s as [|a [|b s1]]; [reflexivity| |].
  { unfold matcher_of, re_match, match_charref. cbn [exec charref_re strip_prefix].
    unfold chr_is. by destruct (38 =? a). }
  unfold matcher_of, re_match, charref_re, plus, chr_is.
  destruct (N.eqb_spec 38 a) as [<-|Ha].
  2:{ unfold match_charref. cbn [strip_prefix exec].
      by destruct (N.eqb_spec 38 a). }
  destruct (N.eqb_spec 35 b) as [<-|Hb].
  2:{ unfold match_charref. cbn [strip_prefix exec].
      rewrite N.eqb_refl. by destruct (N.eqb_spec 35 b). }
  rewrite match_charref_unfold. cbn [exec]. rewrite !N.eqb_refl.
  destruct s1 as [|d s2]; [reflexivity|]. cbn [span].
  destruct (is_decimal d) eqn:Hd; [|reflexivity].
  fold_class_repeat is_decimal.
  rewrite repeat_class_greedy by done.
  rewrite greedy_run_reject.
  2:{ intros c t Hc.
      destruct (N.eqb_spec 59 c) as [<-|_];
        [by rewrite is_decimal_semicolon in Hc|].
      destruct (is_space c) eqn:Hsp; [|reflexivity].
      by rewrite (is_decimal_space c Hsp) in Hc. }
  pose proof (span_app is_decimal s2) as Happ.
  destruct (span is_decimal s2) as [id rest]. cbn [fst snd] in *. subst s2.
  destruct rest as [|c rest]; [reflexivity|].
  rewrite (N.eqb_sym 59 c).
  replace (take (length (d :: id ++ c :: rest) - length (c :: rest))
             (d :: id ++ c :: rest)) with (d :: id)
    by (rewrite app_comm_cons, length_app, Nat.add_sub;
        symmetry; apply take_app_length).
  replace (length (38%N :: 35%N :: d :: id ++ c :: rest) - length rest)%nat
    with (S (S (length (d :: id) + 1)))
    by (cbn [length]; rewrite length_app; cbn [length]; lia).
  replace (length (38%N :: 35%N :: d :: id ++ c :: rest) - length (c :: rest))%nat
    with (S (S (length (d :: id))))
    by (cbn [length]; rewrite length_app; cbn [length]; lia).
  destruct (c =? 59); [reflexivity|]. by destruct (is_space c).
Qed.

Lemma decode_unfold s : _decode_unicode_references s = re_sub match_charref s.
Proof. apply re_sub_ext, charref_matcher. Qed.

(** The pattern matches at a reference, and takes exactly the reference. *)
Lemma reference_match s ds rest :
  reference s ds rest ->
  exists n, match_charref s = Some (S n, _callback ds) /\ drop (S n) s = rest.
Proof.
  intros [ds' rest' Hne Hds | ds' w rest' Hne Hds Hw]; rewrite match_charref_unfold.
  - rewrite span_app_stop; [|done|apply is_decimal_semicolon].
    exists (S (length ds' + 1)). split.
    + destruct ds'; [done|]. reflexivity.
    + replace (38 :: 35 :: ds' ++ 59 :: rest')
        with ((38 :: 35 :: ds' ++ [59]) ++ rest')
        by (simpl; by rewrite <- app_assoc).
      apply drop_after. simpl. by rewrite length_app.
  - rewrite span_app_stop; [|done|by apply is_decimal_space].
    exists (S (length ds')). split.
    + destruct ds'; [done|].
      destruct (N.eqb_spec w 59) as [->|_]; [discriminate Hw|]. by rewrite Hw.
    + by apply (drop_after (38 :: 35 :: ds') (w :: rest')).
Qed.

Lemma match_reference s n r :
  match_charref s = Some (n, r) ->
  exists ds rest k,
    n = S k /\ reference s ds rest /\ r = _callback ds /\ drop n s = rest.
Proof.
  destruct s as [|a [|b s1]]; [discriminate| |].
  { unfold match_charref. cbn [strip_prefix]. by destruct (38 =? a). }
  destruct (N.eqb_spec 38 a) as [<-|Ha].
  2:{ unfold match_charref. cbn [strip_prefix].
      by destruct (N.eqb_spec 38 a). }
  destruct (N.eqb_spec 35 b) as [<-|Hb].
  2:{ unfold match_charref. cbn [strip_prefix].
      rewrite N.eqb_refl. by destruct (N.eqb_spec 35 b). }
  rewrite match_charref_unfold.
  pose proof (span_app is_decimal s1) as Happ.
  pose proof (span_fst_Forall is_decimal s1) as Hds.
  destruct (span is_decimal s1) as [id s2]. cbn [fst snd] in *.
  destruct id as [|d id]; [discriminate|].
  destruct s2 as [|c s2]; [discriminate|].
  destruct (N.eqb_spec c 59) as [->|_].
  - intros [= <- <-]. exists (d :: id), s2, (S (length (d :: id) + 1)).
    rewrite <- Happ. repeat split; [by constructor|].
    replace (38 :: 35 :: (d :: id) ++ 59 :: s2)
      with ((38 :: 35 :: (d :: id) ++ [59]) ++ s2)
      by (simpl; by rewrite <- app_assoc).
    apply drop_after. simpl. by rewrite length_app.
  - destruct (is_space c) eqn:Hc; [|discriminate].
    intros [= <- <-]. exists (d :: id), (c :: s2), (S (length (d :: id))).
    rewrite <- Happ. repeat split; [by constructor|].
    by apply (drop_after (38 :: 35 :: d :: id) (c :: s2)).
Qed.

Lemma decoded_decode_aux n : forall s,
  (length s <= n)%nat -> decoded s (re_sub match_charref s).
Proof.
  induction n as [|n IH]; intros s Hl.
  { destruct s; [constructor|simpl in Hl; lia]. }
  destruct s as [|c s]; [constructor|]. simpl in Hl.
  rewrite re_sub_cons.
  destruct (match_charref (c :: s)) as [[k r]|] eqn:Em.
  - destruct (match_reference _ _ _ Em) as (ds & rest & k' & -> & Href & -> & Hdrop).
    rewrite callback_value. cbn [drop] in Hdrop. rewrite Hdrop.
    apply (decoded_reference _ ds rest); [done|]. apply IH.
    rewrite <- Hdrop, length_drop. lia.
  - apply decoded_char; [|apply IH; lia].
    intros ds rest Href. apply reference_match in Href as (k & Hk & _). congruence.
Qed.

Lemma decoded_functional s out :
  decoded s out -> out = _decode_unicode_references s.
Proof.
  rewrite decode_unfold.
  induction 1 as [|s ds rest out Href _ IH|c s out Hno _ IH]; [reflexivity| |].
  - apply reference_match in Href as (k & Hk & Hdrop).
    destruct s as [|c s]; [discriminate|].
    rewrite re_sub_cons, Hk, callback_value. cbn [drop] in Hdrop.
    by rewrite Hdrop, IH.
  - rewrite re_sub_cons.
    destruct (match_charref (c :: s)) as [[k r]|] eqn:Em; [|by rewrite IH].
    destruct (match_reference _ _ _ Em) as (ds & rest & _ & _ & Href & _).
    by destruct (Hno ds rest).
Qed.

End Decode.

(** * ASCII text: the tables play no part *)

Section AsciiLower.
Context {env : PyEnv}.

Lemma lower_from_ascii before s :
  Forall (fun c => c < 128) s -> lower_from before s = List.map ascii_lower s.
Proof.
  intros H. revert before.
  induction H as [|c s Hc _ IH]; intros before; [reflexivity|].
  cbn [lower_from List.map].
  destruct (N.eqb_spec c 931); [lia|].
  rewrite py_tolower_ascii by done. cbn [app]. f_equal. apply IH.
Qed.

Lemma lower_ascii s :
  Forall (fun c => c < 128) s -> lower s = List.map ascii_lower s.
Proof. apply lower_from_ascii. Qed.

End AsciiLower.

Section AsciiMarkup.
Context {env : PyEnv}.

Lemma tag_name_basic body :
  Forall (fun c => c < 128) body ->
  @tag_name env body = @tag_name basic_env body.
Proof.
  intros H. unfold tag_name.
  assert (Forall (fun c => c < 128) (fst (span is_tag_name_char body))) as Hf.
  { rewrite <- (span_app is_tag_name_char body) in H.
    by apply Forall_app in H as [H _]. }
  by rewrite (@lower_ascii env), (@lower_ascii basic_env).
Qed.

Lemma markup_token_basic s1 :
  Forall (fun c => c < 128) s1 ->
  @markup_token env s1 = @markup_token basic_env s1.
Proof.
  intros H. unfold markup_token.
  pose proof (span_app (fun c => negb (c =? 62)) s1) as Happ.
  destruct (span (fun c => negb (c =? 62)) s1) as [body rest].
  cbn [fst snd] in Happ.
  destruct (strip_prefix [33; 45; 45] s1); [reflexivity|].
  destruct s1 as [|c s2]; [reflexivity|].
  destruct rest as [|r rest]; [reflexivity|].
  rewrite (tag_name_basic body), (tag_name_basic s2); [reflexivity| |].
  - by apply Forall_cons in H as [_ H].
  - rewrite <- Happ in H. by apply Forall_app in H as [H _].
Qed.

Lemma token_at_basic s :
  Forall ascii_markup_char s -> @token_at env s = @token_at basic_env s.
Proof.
  intros H. destruct s as [|c0 s1]; [reflexivity|].
  apply Forall_cons in H as [[_ Hc] H]. unfold token_at.
  destruct (c0 =? 60).
  - apply markup_token_basic.
    eapply Forall_impl; [exact H|]. by intros c [? _].
  - by destruct (N.eqb_spec c0 38).
Qed.

Lemma tokenize_from_basic k s :
  Forall ascii_markup_char s ->
  @tokenize_from env k s = @tokenize_from basic_env k s.
Proof.
  intros H. revert k.
  induction s as [|c s IH]; intros k; [reflexivity|].
  cbn [tokenize_from]. destruct k as [|k].
  - rewrite token_at_basic by done.
    destruct (@token_at basic_env (c :: s)) as [tok n].
    f_equal. apply IH. by apply Forall_cons in H as [_ H].
  - apply IH. by apply Forall_cons in H as [_ H].
Qed.

Lemma html_parse_basic s :
  Forall ascii_markup_char s -> @html_parse env s = @html_parse basic_env s.
Proof.
  intros H. unfold html_parse, tokenize. by rewrite tokenize_from_basic.
Qed.

End AsciiMarkup.

(** * Properties of the text normaliser *)

Ltac solve_chars :=
  vm_compute;
  repeat (first [ apply Forall_nil_2
                | apply Forall_cons; split; [try split; first [reflexivity | discriminate | lia]|] ]).

(** C2, as the code has it: cleaning the example segment strips the [<i>]
    tag, turns the superscript into [-2] and trims; the bracket group
    [[12]] has digits in it and stays, so the result is
    ["Background: values were -2elevated [12]."], whatever the tables of
    the interpreter. *)
Theorem clean_text_example_segment {env : PyEnv} :
  _clean_text example_segment = py "Background: values were -2elevated [12].".
Proof.
  unfold _clean_text.
  rewrite html_parse_basic by solve_chars.
  assert (get_text (replace_sub_sup (extract_links
            (@html_parse basic_env example_segment)))
          = py "Background: values were -2elevated [12].") as ->
    by (vm_compute; reflexivity).
  rewrite decode_no_amp by solve_chars.
  vm_compute. reflexivity.
Qed.

(** C2, as the spec states it, fails: the result is not
    ["Background: values were -2elevated."]. *)
Lemma example_segment_keeps_citation :
  @_clean_text basic_env example_segment
  <> py "Background: values were -2elevated.".
Proof. vm_compute. discriminate. Qed.



(** Of two separators in a row the first pass removes one and the second
    pass the other, whatever the tables of the interpreter. *)
Lemma clean_text_two_passes {env : PyEnv} :
  _clean_text (py "a - - b") = py "a - b" /\ _clean_text (py "a - b") = py "a b".
Proof.
  split; (rewrite clean_text_plain; [vm_compute; reflexivity|]); vm_compute;
    repeat (first [ apply Forall_nil_2
                  | apply Forall_cons; split; [split; discriminate|] ]).
Qed.

(** So it is with brackets: the group that is removed leaves the group
    around it empty. *)
Example clean_text_nested_brackets :
  @_clean_text basic_env (py "a [ [] ] b") = py "a [ ] b"
  /\ @_clean_text basic_env (py "a [ ] b") = py "a b".
Proof. split; vm_compute; reflexivity. Qed.

(** And with markup: an escaped tag is text after the first pass and a tag
    to the second. *)
Example clean_text_escaped_tag :
  @_clean_text basic_env (py "&lt;b&gt;x") = py "<b>x"
  /\ @_clean_text basic_env (py "<b>x") = py "x".
Proof. split; vm_compute; reflexivity. Qed.






(** The escaped ampersand of a serialised text comes back as [&], and a
    reference without [;] or whitespace behind it is not decoded. *)
Example clean_text_reference_left :
  @_clean_text basic_env (py "&amp;#65") = py "&#65".
Proof. vm_compute. reflexivity. Qed.

(** A reference with [;], one before a space, one whose number is no code
    point, and one with neither [;] nor whitespace behind it. *)
Example decode_unicode_references_examples :
  @_decode_unicode_references basic_env (py "&#65; &#66 &#9999999; &#67")
  = py "A B 9999999 &#67".
Proof. vm_compute. reflexivity. Qed.


(** * The record extractor *)

Section Extractor.
Context {env : PyEnv}.

(** What is known of an entry that yields a record. *)
Lemma extract_Some pubmed_article_el r :
  _get_abstract_data_from_xml_el pubmed_article_el = Ok (Some r) ->
  exists mc pmid_el article_el date journal_title_el dc dr da,
    find (py "MedlineCitation") pubmed_article_el = Some mc
    /\ find (py "PMID") mc = Some pmid_el
    /\ _is_review mc = Ok false
    /\ find (py "Article") mc = Some article_el
    /\ article_date article_el = Ok date
    /\ find_path journal_title_path article_el = Some journal_title_el
    /\ (is_Some (gated_record pmid_el article_el date journal_title_el !! "title")
        \/ is_Some (gated_record pmid_el article_el date journal_title_el
                    !! "abstract_texts"))
    /\ _is_review_in_text
         (review_text (gated_record pmid_el article_el date journal_title_el)) = false
    /\ _get_date mc (py "DateCompleted") = Ok dc
    /\ _get_date mc (py "DateRevised") = Ok dr
    /\ _get_date article_el (py "ArticleDate") = Ok da
    /\ r = final_record (gated_record pmid_el article_el date journal_title_el)
             article_el dc dr da.
Proof.
  unfold _get_abstract_data_from_xml_el. intros H. cbv zeta in H.
  destruct (find (py "MedlineCitation") pubmed_article_el) as [mc|] eqn:Emc;
    [|discriminate].
  cbn [deref bind] in H.
  destruct (find (py "PMID") mc) as [pmid_el|] eqn:Epmid; [|discriminate].
  destruct (_is_review mc) as [[|]|] eqn:Erev; cbn [bind] in H; try discriminate.
  destruct (find (py "Article") mc) as [article_el|] eqn:Eart;
    cbn [deref bind] in H; [|discriminate].
  destruct (article_date article_el) as [date|] eqn:Edate;
    cbn [bind] in H; [|discriminate].
  destruct (find_path journal_title_path article_el) as [jt|] eqn:Ejt;
    cbn [deref bind] in H; [|discriminate].
  assert (forall d : gmap string pyval,
    match find (py "ArticleTitle") article_el with
    | Some article_title_el =>
        match _clean_text (tostring article_title_el) with
        | [] => d
        | c :: t => <["title" := VStr (c :: t)]> d
        end
    | None => d
    end = with_title (cleaned_title article_el) d) as Htitle.
  { intros d. unfold cleaned_title, with_title.
    destruct (find (py "ArticleTitle") article_el) as [te|]; [|done].
    by destruct (_clean_text (tostring te)). }
  rewrite Htitle in H. clear Htitle.
  change (match _get_texts article_el with
          | [] => ?d
          | _ :: _ => <["abstract_texts" := VTexts (_get_texts article_el)]> ?d
          end) with (with_abstract_texts (_get_texts article_el) d) in H.
  fold (gated_record pmid_el article_el date jt) in H.
  set (g := gated_record pmid_el article_el date jt) in *.
  destruct (negb _) eqn:Egate; [discriminate|].
  destruct (_is_review_in_text (review_text g)) eqn:Ephrase; [discriminate|].
  destruct (_get_authors article_el) as [authors collective_name] eqn:Eauth.
  destruct (_get_date mc (py "DateCompleted")) as [dc|] eqn:Edc;
    cbn [bind] in H; [|discriminate].
  destruct (_get_date mc (py "DateRevised")) as [dr|] eqn:Edr;
    cbn [bind] in H; [|discriminate].
  destruct (_get_date article_el (py "ArticleDate")) as [da|] eqn:Eda;
    cbn [bind] in H; [|discriminate].
  injection H as <-.
  exists mc, pmid_el, article_el, date, jt, dc, dr, da.
  repeat split; try done.
  - apply negb_false_iff, orb_true_iff in Egate as [E | E];
      apply bool_decide_eq_true in E; [by left|by right].
  - unfold final_record. by rewrite Eauth.
Qed.

End Extractor.

Section RecordFacts.
Context {env : PyEnv}.

Ltac lookup_record :=
  unfold final_record, gated_record, with_title, with_abstract_texts,
    with_authors, with_collective_name;
  repeat case_match; simplify_map_eq; try done.

Lemma gated_pmid pmid_el a date jt :
  gated_record pmid_el a date jt !! "pmid" = Some (of_opt (el_text pmid_el)).
Proof. lookup_record. Qed.


Lemma gated_title pmid_el a date jt :
  gated_record pmid_el a date jt !! "title" =
  match cleaned_title a with [] => None | t => Some (VStr t) end.
Proof. lookup_record. Qed.

Lemma gated_abstract_texts pmid_el a date jt :
  gated_record pmid_el a date jt !! "abstract_texts" =
  match _get_texts a with [] => None | ts => Some (VTexts ts) end.
Proof. lookup_record. Qed.

(** The last stage sets five keys and leaves the others. *)
Lemma final_other g a dc dr da (k : string) :
  k <> "authors"%string -> k <> "collective_name"%string ->
  k <> "date_completed"%string -> k <> "date_revised"%string ->
  k <> "date_article"%string ->
  final_record g a dc dr da !! k = g !! k.
Proof. intros. lookup_record. Qed.

Lemma gated_no_people pmid_el a date jt :
  gated_record pmid_el a date jt !! "authors" = None
  /\ gated_record pmid_el a date jt !! "collective_name" = None.
Proof. split; lookup_record. Qed.

Lemma final_dates g a dc dr da :
  final_record g a dc dr da !! "date_completed" = Some (of_date dc)
  /\ final_record g a dc dr da !! "date_revised" = Some (of_date dr)
  /\ final_record g a dc dr da !! "date_article" = Some (of_date da).
Proof. repeat split; lookup_record. Qed.

Lemma final_authors g a dc dr da :
  g !! "authors" = None ->
  final_record g a dc dr da !! "authors" =
  match (_get_authors a).1 with [] => None | l => Some (VAuthors l) end.
Proof. intros. lookup_record. Qed.

Lemma final_collective_name g a dc dr da :
  g !! "collective_name" = None ->
  final_record g a dc dr da !! "collective_name" =
  match (_get_authors a).2 with None => None | Some s => Some (VStr s) end.
Proof. intros. lookup_record. Qed.


(** Every record the generator yields is the record of one of the entries. *)
Lemma parse_articles_yields els r :
  r ∈ (parse_articles els).1 ->
  exists el, el ∈ els /\ _get_abstract_data_from_xml_el el = Ok (Some r).
Proof.
  induction els as [|el els IH]; simpl; [by intros ?%elem_of_nil|].
  destruct (_get_abstract_data_from_xml_el el) as [[d|]|e] eqn:E.
  - destruct (parse_articles els) as [yielded e']. simpl in *.
    intros [->|Hin]%elem_of_cons.
    + exists el. split; [by left|done].
    + destruct (IH Hin) as (el' & ? & ?). exists el'. split; [by right|done].
  - intros Hin. destruct (IH Hin) as (el' & ? & ?). exists el'.
    split; [by right|done].
  - by intros ?%elem_of_nil.
Qed.



End RecordFacts.

(** * Properties of the records *)



(** C3, as amended: [_get_date] returns [None] when the container is
    absent; when the container is there and its [Year], [Month] or [Day] is
    not, it raises [AttributeError]. *)
Theorem get_date_absent {env : PyEnv} (el : element) (key : pystr) :
  find key el = None
  \/ (exists date_el, find key el = Some date_el
        /\ (find (py "Year") date_el = None
            \/ find (py "Month") date_el = None
            \/ find (py "Day") date_el = None)) ->
  _get_date el key =
  match find key el with
  | None => Ok None
  | Some _ => Err AttributeError
  end.
Proof.
  unfold _get_date. intros [-> | (date_el & -> & H)]; [reflexivity|].
  destruct (find (py "Year") date_el); [|reflexivity]. cbn [deref bind].
  destruct (find (py "Month") date_el); [|reflexivity]. cbn [deref bind].
  destruct (find (py "Day") date_el); [|reflexivity].
  by destruct H as [H | [H | H]].
Qed.

Lemma get_date_absent_witness :
  (find (py "DateCompleted") citation_without_day = None
   \/ (exists date_el, find (py "DateCompleted") citation_without_day = Some date_el
         /\ (find (py "Year") date_el = None
             \/ find (py "Month") date_el = None
             \/ find (py "Day") date_el = None)))
  /\ @_get_date basic_env citation_without_day (py "DateCompleted") =
     match find (py "DateCompleted") citation_without_day with
     | None => Ok None
     | Some _ => Err AttributeError
     end.
Proof.
  assert (find (py "DateCompleted") citation_without_day = None
    \/ (exists date_el, find (py "DateCompleted") citation_without_day = Some date_el
         /\ (find (py "Year") date_el = None
             \/ find (py "Month") date_el = None
             \/ find (py "Day") date_el = None))) as H.
  { right. eexists. split; [vm_compute; reflexivity|].
    right. right. vm_compute. reflexivity. }
  split; [exact H|]. exact (get_date_absent _ _ H).
Defined.

(** C3, as the spec states it, fails: a completion date without [Day] is
    an error, not "no date". *)
Lemma get_date_missing_day_raises :
  (exists date_el,
      find (py "DateCompleted") citation_without_day = Some date_el
      /\ find (py "Day") date_el = None)
  /\ @_get_date basic_env citation_without_day (py "DateCompleted")
     = Err AttributeError
  /\ @_get_date basic_env citation_without_day (py "DateCompleted") <> Ok None.
Proof.
  split; [|split].
  - eexists. split; vm_compute; reflexivity.
  - vm_compute. reflexivity.
  - vm_compute. discriminate.
Qed.

Section Gates.
Context {env : PyEnv}.

(** An entry that is discarded leaves the rest of the batch as it is. *)
Lemma parse_articles_discard before el after :
  _get_abstract_data_from_xml_el el = Ok None ->
  parse_articles (before ++ el :: after) = parse_articles (before ++ after).
Proof.
  intros H. induction before as [|b before IH]; cbn [app parse_articles].
  - by rewrite H.
  - by rewrite IH.
Qed.

Lemma get_date_None el key :
  _get_date el key = Ok None <-> find key el = None.
Proof.
  unfold _get_date. destruct (find key el) as [date_el|]; [|done].
  split; [|discriminate].
  destruct (find (py "Year") date_el); [|discriminate]. cbn [deref bind].
  destruct (find (py "Month") date_el); [|discriminate]. cbn [deref bind].
  destruct (find (py "Day") date_el); [|discriminate]. cbn [deref bind].
  by destruct (strptime_ymd _).
Qed.

End Gates.

(** C6: an entry with a publication type that has "review" in it yields
    no record: the extractor discards it and the generator goes on with the
    entries after it, whatever its title and abstract are. *)
Theorem review_type_discarded {env : PyEnv} (pubmed_article_el mc : element) :
  find (py "MedlineCitation") pubmed_article_el = Some mc ->
  has_review_type mc ->
  _get_abstract_data_from_xml_el pubmed_article_el = Ok None
  /\ forall before after,
       parse_articles (before ++ pubmed_article_el :: after)
       = parse_articles (before ++ after).
Proof.
  intros Hmc (a & l & pt & t & Ha & Hl & Hpt & Ht & Hrev).
  assert (_is_review mc = Ok true) as Hreview.
  { unfold _is_review. rewrite Ha. cbn [deref bind]. rewrite Hl.
    assert (existsb text_has_review (findall (py "PublicationType") l) = true)
      as ->; [|reflexivity].
    apply existsb_exists. exists pt. split; [by apply list_elem_of_In|].
    unfold text_has_review. by rewrite Ht. }
  assert (_get_abstract_data_from_xml_el pubmed_article_el = Ok None) as H.
  { unfold _get_abstract_data_from_xml_el. rewrite Hmc. cbn [deref bind].
    destruct (find (py "PMID") mc); [|reflexivity].
    by rewrite Hreview. }
  split; [exact H|]. intros before after. by apply parse_articles_discard.
Qed.

Lemma review_type_discarded_witness :
  find (py "MedlineCitation") (sample_article both_dates "Review" "Sleep improved.")
  = Some (sample_citation both_dates "Review" "Sleep improved.")
  /\ @has_review_type basic_env (sample_citation both_dates "Review" "Sleep improved.")
  /\ @_get_abstract_data_from_xml_el basic_env
       (sample_article both_dates "Review" "Sleep improved.") = Ok None
  /\ forall before after,
       @parse_articles basic_env
         (before ++ sample_article both_dates "Review" "Sleep improved." :: after)
       = @parse_articles basic_env (before ++ after).
Proof.
  assert (find (py "MedlineCitation")
            (sample_article both_dates "Review" "Sleep improved.")
          = Some (sample_citation both_dates "Review" "Sleep improved.")) as H1
    by (vm_compute; reflexivity).
  assert (@has_review_type basic_env
            (sample_citation both_dates "Review" "Sleep improved.")) as H2.
  { eexists _, _, (leaf "PublicationType" "Review"), _.
    split; [vm_compute; reflexivity|]. split; [vm_compute; reflexivity|].
    split; [vm_compute; by left|]. split; vm_compute; reflexivity. }
  split; [exact H1|]. split; [exact H2|].
  exact (review_type_discarded _ _ H1 H2).
Defined.



(** The publication date falls back on the [MedlineDate], and an entry
    with neither raises. *)
Example date_from_medline_date :
  match @_get_abstract_data_from_xml_el basic_env
          (sample_article [leaf "MedlineDate" "2018 Jan-Feb"] "Journal Article"
             "Sleep improved.") with
  | Ok (Some r) => r !! "date"
  | _ => None
  end = Some (VStr (py "2018")).
Proof. vm_compute. reflexivity. Qed.

Example date_missing_raises :
  @_get_abstract_data_from_xml_el basic_env
    (sample_article [] "Journal Article" "Sleep improved.") = Err AttributeError.
Proof. vm_compute. reflexivity. Qed.

(** C10: a record has the keys [date_completed], [date_revised] and
    [date_article], each [None] where its date was not there to extract;
    [title], [abstract_texts], [authors] and [collective_name] are keys of
    the record only when they have a value that is not empty. *)
Theorem record_optional_fields {env : PyEnv} (pubmed_article_el : element)
    (r : gmap string pyval) :
  _get_abstract_data_from_xml_el pubmed_article_el = Ok (Some r) ->
  exists mc article_el,
    find (py "MedlineCitation") pubmed_article_el = Some mc
    /\ find (py "Article") mc = Some article_el
    /\ record_fields mc article_el r.
Proof.
  intros Hr. apply extract_Some in Hr
    as (mc & pmid_el & a & date & jt & dc & dr & da & Hmc & Hpmid & Hrev & Ha
        & Hdate & Hjt & Hgate & Hphrase & Hdc & Hdr & Hda & ->).
  exists mc, a. split; [exact Hmc|]. split; [exact Ha|].
  destruct (gated_no_people pmid_el a date jt) as [Hna Hnc].
  destruct (final_dates (gated_record pmid_el a date jt) a dc dr da)
    as (H1 & H2 & H3).
  unfold record_fields. split.
  - exists dc, dr, da.
    split; [exact H1|]. split; [exact H2|]. split; [exact H3|].
    split; [|split].
    + rewrite <- get_date_None, Hdc. split; congruence.
    + rewrite <- get_date_None, Hdr. split; congruence.
    + rewrite <- get_date_None, Hda. split; congruence.
  - split. { rewrite final_other by discriminate. apply gated_title. }
    split. { rewrite final_other by discriminate. apply gated_abstract_texts. }
    split; [by apply final_authors|by apply final_collective_name].
Qed.

Lemma record_optional_fields_witness :
  @_get_abstract_data_from_xml_el basic_env
    (sample_article both_dates "Journal Article" "Sleep improved.")
  = Ok (Some sample_record)
  /\ (exists mc article_el,
        find (py "MedlineCitation")
          (sample_article both_dates "Journal Article" "Sleep improved.") = Some mc
        /\ find (py "Article") mc = Some article_el
        /\ @record_fields basic_env mc article_el sample_record)
  /\ sample_record !! "date_revised" = Some VNone
  /\ sample_record !! "collective_name" = None.
Proof.
  assert (@_get_abstract_data_from_xml_el basic_env
            (sample_article both_dates "Journal Article" "Sleep improved.")
          = Ok (Some sample_record)) as H by (vm_compute; reflexivity).
  split; [exact H|]. split; [exact (record_optional_fields _ _ H)|].
  split; vm_compute; reflexivity.
Defined.
(** * The phrase classifier on the text of a record *)

Section Infix.

Lemma starts_with_spec p s : starts_with p s = true <-> exists b, s = p ++ b.
Proof.
  revert s. induction p as [|a p IH]; intros s; cbn [starts_with].
  - split; [by exists s|done].
  - destruct s as [|b s].
    + split; [discriminate|]. by intros [? [=]].
    + rewrite andb_true_iff, IH, N.eqb_eq. split.
      * intros [-> [t ->]]. by exists t.
      * intros [t [= -> ->]]. split; [done|by exists t].
Qed.

Lemma contains_spec p s : contains p s = true <-> infix p s.
Proof.
  induction s as [|c s IH]; cbn [contains]; rewrite orb_true_iff, starts_with_spec.
  - split.
    + intros [[b Hb]|]; [|discriminate]. by exists [], b.
    + intros ([|? ?] & b & E); [|discriminate]. left. by exists b.
  - rewrite IH. split.
    + intros [[b Hb] | (a & b & ->)]; [by exists [], b|by exists (c :: a), b].
    + intros ([|c' a] & b & E); [left; by exists b|].
      right. injection E as -> ->. by exists a, b.
Qed.

Lemma infix_refl s : infix s s.
Proof. exists [], []. by rewrite app_nil_r. Qed.

Lemma infix_trans p q s : infix p q -> infix q s -> infix p s.
Proof.
  intros (a & b & ->) (a' & b' & ->). exists (a' ++ a), (b ++ b').
  by rewrite <- !app_assoc.
Qed.

Lemma infix_app p a s b : infix p s -> infix p (a ++ s ++ b).
Proof. intros H. eapply infix_trans; [exact H|]. by exists a, b. Qed.

Lemma infix_app_r p a s : infix p s -> infix p (a ++ s).
Proof.
  intros H. eapply infix_trans; [exact H|]. exists a, []. by rewrite app_nil_r.
Qed.

Lemma infix_app_l p s b : infix p s -> infix p (s ++ b).
Proof. intros H. eapply infix_trans; [exact H|]. by exists [], b. Qed.

Lemma infix_cons p c s : infix p s -> infix p (c :: s).
Proof. apply (infix_app_r p [c]). Qed.

Lemma infix_flat_map (f : N -> pystr) u v :
  infix u v -> infix (flat_map f u) (flat_map f v).
Proof.
  intros (a & b & ->). exists (flat_map f a), (flat_map f b).
  by rewrite !flat_map_app.
Qed.

Lemma flat_map_flat_map (f h : N -> pystr) t :
  flat_map f (flat_map h t) = flat_map (fun c => flat_map f (h c)) t.
Proof.
  induction t as [|c t IH]; [done|]. cbn [flat_map].
  by rewrite flat_map_app, IH.
Qed.

Lemma infix_nil_inv p : infix p [] -> p = [].
Proof.
  intros (a & b & E). symmetry in E.
  apply app_eq_nil in E as [_ E]. by apply app_eq_nil in E as [E _].
Qed.

Lemma fold_sigma_phrase c : phrase_char c -> fold_sigma c = c.
Proof.
  intros H. unfold fold_sigma. destruct (N.eqb_spec c 962); [|done].
  unfold phrase_char in H. lia.
Qed.

Lemma fold_sigma_inv x c : phrase_char c -> fold_sigma x = c -> x = c.
Proof.
  unfold fold_sigma, phrase_char. destruct (N.eqb_spec x 962); [lia|done].
Qed.

Lemma map_fold_sigma_phrase p : Forall phrase_char p -> List.map fold_sigma p = p.
Proof.
  induction 1 as [|c p Hc _ IH]; [done|]. cbn [List.map].
  by rewrite fold_sigma_phrase, IH.
Qed.

Lemma map_fold_sigma_inv p l :
  Forall phrase_char p -> List.map fold_sigma l = p -> l = p.
Proof.
  intros H. revert l. induction H as [|c p Hc _ IH]; intros [|x l]; try done.
  cbn [List.map]. intros [= E1 E2]. f_equal; [by eapply fold_sigma_inv|by apply IH].
Qed.

(** A phrase occurs in a text exactly when it occurs in the text with its
    sigmas folded. *)
Lemma infix_fold_sigma p l :
  Forall phrase_char p -> infix p l <-> infix p (List.map fold_sigma l).
Proof.
  intros Hp. split.
  - intros (a & b & ->). exists (List.map fold_sigma a), (List.map fold_sigma b).
    by rewrite !List.map_app, (map_fold_sigma_phrase p).
  - intros (a & b & E).
    apply List.map_eq_app in E as (a' & r & -> & _ & E).
    apply List.map_eq_app in E as (p' & b' & -> & E & _).
    apply map_fold_sigma_inv in E as ->; [|done]. by exists a', b'.
Qed.

End Infix.

(** Two character-wise expansions of a text, [f] and [g]: wherever they
    differ, what [f] gives is not empty and has no character of the
    alphabet [A].  A phrase over [A] that occurs in the [f]-expansion then
    occurs in the [g]-expansion. *)
Section Expansion.
Variables (f g : N -> pystr) (A : N -> Prop).
Hypothesis differ : forall c,
  g c = f c \/ (f c <> [] /\ Forall (fun x => ~ A x) (f c)).

Lemma head_clash (r p s b : pystr) :
  r <> [] -> Forall (fun x => ~ A x) r -> Forall A p ->
  r ++ s = p ++ b -> p = [].
Proof.
  intros Hr Hn Hp E. destruct p as [|y p]; [done|].
  destruct r as [|x r]; [done|]. injection E as -> _.
  apply Forall_cons in Hn as [Hn _]. apply Forall_cons in Hp as [Hp _]. done.
Qed.

Lemma flat_map_prefix t : forall p,
  Forall A p ->
  (exists b, flat_map f t = p ++ b) -> exists b, flat_map g t = p ++ b.
Proof.
  induction t as [|c t IH]; intros p Hp [b E]; cbn [flat_map] in *.
  - symmetry in E. apply app_eq_nil in E as [-> _]. by exists [].
  - destruct (differ c) as [Hg | [Hne Hn]].
    + rewrite Hg. apply List.app_eq_app in E as [l [[E1 E2] | [E1 E2]]].
      * exists (l ++ flat_map g t). by rewrite E1, <- app_assoc.
      * subst p. apply Forall_app in Hp as [_ Hl].
        destruct (IH l Hl) as [b' Hb']; [by exists b|].
        exists b'. by rewrite Hb', <- app_assoc.
    + apply head_clash in E as ->; [|done..]. by eexists.
Qed.

Lemma flat_map_infix p t :
  p <> [] -> Forall A p ->
  infix p (flat_map f t) -> infix p (flat_map g t).
Proof.
  intros Hne Hp. induction t as [|c t IH]; intros H; cbn [flat_map] in *.
  { by apply infix_nil_inv in H. }
  destruct H as (a & b & E).
  apply List.app_eq_app in E as [l [[E1 E2] | [E1 E2]]].
  - (* the occurrence starts in what [f] gives for [c] *)
    destruct l as [|x l].
    { apply infix_app_r, IH. exists [], b. symmetry. exact E2. }
    destruct (differ c) as [Hg | [_ Hn]].
    + rewrite Hg, E1. symmetry in E2.
      apply List.app_eq_app in E2 as [l' [[E3 E4] | [E3 E4]]].
      * exists a, (l' ++ flat_map g t). by rewrite E3, <- !app_assoc.
      * destruct (flat_map_prefix t l') as [b' Hb'].
        { rewrite E3 in Hp. by apply Forall_app in Hp as [_ ?]. }
        { by exists b. }
        exists a, b'. by rewrite Hb', E3, <- !app_assoc.
    + rewrite E1 in Hn. apply Forall_app in Hn as [_ Hn].
      symmetry in E2. by apply head_clash in E2.
  - (* the occurrence lies behind it *)
    apply infix_app_r, IH. exists l, b. by rewrite E2.
Qed.

End Expansion.

Section LowerFacts.
Context {env : PyEnv}.

Lemma fold_lower_from before s :
  List.map fold_sigma (lower_from before s) = flat_map lower_char s.
Proof.
  revert before. induction s as [|c s IH]; intros before; [done|].
  cbn [lower_from flat_map]. rewrite List.map_app, IH. f_equal.
  unfold lower_char. destruct (c =? 931); [|done].
  by destruct (py_final_sigma before s).
Qed.

Lemma contains_lower p s :
  Forall phrase_char p ->
  contains p (lower s) = true <-> infix p (flat_map lower_char s).
Proof.
  intros Hp. unfold lower.
  by rewrite contains_spec, (infix_fold_sigma p _ Hp), fold_lower_from.
Qed.

(** A phrase that occurs in a text in lower case occurs in every text
    around it in lower case. *)
Lemma contains_lower_infix p u v :
  Forall phrase_char p -> infix u v ->
  contains p (lower u) = true -> contains p (lower v) = true.
Proof.
  intros Hp Huv. rewrite !contains_lower by done. intros H.
  eapply infix_trans; [exact H|]. by apply infix_flat_map.
Qed.

Lemma lower_char_ascii c : c < 128 -> lower_char c = [ascii_lower c].
Proof.
  intros H. unfold lower_char. destruct (N.eqb_spec c 931); [lia|].
  rewrite py_tolower_ascii by done. fold (ascii_lower c). cbn [List.map].
  f_equal. unfold fold_sigma, ascii_lower.
  destruct ((65 <=? c) && (c <=? 90));
    match goal with |- context [?x =? 962] => destruct (N.eqb_spec x 962) end;
    lia.
Qed.

Lemma lower_char_nonprintable c :
  128 <= c -> py_isprintable c = false ->
  exists x, lower_char c = [x] /\ 128 <= x.
Proof.
  intros H Hp. unfold lower_char. destruct (N.eqb_spec c 931).
  - exists 963. split; [reflexivity|lia].
  - rewrite py_tolower_nonprintable by done. exists (fold_sigma c).
    split; [reflexivity|]. unfold fold_sigma. destruct (c =? 962); lia.
Qed.

(** A character that [repr] escapes is none of a phrase, in either case. *)
Lemma repr_char_cases q c :
  q = 34 \/ q = 39 ->
  repr_char q c = [c]
  \/ (lower_char c <> [] /\ Forall (fun x => ~ phrase_char x) (lower_char c)).
Proof.
  intros Hq. unfold repr_char.
  assert (forall x, c < 128 -> ascii_lower c = x -> ~ phrase_char x ->
          lower_char c <> [] /\ Forall (fun x => ~ phrase_char x) (lower_char c))
    as Hascii.
  { intros x Hc <- Hx. rewrite lower_char_ascii by done.
    split; [done|]. by apply Forall_singleton. }
  assert (forall lo hi x, lo <= hi -> (lo <=? x) && (x <=? hi) = true ->
          lo <= x /\ x <= hi) as Hrange.
  { intros lo hi x _ Hx. apply andb_prop in Hx as [H1 H2].
    apply N.leb_le in H1. apply N.leb_le in H2. done. }
  destruct ((c =? q) || (c =? 92)) eqn:E1.
  { right. apply (Hascii c).
    - apply orb_prop in E1 as [E | E]; apply N.eqb_eq in E; lia.
    - unfold ascii_lower.
      destruct ((65 <=? c) && (c <=? 90)) eqn:E; [|done].
      apply (Hrange 65 90) in E; [|lia].
      apply orb_prop in E1 as [E' | E']; apply N.eqb_eq in E'; lia.
    - unfold phrase_char.
      apply orb_prop in E1 as [E | E]; apply N.eqb_eq in E; lia. }
  assert (forall b : bool, b = true -> c < 32 \/ c = 127 ->
          lower_char c <> [] /\ Forall (fun x => ~ phrase_char x) (lower_char c))
    as Hctl.
  { intros _ _ Hc. apply (Hascii c); [lia| |unfold phrase_char; lia].
    unfold ascii_lower. destruct ((65 <=? c) && (c <=? 90)) eqn:E; [|done].
    apply (Hrange 65 90) in E; lia. }
  destruct (N.eqb_spec c 9). { right. apply (Hctl true); [done|lia]. }
  destruct (N.eqb_spec c 10). { right. apply (Hctl true); [done|lia]. }
  destruct (N.eqb_spec c 13). { right. apply (Hctl true); [done|lia]. }
  destruct ((c <? 32) || (c =? 127)) eqn:E2.
  { right. apply (Hctl true); [done|].
    apply orb_prop in E2 as [E | E]; [apply N.ltb_lt in E|apply N.eqb_eq in E]; lia. }
  apply orb_false_elim in E2 as [E2 E3].
  apply N.ltb_ge in E2. apply N.eqb_neq in E3.
  destruct (N.ltb_spec c 127); [by left|].
  destruct (py_isprintable c) eqn:Ep; [by left|].
  right. destruct (lower_char_nonprintable c) as (x & -> & Hx); [lia|done|].
  split; [done|]. apply Forall_singleton. unfold phrase_char. lia.
Qed.

Lemma repr_quote_cases s : repr_quote s = 34 \/ repr_quote s = 39.
Proof. unfold repr_quote. destruct (_ && _); [by left|by right]. Qed.

(** The phrase of an abstract text is in the [repr] of the text. *)
Lemma contains_lower_repr p t :
  p <> [] -> Forall phrase_char p ->
  contains p (lower t) = true -> contains p (lower (repr_str t)) = true.
Proof.
  intros Hne Hp. rewrite !contains_lower by done. intros H.
  unfold repr_str. cbn [flat_map]. apply infix_app_r.
  rewrite flat_map_app. apply infix_app_l.
  rewrite flat_map_flat_map.
  apply (flat_map_infix lower_char _ phrase_char); [|done..].
  intros c. destruct (repr_char_cases (repr_quote t) c (repr_quote_cases t))
    as [-> | H']; [left|by right].
  cbn [flat_map]. by rewrite app_nil_r.
Qed.

End LowerFacts.

Section PhraseGate.
Context {env : PyEnv}.

(** Text between two characters that are no whitespace is not touched by
    [strip]. *)
Lemma strip_keeps x m y a b :
  is_space x = false -> is_space y = false ->
  strip (a ++ (x :: m ++ [y]) ++ b) = lstrip a ++ (x :: m ++ [y]) ++ rstrip b.
Proof.
  intros Hx Hy. unfold strip.
  cbn [app]. rewrite lstrip_app_nonspace by done.
  unfold rstrip.
  replace (lstrip a ++ x :: (m ++ [y]) ++ b)
    with ((lstrip a ++ x :: m) ++ y :: b)
    by (by rewrite <- !app_assoc).
  rewrite rev_app_distr. cbn [rev]. rewrite <- app_assoc. cbn [app].
  rewrite lstrip_app_nonspace by done.
  rewrite rev_app_distr. cbn [rev]. rewrite rev_involutive.
  by rewrite <- !app_assoc.
Qed.

Lemma infix_join_comma x items : x ∈ items -> infix x (join_comma items).
Proof.
  induction items as [|y items IH]; [by intros ?%elem_of_nil|].
  intros [->|Hin]%elem_of_cons; cbn [join_comma].
  - destruct items; [apply infix_refl|apply infix_app_l, infix_refl].
  - destruct items as [|z items]; [by apply elem_of_nil in Hin|].
    apply infix_app_r, infix_app_r. by apply IH.
Qed.

Lemma elem_of_map {A B} (f : A -> B) x l : x ∈ l -> f x ∈ List.map f l.
Proof. rewrite !list_elem_of_In. apply List.in_map. Qed.

(** The [repr] of the texts has the [repr] of each text in it. *)
Lemma infix_repr_texts t d texts :
  (py "text", t) ∈ d -> d ∈ texts -> infix (repr_str t) (repr_texts texts).
Proof.
  intros Ht Hd. unfold repr_texts.
  apply infix_app_r, infix_app_l.
  apply (infix_trans _ (repr_text_dict d));
    [|by apply infix_join_comma, elem_of_map].
  unfold repr_text_dict. apply infix_app_r, infix_app_l.
  apply (infix_trans _ (repr_str (py "text") ++ py ": " ++ repr_str t)).
  - apply infix_app_r, infix_app_r, infix_refl.
  - apply infix_join_comma.
    by apply (elem_of_map
                (fun kv : pystr * pystr => repr_str kv.1 ++ py ": " ++ repr_str kv.2)
                (py "text", t)).
Qed.

Lemma texts_loop_keeps els : forall texts d,
  d ∈ texts -> d ∈ texts_loop els texts.
Proof.
  induction els as [|el els IH]; intros texts d Hd; [done|].
  cbn [texts_loop]. destruct (_clean_text (tostring el)); [by apply IH|].
  apply IH, elem_of_app. by left.
Qed.

Lemma texts_loop_text el els : forall texts,
  el ∈ els -> _clean_text (tostring el) <> [] ->
  exists d, d ∈ texts_loop els texts
            /\ (py "text", _clean_text (tostring el)) ∈ d.
Proof.
  induction els as [|e els IH]; intros texts Hin Hne;
    [by apply elem_of_nil in Hin|].
  apply elem_of_cons in Hin as [<-|Hin]; [|cbn [texts_loop]].
  - cbn [texts_loop]. destruct (_clean_text (tostring el)) as [|c t] eqn:E; [done|].
    eexists. split.
    + apply texts_loop_keeps, elem_of_app. right. by left.
    + destruct (attrib_get (py "NlmCategory") el); by left.
  - destruct (_clean_text (tostring e)); by apply IH.
Qed.

Lemma phrase_chars : Forall phrase_char (py "systematic review").
Proof.
  vm_compute.
  repeat (first [ apply Forall_nil_2
                | apply Forall_cons; split;
                  [first [left; split; discriminate | right; reflexivity]|] ]).
Qed.

Lemma phrase_nonempty : py "systematic review" <> [].
Proof. vm_compute. discriminate. Qed.

(** With such a segment the text of the record is a review for
    [_is_review_in_text]. *)
Lemma review_phrase_in_text pmid_el a date jt :
  has_review_phrase a ->
  _is_review_in_text (review_text (gated_record pmid_el a date jt)) = true.
Proof.
  intros (ab & el & Hab & Hel & Hph).
  assert (_clean_text (tostring el) <> []) as Hne.
  { intros E. rewrite E in Hph. discriminate Hph. }
  destruct (texts_loop_text el _ [] Hel Hne) as (d & Hd & Ht).
  assert (d ∈ _get_texts a) as Hd' by (unfold _get_texts; by rewrite Hab).
  unfold _is_review_in_text, filtering_phrases. cbn [existsb].
  rewrite orb_false_r.
  apply (contains_lower_repr _ _ phrase_nonempty phrase_chars) in Hph.
  eapply (contains_lower_infix _ _ _ phrase_chars); [|exact Hph].
  unfold review_text, format_get at 2. rewrite gated_abstract_texts.
  destruct (_get_texts a) as [|d0 ts] eqn:Ets; [by apply elem_of_nil in Hd'|].
  rewrite <- Ets in *. clear Ets.
  eapply infix_trans; [by eapply infix_repr_texts|].
  unfold repr_texts.
  set (m := join_comma (List.map repr_text_dict (_get_texts a))).
  set (title := format_get _ "title").
  replace (title ++ [10] ++ py "[" ++ m ++ py "]")
    with ((title ++ [10]) ++ (91 :: m ++ [93]) ++ [])
    by (rewrite app_nil_r, <- app_assoc; reflexivity).
  rewrite strip_keeps by reflexivity.
  apply infix_app_r, infix_app_l. apply infix_refl.
Qed.

End PhraseGate.

(** C7: an entry with an abstract segment whose cleaned text has the phrase
    "systematic review" in it yields no record, with or without a
    structural sign of a review: the extractor returns no record, so the
    generator either goes on with the entries after it or ends in the
    exception the entry raised. *)
Theorem review_phrase_discarded {env : PyEnv}
    (pubmed_article_el mc article_el : element) :
  find (py "MedlineCitation") pubmed_article_el = Some mc ->
  find (py "Article") mc = Some article_el ->
  has_review_phrase article_el ->
  (forall r, _get_abstract_data_from_xml_el pubmed_article_el <> Ok (Some r))
  /\ forall rest,
       parse_articles (pubmed_article_el :: rest) = parse_articles rest
       \/ exists e, parse_articles (pubmed_article_el :: rest) = ([], Some e).
Proof.
  intros Hmc Ha Hph.
  assert (forall r, _get_abstract_data_from_xml_el pubmed_article_el <> Ok (Some r))
    as H.
  { intros r Hr. apply extract_Some in Hr
      as (mc' & pmid_el & a & date & jt & dc & dr & da & Hmc' & Hpmid & Hrev & Ha'
          & Hdate & Hjt & Hgate & Hphrase & _).
    rewrite Hmc in Hmc'. injection Hmc' as <-.
    rewrite Ha in Ha'. injection Ha' as <-.
    by rewrite review_phrase_in_text in Hphrase. }
  split; [exact H|]. intros rest. cbn [parse_articles].
  destruct (_get_abstract_data_from_xml_el pubmed_article_el) as [[r|]|e] eqn:E.
  - by destruct (H r).
  - by left.
  - right. by exists e.
Qed.

Lemma review_phrase_discarded_witness :
  find (py "MedlineCitation")
    (sample_article both_dates "Journal Article" "This is a Systematic Review of sleep.")
  = Some (sample_citation both_dates "Journal Article"
            "This is a Systematic Review of sleep.")
  /\ (exists article_el,
        find (py "Article")
          (sample_citation both_dates "Journal Article"
             "This is a Systematic Review of sleep.") = Some article_el
        /\ @has_review_phrase basic_env article_el)
  /\ @_is_review basic_env
       (sample_citation both_dates "Journal Article"
          "This is a Systematic Review of sleep.") = Ok false
  /\ (forall r,
        @_get_abstract_data_from_xml_el basic_env
          (sample_article both_dates "Journal Article"
             "This is a Systematic Review of sleep.") <> Ok (Some r)).
Proof.
  assert (find (py "MedlineCitation")
            (sample_article both_dates "Journal Article"
               "This is a Systematic Review of sleep.")
          = Some (sample_citation both_dates "Journal Article"
                    "This is a Systematic Review of sleep.")) as H1
    by (vm_compute; reflexivity).
  assert (exists article_el,
        find (py "Article")
          (sample_citation both_dates "Journal Article"
             "This is a Systematic Review of sleep.") = Some article_el
        /\ @has_review_phrase basic_env article_el) as H2.
  { eexists. split; [vm_compute; reflexivity|].
    eexists _, _. split; [vm_compute; reflexivity|].
    split; [by left|]. vm_compute. reflexivity. }
  split; [exact H1|]. split; [exact H2|]. split; [vm_compute; reflexivity|].
  destruct H2 as (a & H2 & H3).
  exact (proj1 (review_phrase_discarded _ _ _ H1 H2 H3)).
Defined.

(** * Further facts about the decoder *)

Section DecodeFacts.
Context {env : PyEnv}.

Lemma reference_value_length ds :
  ds <> [] -> (length (reference_value ds) <= length ds)%nat.
Proof.
  intros H. unfold reference_value. destruct (converts ds); [|done].
  destruct ds; [done|]. simpl. lia.
Qed.

(** A reference is longer than what is left of the text and its value
    together. *)
Lemma reference_length s ds rest :
  reference s ds rest ->
  (length (reference_value ds) + length rest < length s)%nat.
Proof.
  intros [ds' rest' Hne _|ds' w rest' Hne _ _];
    pose proof (reference_value_length _ Hne);
    cbn [length]; rewrite length_app; cbn [length]; lia.
Qed.

Lemma decoded_length s out : decoded s out -> (length out <= length s)%nat.
Proof.
  induction 1 as [|s ds rest out Href _ IH|c s out _ _ IH]; [done| |simpl; lia].
  apply reference_length in Href. rewrite length_app. lia.
Qed.

Lemma decoded_same s out :
  decoded s out -> out = s ->
  forall a t ds rest, s = a ++ t -> ~ reference t ds rest.
Proof.
  induction 1 as [|s ds rest out Href Hd _|c s out Hno _ IH]; intros E a t ds' rest' Hs.
  - symmetry in Hs. apply app_eq_nil in Hs as [_ ->]. inversion 1.
  - apply reference_length in Href. apply decoded_length in Hd.
    apply (f_equal length) in E. rewrite length_app in E. lia.
  - injection E as E. destruct a as [|c' a]; cbn [app] in Hs.
    + subst t. apply Hno.
    + injection Hs as _ Hs. by apply (IH E a).
Qed.

Lemma decoded_refl s :
  (forall a t ds rest, s = a ++ t -> ~ reference t ds rest) -> decoded s s.
Proof.
  induction s as [|c s IH]; intros H; [constructor|].
  apply decoded_char.
  - intros ds rest. by apply (H []).
  - apply IH. intros a t ds rest ->. by apply (H (c :: a)).
Qed.

End DecodeFacts.

(** X1: the decoder never makes a text longer. *)
Theorem decode_never_longer {env : PyEnv} (s : pystr) :
  (length (_decode_unicode_references s) <= length s)%nat.
Proof.
  apply decoded_length. rewrite decode_unfold.
  by apply (decoded_decode_aux (length s)).
Qed.

(** X2: the decoder returns a text as it is exactly when no reference
    starts anywhere in it. *)
Theorem decode_unchanged_iff {env : PyEnv} (s : pystr) :
  _decode_unicode_references s = s
  <-> forall a t ds rest, s = a ++ t -> ~ reference t ds rest.
Proof.
  split.
  - intros E. apply (decoded_same s (_decode_unicode_references s)); [|done].
    rewrite decode_unfold. by apply (decoded_decode_aux (length s)).
  - intros H. symmetry. by apply decoded_functional, decoded_refl.
Qed.

(** * The generator *)

Section Generator.
Context {env : PyEnv}.

Lemma parse_articles_app xs ys :
  parse_articles (xs ++ ys) =
  match parse_articles xs with
  | (rs, None) => let '(rs', e) := parse_articles ys in (rs ++ rs', e)
  | (rs, Some e) => (rs, Some e)
  end.
Proof.
  induction xs as [|x xs IH]; cbn [app parse_articles].
  - by destruct (parse_articles ys).
  - destruct (_get_abstract_data_from_xml_el x) as [[r|]|e]; [|done|done].
    rewrite IH. destruct (parse_articles xs) as [rs [e|]]; [done|].
    by destruct (parse_articles ys).
Qed.

Lemma findall_app t tag a c xs ys tl :
  findall t (Element tag a c (xs ++ ys) tl)
  = findall t (Element tag a c xs tl) ++ findall t (Element tag a c ys tl).
Proof. unfold findall. cbn [el_children]. apply List.filter_app. Qed.

Lemma findall_cons_tagged t tag a c x xs tl :
  el_tag x = t ->
  findall t (Element tag a c (x :: xs) tl) = x :: findall t (Element tag a c xs tl).
Proof.
  intros H. unfold findall. cbn [el_children List.filter].
  unfold has_tag at 1. by rewrite bool_decide_true.
Qed.

End Generator.

(** X3: the generator works through the entries in order.  The records of a
    document are those of its first entries and, if none of them raised,
    after them those of the remaining entries; an exception ends it. *)
Theorem parse_file_app {env : PyEnv} (tag : pystr) (attrib : list (pystr * pystr))
    (content : pystr) (xs ys : list element) (tail : pystr) :
  parse_file (Element tag attrib content (xs ++ ys) tail) =
  match parse_file (Element tag attrib content xs tail) with
  | (rs, None) =>
      let '(rs', e) := parse_file (Element tag attrib content ys tail) in
      (rs ++ rs', e)
  | (rs, Some e) => (rs, Some e)
  end.
Proof. unfold parse_file. rewrite findall_app. apply parse_articles_app. Qed.

(** X4: an entry without [MedlineCitation], or with a [PMID] and without
    [Article], raises [AttributeError] and ends the generator: the records
    of the entries before it have been yielded, the entries after it are not
    looked at. *)
Theorem parse_file_stops_at_malformed {env : PyEnv} (tag : pystr)
    (attrib : list (pystr * pystr)) (content : pystr)
    (before after : list element) (el : element) (tail : pystr)
    (rs : list (gmap string pyval)) :
  el_tag el = py "PubmedArticle" ->
  (find (py "MedlineCitation") el = None
   \/ exists mc pmid_el,
       find (py "MedlineCitation") el = Some mc
       /\ find (py "PMID") mc = Some pmid_el
       /\ find (py "Article") mc = None) ->
  parse_file (Element tag attrib content before tail) = (rs, None) ->
  parse_file (Element tag attrib content (before ++ el :: after) tail)
  = (rs, Some AttributeError).
Proof.
  intros Htag Hel Hbefore. unfold parse_file in *.
  rewrite findall_app, parse_articles_app, Hbefore.
  rewrite findall_cons_tagged by done. cbn [parse_articles].
  assert (_get_abstract_data_from_xml_el el = Err AttributeError) as ->.
  { unfold _get_abstract_data_from_xml_el.
    destruct Hel as [->|(mc & pmid_el & -> & Hp & Ha)]; [done|].
    cbn [deref bind]. rewrite Hp. unfold _is_review. by rewrite Ha. }
  by rewrite app_nil_r.
Qed.

(** X5: an entry whose citation has no [PMID] is passed over, whatever else
    it holds or lacks: the document yields what it yields without the
    entry. *)
Theorem parse_file_skips_without_pmid {env : PyEnv} (tag : pystr)
    (attrib : list (pystr * pystr)) (content : pystr)
    (before after : list element) (el mc : element) (tail : pystr) :
  find (py "MedlineCitation") el = Some mc ->
  find (py "PMID") mc = None ->
  parse_file (Element tag attrib content (before ++ el :: after) tail)
  = parse_file (Element tag attrib content (before ++ after) tail).
Proof.
  intros Hmc Hpmid. unfold parse_file.
  rewrite !findall_app, !parse_articles_app.
  destruct (parse_articles _) as [rs [e|]]; [done|].
  unfold findall. cbn [el_children List.filter].
  destruct (has_tag (py "PubmedArticle") el); [|done].
  cbn [parse_articles]. unfold _get_abstract_data_from_xml_el.
  rewrite Hmc. cbn [deref bind]. by rewrite Hpmid.
Qed.

Lemma parse_file_stops_at_malformed_witness :
  el_tag entry_without_citation = py "PubmedArticle"
  /\ find (py "MedlineCitation") entry_without_citation = None
  /\ @parse_file basic_env
       (branch "PubmedArticleSet"
          [sample_article both_dates "Journal Article" "Sleep improved."])
     = ([sample_record], None)
  /\ @parse_file basic_env
       (branch "PubmedArticleSet"
          ([sample_article both_dates "Journal Article" "Sleep improved."]
           ++ entry_without_citation
              :: [sample_article both_dates "Journal Article" "Sleep improved."]))
     = ([sample_record], Some AttributeError).
Proof.
  assert (@parse_file basic_env
            (branch "PubmedArticleSet"
               [sample_article both_dates "Journal Article" "Sleep improved."])
          = ([sample_record], None)) as H by (vm_compute; reflexivity).
  split; [reflexivity|]. split; [reflexivity|]. split; [exact H|].
  exact (parse_file_stops_at_malformed _ _ _ _ _ entry_without_citation _ _
           eq_refl (or_introl eq_refl) H).
Defined.

Lemma parse_file_skips_without_pmid_witness :
  find (py "MedlineCitation") entry_without_pmid = Some citation_without_pmid
  /\ find (py "PMID") citation_without_pmid = None
  /\ @parse_file basic_env
       (branch "PubmedArticleSet"
          ([] ++ entry_without_pmid
              :: [sample_article both_dates "Journal Article" "Sleep improved."]))
     = @parse_file basic_env
         (branch "PubmedArticleSet"
            ([] ++ [sample_article both_dates "Journal Article" "Sleep improved."])).
Proof.
  assert (find (py "MedlineCitation") entry_without_pmid
          = Some citation_without_pmid) as H1 by (vm_compute; reflexivity).
  assert (find (py "PMID") citation_without_pmid = None) as H2
    by (vm_compute; reflexivity).
  split; [exact H1|]. split; [exact H2|].
  exact (parse_file_skips_without_pmid _ _ _ _ _ _ _ _ H1 H2).
Defined.

(** * Authors *)

Section Authors.

Lemma parse_map_keys t k : author_name_parse_map t = Some k -> k ∈ name_keys.
Proof.
  unfold author_name_parse_map, name_keys.
  repeat case_match; intros [= <-]; set_solver.
Qed.

Lemma parse_map_not_collective t k :
  author_name_parse_map t = Some k -> t <> py "CollectiveName".
Proof. intros H ->. vm_compute in H. discriminate. Qed.

(** The dict of an author after the loop over its sub-elements. *)
Lemma author_names_lookup els : forall (d : author_dict) cn k,
  (author_names els d cn).1 !! k =
  match last (List.filter
                (fun e => bool_decide (author_name_parse_map (el_tag e) = Some k))
                els) with
  | Some e => Some (el_text e)
  | None => d !! k
  end.
Proof.
  induction els as [|e els IH]; intros d cn k; cbn [author_names List.filter]; [done|].
  unfold author_dict in *.
  destruct (author_name_parse_map (el_tag e)) as [k'|] eqn:E.
  - rewrite IH. destruct (decide (k' = k)) as [->|Hk].
    + rewrite bool_decide_true by done. rewrite last_cons.
      destruct (last _); [done|]. by simplify_map_eq.
    + rewrite bool_decide_false by congruence.
      destruct (last _); [done|]. by simplify_map_eq.
  - rewrite (bool_decide_false (None = Some k)) by done.
    destruct (bool_decide _); apply IH.
Qed.

(** The collective name after the loop over the sub-elements. *)
Lemma author_names_collective els : forall (d : author_dict) cn,
  (author_names els d cn).2 =
  match last (List.filter is_collective_name els) with
  | Some e => el_text e
  | None => cn
  end.
Proof.
  induction els as [|e els IH]; intros d cn; cbn [author_names List.filter]; [done|].
  unfold is_collective_name at 1.
  destruct (author_name_parse_map (el_tag e)) as [k'|] eqn:E.
  - rewrite bool_decide_false by by eapply parse_map_not_collective. apply IH.
  - destruct (bool_decide (el_tag e = py "CollectiveName")); rewrite IH; [|done].
    rewrite last_cons. by destruct (last _).
Qed.

Lemma author_names_fst els (d : author_dict) cn cn' :
  (author_names els d cn).1 = (author_names els d cn').1.
Proof. apply map_eq. intros k. by rewrite !author_names_lookup. Qed.

Lemma authors_loop_spec els : forall acc cn,
  authors_loop els acc cn =
  (acc ++ List.filter (fun d : author_dict => negb (bool_decide (d = ∅)))
            (List.map (fun el => (author_names (el_children el) ∅ None).1) els),
   match last (List.filter is_collective_name (flat_map el_children els)) with
   | Some e => el_text e
   | None => cn
   end).
Proof.
  induction els as [|el els IH]; intros acc cn;
    cbn [authors_loop List.map List.filter flat_map].
  { by rewrite app_nil_r. }
  pose proof (author_names_collective (el_children el) ∅ cn) as Hcn.
  pose proof (author_names_fst (el_children el) ∅ cn None) as Hd.
  destruct (author_names (el_children el) ∅ cn) as [author cn'].
  cbn [fst snd] in *. rewrite <- Hd.
  rewrite List.filter_app, last_app.
  destruct (bool_decide (author = ∅)); cbn [negb]; rewrite IH, Hcn.
  - f_equal. by destruct (last (List.filter _ (flat_map _ _))), (last _).
  - rewrite <- app_assoc. f_equal.
    by destruct (last (List.filter _ (flat_map _ _))), (last _).
Qed.

End Authors.

(** X6: every author of the result has a name: its dict is not empty and
    its keys are among [first_name], [last_name], [initials] and
    [suffix]. *)
Theorem authors_have_names {env : PyEnv} (article_el : element) :
  Forall (fun author : author_dict =>
            author <> ∅ /\ forall k, is_Some (author !! k) -> k ∈ name_keys)
         (_get_authors article_el).1.
Proof.
  unfold _get_authors. destruct (find _ _) as [al|]; [|constructor].
  rewrite authors_loop_spec. cbn [fst app].
  apply Forall_forall. intros d Hd.
  apply list_elem_of_In, List.filter_In in Hd as [Hin Hne].
  apply List.in_map_iff in Hin as (el & <- & _).
  split.
  - intros E. rewrite E in Hne. by rewrite bool_decide_true in Hne.
  - intros k. rewrite author_names_lookup.
    destruct (last _) as [e|] eqn:El; [|by intros [? ?%lookup_empty_Some]].
    intros _. apply last_Some in El as [l' El].
    assert (In e (l' ++ [e])) as Hin by (apply List.in_app_iff; right; by left).
    rewrite <- El in Hin. apply List.filter_In in Hin as [_ Hk].
    apply bool_decide_eq_true in Hk. by eapply parse_map_keys.
Qed.

(** X7: the authors are those of the [Author] elements that have a name, in
    document order; each key holds the text of the last sub-element that
    goes to it. *)
Theorem authors_in_document_order {env : PyEnv} (article_el : element) :
  exists ds : list author_dict,
    Forall2 (fun el d => forall k, d !! k = name_field k el)
            (author_elements article_el) ds
    /\ (_get_authors article_el).1
       = List.filter (fun d : author_dict => negb (bool_decide (d = ∅))) ds.
Proof.
  unfold _get_authors, author_elements.
  destruct (find _ _) as [al|]; [|exists []; split; [constructor|done]].
  rewrite authors_loop_spec. cbn [fst app].
  eexists. split; [|reflexivity].
  induction (findall (py "Author") al) as [|el els IH]; [constructor|].
  cbn [List.map]. constructor; [|exact IH].
  intros k. rewrite author_names_lookup. unfold name_field.
  by destruct (last _).
Qed.

(** X8: the collective name is the text of the last [CollectiveName] among
    the sub-elements of the authors, [None] where there is none or where
    the last one is empty. *)
Theorem collective_name_is_last {env : PyEnv} (article_el : element) :
  (_get_authors article_el).2
  = last (List.filter is_collective_name
            (flat_map el_children (author_elements article_el)))
    ≫= el_text.
Proof.
  unfold _get_authors, author_elements.
  destruct (find _ _) as [al|]; [|done].
  rewrite authors_loop_spec. cbn [snd]. by destruct (last _).
Qed.

(** * Dates *)

Section Dates.
Context {env : PyEnv}.

Lemma ascii_digit_decimal c :
  48 <= c -> c <= 57 -> is_decimal c = true /\ decimal_value c = c - 48.
Proof.
  intros H1 H2. unfold is_decimal, decimal_value.
  rewrite py_decimal_ascii by lia.
  destruct (N.leb_spec 48 c), (N.leb_spec c 57); try lia. done.
Qed.

Lemma decimal_value_lt c : decimal_value c < 10.
Proof.
  unfold decimal_value. destruct (py_decimal c) eqn:E; [|lia].
  by eapply py_decimal_lt.
Qed.

Lemma in_range_spec lo hi c : in_range lo hi c = true <-> lo <= c /\ c <= hi.
Proof.
  unfold in_range. rewrite andb_true_iff, !N.leb_le. done.
Qed.

Lemma month_alternatives_range s m r :
  (m, r) ∈ month_alternatives s -> 1 <= m /\ m <= 12.
Proof.
  unfold month_alternatives.
  destruct s as [|a [|b s]]; [by intros ?%elem_of_nil| |].
  - destruct (in_range 49 57 a) eqn:E; [|by intros ?%elem_of_nil].
    apply in_range_spec in E. intros [= -> _]%list_elem_of_singleton. lia.
  - rewrite !elem_of_app. intros [H|[H|H]]; revert H.
    + destruct (N.eqb_spec a 49); cbn [andb]; [|by intros ?%elem_of_nil].
      destruct (in_range 48 50 b) eqn:E; [|by intros ?%elem_of_nil].
      apply in_range_spec in E. intros [= -> _]%list_elem_of_singleton. lia.
    + destruct (N.eqb_spec a 48); cbn [andb]; [|by intros ?%elem_of_nil].
      destruct (in_range 49 57 b) eqn:E; [|by intros ?%elem_of_nil].
      apply in_range_spec in E. intros [= -> _]%list_elem_of_singleton. lia.
    + destruct (in_range 49 57 a) eqn:E; [|by intros ?%elem_of_nil].
      apply in_range_spec in E. intros [= -> _]%list_elem_of_singleton. lia.
Qed.

Lemma day_match_range s d r : day_match s = Some (d, r) -> 1 <= d.
Proof.
  unfold day_match. destruct s as [|a [|b s]]; [discriminate| |].
  - destruct (in_range 49 57 a) eqn:E; [|discriminate].
    apply in_range_spec in E. intros [= <- _]. lia.
  - repeat match goal with
           | |- context [if ?c then _ else _] => destruct c eqn:?
           end; try discriminate; intros [= <- _];
      repeat match goal with
             | H : _ && _ = true |- _ => apply andb_prop in H as [? ?]
             | H : in_range _ _ _ = true |- _ => apply in_range_spec in H
             | H : (_ =? _) = true |- _ => apply N.eqb_eq in H
             end; lia.
Qed.

Lemma month_and_day_Some alts m d rest :
  month_and_day alts = Some (m, d, rest) ->
  exists r, (m, 45 :: r) ∈ alts /\ day_match r = Some (d, rest).
Proof.
  induction alts as [|[m' r'] alts IH]; cbn [month_and_day]; [discriminate|].
  assert (month_and_day alts = Some (m, d, rest) ->
          exists r, (m, 45 :: r) ∈ (m', r') :: alts /\ day_match r = Some (d, rest))
    as Hnext.
  { intros H. destruct (IH H) as (r & ? & ?). exists r. split; [by right|done]. }
  destruct r' as [|c r']; [done|].
  destruct (N.eqb_spec c 45) as [->|_]; [|done].
  destruct (day_match r') as [[d' rest']|] eqn:E; [|done].
  intros [= <- <- <-]. exists r'. split; [by left|done].
Qed.

Lemma digits_value4 a b c d :
  digits_value [a; b; c; d]
  = 10 * (10 * (10 * (10 * 0 + decimal_value a) + decimal_value b)
          + decimal_value c) + decimal_value d.
Proof. reflexivity. Qed.

Lemma strptime_valid s dt : strptime_ymd s = Ok dt -> valid_date dt.
Proof.
  unfold strptime_ymd.
  destruct s as [|y1 [|y2 [|y3 [|y4 [|c r]]]]]; try discriminate.
  destruct (_ && _); [|discriminate].
  destruct (month_and_day _) as [[[m d] [|? ?]]|] eqn:E; try discriminate.
  destruct (N.leb_spec 1 (digits_value [y1; y2; y3; y4])); [|discriminate].
  cbn [andb]. destruct (N.leb_spec d (days_in_month (digits_value [y1; y2; y3; y4]) m));
    [|discriminate].
  intros [= <-]. unfold valid_date. cbn [dt_year dt_month dt_day].
  apply month_and_day_Some in E as (r' & Hm & Hd).
  apply month_alternatives_range in Hm. apply day_match_range in Hd.
  repeat split; try lia.
  rewrite digits_value4.
  pose proof (decimal_value_lt y1). pose proof (decimal_value_lt y2).
  pose proof (decimal_value_lt y3). pose proof (decimal_value_lt y4). lia.
Qed.

End Dates.

(** X9: a date that [_get_date] returns is a day of the calendar: the year
    is between 1 and 9999, the month between 1 and 12, and the day is one
    of that month in that year. *)
Theorem get_date_valid {env : PyEnv} (el : element) (key : pystr) (dt : datetime) :
  _get_date el key = Ok (Some dt) -> valid_date dt.
Proof.
  unfold _get_date. destruct (find key el) as [date_el|]; [|discriminate].
  destruct (find (py "Year") date_el); [|discriminate]. cbn [deref bind].
  destruct (find (py "Month") date_el); [|discriminate]. cbn [deref bind].
  destruct (find (py "Day") date_el); [|discriminate]. cbn [deref bind].
  destruct (strptime_ymd _) eqn:E; [|discriminate]. cbn [bind].
  intros [= <-]. by eapply strptime_valid.
Qed.

Lemma get_date_valid_witness :
  @_get_date basic_env (sample_citation [] "Review" "Sleep improved.")
    (py "DateCompleted")
  = Ok (Some {| dt_year := 2020; dt_month := 2; dt_day := 29 |})
  /\ valid_date {| dt_year := 2020; dt_month := 2; dt_day := 29 |}.
Proof.
  assert (@_get_date basic_env (sample_citation [] "Review" "Sleep improved.")
            (py "DateCompleted")
          = Ok (Some {| dt_year := 2020; dt_month := 2; dt_day := 29 |})) as H
    by (vm_compute; reflexivity).
  split; [exact H|]. exact (get_date_valid _ _ _ H).
Defined.

Section DateRoundTrip.
Context {env : PyEnv}.

Ltac digit_facts c :=
  let H := fresh in
  pose proof (ascii_digit_decimal c ltac:(lia) ltac:(lia)) as [H ?];
  try rewrite H.

Lemma day_match_digits2 d : 1 <= d -> d <= 31 -> day_match (digits2 d) = Some (d, []).
Proof.
  intros H1 H2.
  assert (exists a b, digits2 d = [48 + a; 48 + b] /\ d = 10 * a + b /\ b < 10 /\ a <= 3)
    as (a & b & -> & -> & Hb & Ha).
  { exists (d / 10), (d mod 10). split; [done|].
    pose proof (N.div_mod d 10 ltac:(done)) as E.
    pose proof (N.mod_upper_bound d 10 ltac:(done)) as Hr.
    revert E Hr. generalize (d mod 10) (d / 10). intros r q E Hr.
    repeat split; lia. }
  unfold day_match, in_range.
  assert (a = 0 \/ a = 1 \/ a = 2 \/ a = 3) as [-> | [-> | [-> | -> ] ] ] by lia.
  - assert (1 <= b) by lia.
    replace (48 + 0 =? 51) with false by done.
    replace ((49 <=? 48 + 0) && (48 + 0 <=? 50)) with false by done.
    replace (48 + 0 =? 48) with true by done. cbn [andb].
    destruct (N.leb_spec 49 (48 + b)), (N.leb_spec (48 + b) 57); try lia.
    cbn [andb]. do 2 f_equal. lia.
  - replace (48 + 1 =? 51) with false by done.
    replace ((49 <=? 48 + 1) && (48 + 1 <=? 50)) with true by done.
    destruct (ascii_digit_decimal (48 + b)) as [-> ->]; [lia|lia|].
    cbn [andb]. do 2 f_equal. lia.
  - replace (48 + 2 =? 51) with false by done.
    replace ((49 <=? 48 + 2) && (48 + 2 <=? 50)) with true by done.
    destruct (ascii_digit_decimal (48 + b)) as [-> ->]; [lia|lia|].
    cbn [andb]. do 2 f_equal. lia.
  - replace (48 + 3 =? 51) with true by done.
    destruct (N.leb_spec 48 (48 + b)), (N.leb_spec (48 + b) 49); try lia.
    cbn [andb]. do 2 f_equal. lia.
Qed.

Lemma month_digits2 m r d rest :
  1 <= m -> m <= 12 -> day_match r = Some (d, rest) ->
  month_and_day (month_alternatives (digits2 m ++ 45 :: r)) = Some (m, d, rest).
Proof.
  intros H1 H2 Hd.
  assert (m = 1 \/ m = 2 \/ m = 3 \/ m = 4 \/ m = 5 \/ m = 6 \/ m = 7 \/ m = 8
          \/ m = 9 \/ m = 10 \/ m = 11 \/ m = 12) as Hm by lia.
  repeat (destruct Hm as [->|Hm]); try subst m;
    vm_compute month_alternatives; cbn [month_and_day];
    rewrite ?N.eqb_refl, Hd; reflexivity.
Qed.

(** The four digits of a year. *)
Lemma digits4_split y :
  y <= 9999 ->
  exists a b c d,
    digits4 y = [48 + a; 48 + b; 48 + c; 48 + d]
    /\ y = 10 * (10 * (10 * a + b) + c) + d
    /\ a < 10 /\ b < 10 /\ c < 10 /\ d < 10.
Proof.
  intros Hy. exists (y / 1000), ((y / 100) mod 10), ((y / 10) mod 10), (y mod 10).
  split; [reflexivity|].
  pose proof (N.mod_upper_bound y 10 ltac:(done)) as H0.
  pose proof (N.mod_upper_bound (y / 10) 10 ltac:(done)) as H1.
  pose proof (N.mod_upper_bound (y / 100) 10 ltac:(done)) as H2.
  pose proof (N.div_mod y 10 ltac:(done)) as E0.
  pose proof (N.div_mod (y / 10) 10 ltac:(done)) as E1.
  pose proof (N.div_mod (y / 100) 10 ltac:(done)) as E2.
  replace (y / 100) with (y / 10 / 10) in * by by rewrite N.Div0.div_div.
  replace (y / 1000) with (y / 10 / 10 / 10) by by rewrite !N.Div0.div_div.
  revert H0 H1 H2 E0 E1 E2.
  generalize (y mod 10) ((y / 10) mod 10) ((y / 10 / 10) mod 10) (y / 10 / 10 / 10).
  generalize (y / 10 / 10). generalize (y / 10).
  intros q1 q2 r0 r1 r2 q3 H0 H1 H2 E0 E1 E2. lia.
Qed.

Lemma digits_value_digits4 y : y <= 9999 -> digits_value (digits4 y) = y.
Proof.
  intros (a & b & c & d & -> & -> & Ha & Hb & Hc & Hd)%digits4_split.
  rewrite digits_value4.
  destruct (ascii_digit_decimal (48 + a)) as [_ ->]; [lia|lia|].
  destruct (ascii_digit_decimal (48 + b)) as [_ ->]; [lia|lia|].
  destruct (ascii_digit_decimal (48 + c)) as [_ ->]; [lia|lia|].
  destruct (ascii_digit_decimal (48 + d)) as [_ ->]; [lia|lia|].
  lia.
Qed.

Lemma digits4_decimal y :
  y <= 9999 -> forallb is_decimal (digits4 y) = true.
Proof.
  intros (a & b & c & d & -> & -> & Ha & Hb & Hc & Hd)%digits4_split.
  cbn [forallb].
  destruct (ascii_digit_decimal (48 + a)) as [-> _]; [lia|lia|].
  destruct (ascii_digit_decimal (48 + b)) as [-> _]; [lia|lia|].
  destruct (ascii_digit_decimal (48 + c)) as [-> _]; [lia|lia|].
  destruct (ascii_digit_decimal (48 + d)) as [-> _]; [lia|lia|].
  reflexivity.
Qed.

Lemma strptime_digits y m d :
  valid_date {| dt_year := y; dt_month := m; dt_day := d |} ->
  strptime_ymd (digits4 y ++ py "-" ++ digits2 m ++ py "-" ++ digits2 d)
  = Ok {| dt_year := y; dt_month := m; dt_day := d |}.
Proof.
  intros ((Hy1 & Hy2) & (Hm1 & Hm2) & (Hd1 & Hd2)). cbn [dt_year dt_month dt_day] in *.
  assert (d <= 31).
  { unfold days_in_month in Hd2. repeat case_match; lia. }
  pose proof (digits4_decimal y Hy2) as Hdec.
  pose proof (digits_value_digits4 y Hy2) as Hval.
  unfold digits4 in *. cbn [app]. unfold strptime_ymd.
  rewrite Hdec, Hval. change (py "-") with [45]. cbn [app].
  rewrite N.eqb_refl. cbn [andb].
  change (digits2 m ++ 45 :: digits2 d) with (digits2 m ++ 45 :: digits2 d).
  rewrite (month_digits2 m (digits2 d) d []); [|done|done|by apply day_match_digits2].
  destruct (N.leb_spec 1 y); [|lia].
  destruct (N.leb_spec d (days_in_month y m)); [|lia]. reflexivity.
Qed.

End DateRoundTrip.

(** X10: where the container holds a day of the calendar in digits, the year
    in four and the month and the day in two, [_get_date] returns that
    day. *)
Theorem get_date_reads_digits {env : PyEnv} (el date_el : element) (key : pystr)
    (y m d : N) :
  valid_date {| dt_year := y; dt_month := m; dt_day := d |} ->
  find key el = Some date_el ->
  has_field "Year" (digits4 y) date_el ->
  has_field "Month" (digits2 m) date_el ->
  has_field "Day" (digits2 d) date_el ->
  _get_date el key = Ok (Some {| dt_year := y; dt_month := m; dt_day := d |}).
Proof.
  intros Hv Hkey (ye & Hy & Hyt) (me & Hm & Hmt) (de & Hd & Hdt).
  unfold _get_date. rewrite Hkey, Hy. cbn [deref bind].
  rewrite Hm. cbn [deref bind]. rewrite Hd. cbn [deref bind].
  rewrite Hyt, Hmt, Hdt. cbn [fmt_opt].
  by rewrite strptime_digits.
Qed.

Lemma get_date_reads_digits_witness :
  valid_date {| dt_year := 2020; dt_month := 2; dt_day := 29 |}
  /\ digits4 2020 = py "2020" /\ digits2 2 = py "02" /\ digits2 29 = py "29"
  /\ @_get_date basic_env (sample_citation [] "Review" "Sleep improved.")
       (py "DateCompleted")
     = Ok (Some {| dt_year := 2020; dt_month := 2; dt_day := 29 |}).
Proof.
  assert (valid_date {| dt_year := 2020; dt_month := 2; dt_day := 29 |}) as Hv
    by (repeat split; vm_compute; discriminate).
  split; [exact Hv|]. repeat (split; [reflexivity|]).
  refine (get_date_reads_digits (sample_citation [] "Review" "Sleep improved.")
            (branch "DateCompleted"
               [leaf "Year" "2020"; leaf "Month" "02"; leaf "Day" "29"])
            (py "DateCompleted") 2020 2 29 Hv _ _ _ _).
  - vm_compute; reflexivity.
  - exists (leaf "Year" "2020"). split; vm_compute; reflexivity.
  - exists (leaf "Month" "02"). split; vm_compute; reflexivity.
  - exists (leaf "Day" "29"). split; vm_compute; reflexivity.
Defined.

(** * The review classifier *)

Section Review.
Context {env : PyEnv}.

Lemma text_has_review_mesh (dn : element) :
  match el_text dn with
  | None => false
  | Some t => contains (py "review") (lower t)
  end = text_has_review dn.
Proof. unfold text_has_review. by destruct (el_text dn). Qed.

Lemma existsb_false_Forall {A} (p : A -> bool) l :
  existsb p l = false <-> Forall (fun x => p x = false) l.
Proof.
  induction l as [|x l IH]; cbn [existsb]; [by split; [constructor|]|].
  rewrite orb_false_iff, IH. split.
  - intros [? ?]. by constructor.
  - intros [? ?]%Forall_cons. done.
Qed.

Lemma mesh_loop_step mh rest :
  mesh_loop (mh :: rest) =
  match find (py "DescriptorName") mh with
  | None => Err AttributeError
  | Some dn => if text_has_review dn then Ok true else mesh_loop rest
  end.
Proof.
  cbn [mesh_loop]. destruct (find _ mh) as [dn|]; [|reflexivity].
  cbn [deref bind]. unfold text_has_review. by destruct (el_text dn).
Qed.

Lemma mesh_loop_false els : mesh_loop els = Ok false <-> Forall plain_heading els.
Proof.
  induction els as [|mh els IH]; [by split; [constructor|]|].
  rewrite mesh_loop_step, Forall_cons. unfold plain_heading at 1, no_review.
  destruct (find _ mh) as [dn|].
  - destruct (text_has_review dn) eqn:E.
    + split; [discriminate|]. intros [(dn' & [= <-] & ?) _]. congruence.
    + rewrite IH. split; [|by intros [_ ?]]. intros ?. split; [by exists dn|done].
  - split; [discriminate|]. by intros [(dn' & ? & _) _].
Qed.

Lemma mesh_loop_raises els e :
  mesh_loop els = Err e <->
  e = AttributeError
  /\ exists before mh after,
      els = before ++ mh :: after
      /\ Forall plain_heading before
      /\ find (py "DescriptorName") mh = None.
Proof.
  induction els as [|mh els IH].
  { split; [discriminate|]. intros (_ & [|??] & ? & ? & ? & _); discriminate. }
  rewrite mesh_loop_step. destruct (find _ mh) as [dn|] eqn:Ef.
  - destruct (text_has_review dn) eqn:E.
    + split; [discriminate|].
      intros (_ & [|b before] & mh' & after & Hels & Hb & Hf).
      * injection Hels as <- _. congruence.
      * injection Hels as <- _. apply Forall_cons in Hb as [(dn' & Hdn & Hno) _].
        unfold no_review in Hno. congruence.
    + rewrite IH. split.
      * intros (-> & before & mh' & after & -> & Hb & Hf). split; [done|].
        exists (mh :: before), mh', after. split; [done|]. split; [|done].
        constructor; [by exists dn|done].
      * intros (-> & [|b before] & mh' & after & Hels & Hb & Hf).
        -- injection Hels as <- _. congruence.
        -- injection Hels as <- ->. apply Forall_cons in Hb as [_ Hb].
           split; [done|]. by exists before, mh', after.
  - split.
    + intros [= <-]. split; [done|]. exists [], mh, els. by repeat split.
    + intros (-> & _). done.
Qed.

(** Where every heading has a descriptor name the loop raises nothing. *)
Lemma mesh_loop_total els :
  Forall has_descriptor els ->
  mesh_loop els = Ok true /\ Exists review_heading els
  \/ mesh_loop els = Ok false /\ Forall plain_heading els.
Proof.
  induction 1 as [|mh els [dn Hdn] _ IH]; [right; by split; [|constructor]|].
  rewrite mesh_loop_step, Hdn. destruct (text_has_review dn) eqn:E.
  - left. split; [done|]. left. by exists dn.
  - destruct IH as [[-> ?]|[-> ?]]; [left|right]; (split; [done|]).
    + by right.
    + constructor; [by exists dn|done].
Qed.

(** The classifier in terms of the three lists it reads. *)
Lemma is_review_unfold medline_citation_el :
  _is_review medline_citation_el =
  match find (py "Article") medline_citation_el with
  | None => Err AttributeError
  | Some article_el =>
      if existsb text_has_review (publication_types article_el) then Ok true
      else match mesh_loop (mesh_headings medline_citation_el) with
           | Ok true => Ok true
           | Ok false => Ok (existsb text_has_review (keywords medline_citation_el))
           | Err e => Err e
           end
  end.
Proof.
  unfold _is_review, publication_types, mesh_headings, keywords.
  destruct (find (py "Article") _) as [a|]; cbn [deref bind]; [|done].
  destruct (find (py "PublicationTypeList") a) as [l|].
  1: destruct (existsb text_has_review (findall (py "PublicationType") l)); [done|].
  all: cbn [existsb].
  all: destruct (find (py "MeshHeadingList") medline_citation_el) as [ml|].
  all: try (destruct (mesh_loop (findall (py "MeshHeading") ml)) as [[|]|e]);
    cbn [bind mesh_loop]; try done.
  all: by destruct (find (py "KeywordList") medline_citation_el).
Qed.

End Review.

(** X11: [_is_review] answers [False] exactly when the citation has an
    [Article], no publication type and no keyword has "review" in its
    text, and every MeSH heading has a descriptor name without "review"
    in it. *)
Theorem is_review_false_iff {env : PyEnv} (medline_citation_el : element) :
  _is_review medline_citation_el = Ok false
  <-> exists article_el,
      find (py "Article") medline_citation_el = Some article_el
      /\ Forall no_review (publication_types article_el)
      /\ Forall plain_heading (mesh_headings medline_citation_el)
      /\ Forall no_review (keywords medline_citation_el).
Proof.
  rewrite is_review_unfold. unfold no_review.
  destruct (find (py "Article") _) as [a|].
  2:{ split; [discriminate|]. by intros (? & ? & _). }
  destruct (existsb text_has_review (publication_types a)) eqn:Et.
  { split; [discriminate|]. intros (a' & [= <-] & Ht & _).
    apply existsb_false_Forall in Ht. congruence. }
  apply existsb_false_Forall in Et.
  destruct (mesh_loop _) as [[|]|e] eqn:Em.
  - split; [discriminate|]. intros (_ & _ & _ & Hm & _).
    apply mesh_loop_false in Hm. congruence.
  - apply mesh_loop_false in Em. split.
    + intros [= Ek]. apply existsb_false_Forall in Ek. by exists a.
    + intros (_ & _ & _ & _ & Hk). apply existsb_false_Forall in Hk.
      by rewrite Hk.
  - split; [discriminate|]. intros (_ & _ & _ & Hm & _).
    apply mesh_loop_false in Hm. congruence.
Qed.

(** X12: [_is_review] raises nothing but [AttributeError], and raises it
    exactly when the citation has no [Article], or when no publication
    type has "review" in it and a MeSH heading without [DescriptorName]
    comes before any heading with "review" in its descriptor name. *)
Theorem is_review_raises_iff {env : PyEnv} (medline_citation_el : element) (e : exn) :
  _is_review medline_citation_el = Err e
  <-> e = AttributeError
      /\ (find (py "Article") medline_citation_el = None
          \/ exists article_el before mesh_heading_el after,
              find (py "Article") medline_citation_el = Some article_el
              /\ Forall no_review (publication_types article_el)
              /\ mesh_headings medline_citation_el
                 = before ++ mesh_heading_el :: after
              /\ Forall plain_heading before
              /\ find (py "DescriptorName") mesh_heading_el = None).
Proof.
  rewrite is_review_unfold. unfold no_review.
  destruct (find (py "Article") _) as [a|].
  2:{ split; [intros [= <-]; split; [done|by left]|by intros [-> _]]. }
  destruct (existsb text_has_review (publication_types a)) eqn:Et.
  { split; [discriminate|].
    intros (_ & [?|(a' & ? & ? & ? & [= <-] & Ht & _)]); [done|].
    apply existsb_false_Forall in Ht. congruence. }
  apply existsb_false_Forall in Et.
  destruct (mesh_loop _) as [[|]|e'] eqn:Em.
  - split; [discriminate|].
    intros (-> & [?|(a' & b & mh & af & _ & _ & Hm)]); [done|].
    assert (mesh_loop (mesh_headings medline_citation_el) = Err AttributeError)
      as Hr by (apply mesh_loop_raises; split; [done|by exists b, mh, af]).
    congruence.
  - split; [discriminate|].
    intros (-> & [?|(a' & b & mh & af & _ & _ & Hm)]); [done|].
    assert (mesh_loop (mesh_headings medline_citation_el) = Err AttributeError)
      as Hr by (apply mesh_loop_raises; split; [done|by exists b, mh, af]).
    congruence.
  - apply mesh_loop_raises in Em as (-> & b & mh & af & Hm & Hb & Hf). split.
    + intros [= <-]. split; [done|]. right. by exists a, b, mh, af.
    + by intros [-> _].
Qed.

(** X13: a citation with "review" in the descriptor name of a MeSH heading
    or in a keyword is a review, provided it has an [Article] and every
    MeSH heading has a [DescriptorName]; its entry yields no record. *)
Theorem review_heading_or_keyword_discarded {env : PyEnv}
    (pubmed_article_el medline_citation_el article_el : element) :
  find (py "MedlineCitation") pubmed_article_el = Some medline_citation_el ->
  find (py "Article") medline_citation_el = Some article_el ->
  Forall has_descriptor (mesh_headings medline_citation_el) ->
  Exists review_heading (mesh_headings medline_citation_el)
  \/ Exists (fun e => text_has_review e = true) (keywords medline_citation_el) ->
  _is_review medline_citation_el = Ok true
  /\ _get_abstract_data_from_xml_el pubmed_article_el = Ok None.
Proof.
  intros Hmc Ha Hdesc Hrev.
  assert (_is_review medline_citation_el = Ok true) as Hreview.
  { rewrite is_review_unfold, Ha.
    destruct (existsb text_has_review (publication_types article_el)); [done|].
    destruct (mesh_loop_total _ Hdesc) as [[-> _]|[-> Hplain]]; [done|].
    destruct Hrev as [Hrev|Hrev].
    - apply Exists_exists in Hrev as (mh & Hin & dn & Hdn & Hr).
      rewrite Forall_forall in Hplain.
      destruct (Hplain mh Hin) as (dn' & Hdn' & Hno). unfold no_review in Hno.
      congruence.
    - f_equal. apply existsb_exists.
      apply Exists_exists in Hrev as (kw & Hin & Hr).
      exists kw. split; [by apply list_elem_of_In|done]. }
  split; [done|].
  unfold _get_abstract_data_from_xml_el. rewrite Hmc. cbn [deref bind].
  destruct (find (py "PMID") medline_citation_el); [|done].
  by rewrite Hreview.
Qed.

Lemma review_heading_or_keyword_discarded_witness :
  find (py "MedlineCitation") keyword_article = Some keyword_citation
  /\ Forall has_descriptor (mesh_headings keyword_citation)
  /\ Exists (fun e => @text_has_review basic_env e = true)
       (keywords keyword_citation)
  /\ @_is_review basic_env keyword_citation = Ok true
  /\ @_get_abstract_data_from_xml_el basic_env keyword_article = Ok None.
Proof.
  assert (find (py "MedlineCitation") keyword_article = Some keyword_citation)
    as H1 by (vm_compute; reflexivity).
  assert (find (py "Article") keyword_citation = Some (branch "Article" []))
    as H2 by (vm_compute; reflexivity).
  assert (Forall has_descriptor
            (mesh_headings keyword_citation)) as H3.
  { apply Forall_cons. split; [|apply Forall_nil_2].
    exists (leaf "DescriptorName" "Cannabis"). vm_compute; reflexivity. }
  assert (Exists (fun e => @text_has_review basic_env e = true)
            (keywords keyword_citation)) as H4.
  { apply Exists_cons_hd. vm_compute; reflexivity. }
  split; [exact H1|]. split; [exact H3|]. split; [exact H4|].
  exact (review_heading_or_keyword_discarded _ _ _ H1 H2 H3 (or_intror H4)).
Defined.

Section PhraseTest.

(** A part of the image of a text is the image of a part. *)
Lemma infix_map_inv {A B} (f : A -> B) (p : list B) (t : list A) :
  (exists a b, List.map f t = a ++ p ++ b)
  <-> exists w a b, t = a ++ w ++ b /\ List.map f w = p.
Proof.
  split.
  - intros (a & b & E).
    apply map_eq_app in E as (ta & t' & -> & <- & E).
    apply map_eq_app in E as (w & tb & -> & <- & <-).
    by exists w, ta, tb.
  - intros (w & a & b & -> & <-). exists (List.map f a), (List.map f b).
    by rewrite !List.map_app.
Qed.

End PhraseTest.

(** X14: on a text of ASCII the phrase test is true exactly when the text
    has "systematic review" in it in some mix of small and capital
    letters. *)
Theorem is_review_in_text_ascii {env : PyEnv} (text : pystr) :
  Forall (fun c => c < 128) text ->
  (_is_review_in_text text = true
   <-> exists w, infix w text /\ List.map ascii_lower w = py "systematic review").
Proof.
  intros H. unfold _is_review_in_text, filtering_phrases. cbn [existsb].
  rewrite orb_false_r, lower_ascii, contains_spec by done. unfold infix.
  rewrite infix_map_inv. split.
  - intros (w & a & b & -> & E). exists w. split; [by exists a, b|done].
  - intros (w & (a & b & ->) & E). by exists w, a, b.
Qed.

Lemma is_review_in_text_ascii_witness :
  Forall (fun c => c < 128) (py "A Systematic Review of sleep")
  /\ (@_is_review_in_text basic_env (py "A Systematic Review of sleep") = true
      <-> exists w, infix w (py "A Systematic Review of sleep")
                    /\ List.map ascii_lower w = py "systematic review").
Proof.
  assert (Forall (fun c => c < 128) (py "A Systematic Review of sleep")) as H.
  { vm_compute.
    repeat (first [ apply Forall_nil_2
                  | apply Forall_cons; split; [reflexivity|] ]). }
  split; [exact H|]. exact (is_review_in_text_ascii _ H).
Defined.

(** * Records *)

Section Records.
Context {env : PyEnv}.

Lemma texts_loop_spec els : forall texts,
  texts_loop els texts = texts ++ omap abstract_text_entry els.
Proof.
  induction els as [|el els IH]; intros texts; cbn [texts_loop omap list_omap].
  { by rewrite app_nil_r. }
  unfold abstract_text_entry at 1.
  destruct (_clean_text (tostring el)) as [|c t]; [apply IH|].
  rewrite IH, <- app_assoc. f_equal. cbn [app]. f_equal.
  by destruct (attrib_get _ el).
Qed.

Lemma final_record_keys g a dc dr da k :
  is_Some (final_record g a dc dr da !! k) ->
  is_Some (g !! k)
  \/ k ∈ ["authors"; "collective_name"; "date_completed"; "date_revised";
          "date_article"]%string.
Proof.
  unfold final_record, with_authors, with_collective_name.
  intros H.
  repeat (apply lookup_insert_is_Some in H as [<-|[_ H]]; [right; by repeat constructor|]).
  destruct (_get_authors a).2, (_get_authors a).1;
    repeat (apply lookup_insert_is_Some in H as [<-|[_ H]]; [right; by repeat constructor|]);
    by left.
Qed.

Lemma gated_record_keys pmid_el a date jt k :
  is_Some (gated_record pmid_el a date jt !! k) ->
  k ∈ ["title"; "journal_title"; "date"; "abstract_texts"; "id"; "pmid"]%string.
Proof.
  unfold gated_record, with_title, with_abstract_texts. intros H.
  destruct (cleaned_title a), (_get_texts a);
    repeat (apply lookup_insert_is_Some in H as [<-|[_ H]]; [by repeat constructor|]);
    by apply is_Some_None in H.
Qed.

End Records.

(** X15: the abstract texts are the entries of the [AbstractText] elements
    of the article's [Abstract], in document order; an element whose
    cleaned text is empty has no entry, and an entry has the key
    [nlm_category] exactly when the element has the attribute
    [NlmCategory]. *)
Theorem get_texts_in_document_order {env : PyEnv} (article_el : element) :
  _get_texts article_el
  = omap abstract_text_entry (abstract_text_elements article_el).
Proof.
  unfold _get_texts, abstract_text_elements.
  destruct (find (py "Abstract") article_el); [|done].
  by rewrite texts_loop_spec.
Qed.

(** X16: a record has the keys [pmid], [id], [date], [journal_title],
    [date_completed], [date_revised] and [date_article], and apart from
    them no key but [title], [abstract_texts], [authors] and
    [collective_name]. *)
Theorem record_keys {env : PyEnv} (pubmed_article_el : element)
    (r : gmap string pyval) :
  _get_abstract_data_from_xml_el pubmed_article_el = Ok (Some r) ->
  (forall k, k ∈ required_keys -> is_Some (r !! k))
  /\ (forall k, is_Some (r !! k) -> k ∈ required_keys ++ optional_keys).
Proof.
  intros (mc & pmid_el & a & date & jt & dc & dr & da & _ & _ & _ & _ & _ & _
          & _ & _ & _ & _ & _ & ->)%extract_Some.
  split.
  - intros k Hk. unfold required_keys in Hk.
    destruct (final_dates (gated_record pmid_el a date jt) a dc dr da)
      as (H1 & H2 & H3).
    repeat (apply elem_of_cons in Hk as [->|Hk];
            [first [ by rewrite H1 | by rewrite H2 | by rewrite H3
                   | rewrite final_other by done;
                     unfold gated_record, with_title, with_abstract_texts;
                     repeat case_match; by simplify_map_eq ]|]).
    by apply elem_of_nil in Hk.
  - intros k [Hk|Hk]%final_record_keys.
    + apply gated_record_keys in Hk. unfold required_keys, optional_keys.
      repeat (apply elem_of_cons in Hk as [->|Hk]; [by repeat constructor|]).
      by apply elem_of_nil in Hk.
    + unfold required_keys, optional_keys.
      repeat (apply elem_of_cons in Hk as [->|Hk]; [by repeat constructor|]).
      by apply elem_of_nil in Hk.
Qed.

(** X17: the [id] of a record is the source name, an underscore and the
    [pmid]; for a [PMID] element without text the [pmid] is [None] and the
    [id] ends in the word "None". *)
Theorem record_id {env : PyEnv} (pubmed_article_el : element)
    (r : gmap string pyval) :
  _get_abstract_data_from_xml_el pubmed_article_el = Ok (Some r) ->
  (exists pmid, r !! "pmid" = Some (VStr pmid)
                /\ r !! "id" = Some (VStr (py "pubmed_" ++ pmid)))
  \/ (r !! "pmid" = Some VNone /\ r !! "id" = Some (VStr (py "pubmed_None"))).
Proof.
  intros (mc & pmid_el & a & date & jt & dc & dr & da & _ & _ & _ & _ & _ & _
          & _ & _ & _ & _ & _ & ->)%extract_Some.
  rewrite !final_other by done.
  assert (gated_record pmid_el a date jt !! "id"
          = Some (VStr (source_name ++ py "_" ++ fmt_opt (el_text pmid_el)))) as ->.
  { unfold gated_record, with_title, with_abstract_texts.
    repeat case_match; by simplify_map_eq. }
  rewrite gated_pmid.
  destruct (el_text pmid_el) as [pmid|]; [left; by exists pmid|by right].
Qed.

Lemma record_keys_witness :
  @_get_abstract_data_from_xml_el basic_env
    (sample_article both_dates "Journal Article" "Sleep improved.")
  = Ok (Some sample_record)
  /\ (forall k, k ∈ required_keys -> is_Some (sample_record !! k))
  /\ (forall k, is_Some (sample_record !! k) -> k ∈ required_keys ++ optional_keys).
Proof.
  assert (@_get_abstract_data_from_xml_el basic_env
            (sample_article both_dates "Journal Article" "Sleep improved.")
          = Ok (Some sample_record)) as H by (vm_compute; reflexivity).
  split; [exact H|]. exact (record_keys _ _ H).
Defined.

Lemma record_id_witness :
  @_get_abstract_data_from_xml_el basic_env
    (sample_article both_dates "Journal Article" "Sleep improved.")
  = Ok (Some sample_record)
  /\ ((exists pmid, sample_record !! "pmid" = Some (VStr pmid)
                    /\ sample_record !! "id" = Some (VStr (py "pubmed_" ++ pmid)))
      \/ (sample_record !! "pmid" = Some VNone
          /\ sample_record !! "id" = Some (VStr (py "pubmed_None")))).
Proof.
  assert (@_get_abstract_data_from_xml_el basic_env
            (sample_article both_dates "Journal Article" "Sleep improved.")
          = Ok (Some sample_record)) as H by (vm_compute; reflexivity).
  split; [exact H|]. exact (record_id _ _ H).
Defined.

(** X18: whatever it is given, [_clean_text] returns a text without
    whitespace at either end and without two whitespace characters in a
    row. *)
Theorem clean_text_whitespace {env : PyEnv} (text : pystr) :
  trimmed (_clean_text text) /\ single_spaced (_clean_text text) = true.
Proof.
  unfold _clean_text. split; [apply strip_trimmed|].
  rewrite sub_whitespaces. apply strip_single_spaced, collapse_single_spaced.
Qed.

(** X19: of a text of whitespace alone, the empty text among them,
    [_clean_text] leaves nothing. *)
Theorem clean_text_blank {env : PyEnv} (text : pystr) :
  Forall (fun c => is_space c = true) text -> _clean_text text = [].
Proof.
  intros H. rewrite clean_text_plain; [by apply clean_blank|].
  eapply Forall_impl; [exact H|]. intros c Hc.
  pose proof (space_not_special c Hc) as (? & _). split; [|done].
  intros ->. discriminate Hc.
Qed.

Lemma clean_text_blank_witness :
  Forall (fun c => is_space c = true) [32; 10; 9; 32]
  /\ @_clean_text basic_env [32; 10; 9; 32] = [].
Proof.
  assert (Forall (fun c => is_space c = true) [32; 10; 9; 32]) as H.
  { repeat (first [ apply Forall_nil_2
                  | apply Forall_cons; split; [reflexivity|] ]). }
  split; [exact H|]. exact (clean_text_blank _ H).
Defined.

Section RecordTexts.
Context {env : PyEnv}.

Lemma clean_nonempty_clean_text text :
  _clean_text text <> [] -> clean_nonempty (_clean_text text).
Proof.
  intros H. split; [done|]. unfold _clean_text. split; [|apply strip_trimmed].
  rewrite sub_whitespaces. apply strip_single_spaced, collapse_single_spaced.
Qed.

Lemma abstract_text_entry_clean el d :
  abstract_text_entry el = Some d ->
  exists t rest, d = (py "text", t) :: rest /\ clean_nonempty t.
Proof.
  unfold abstract_text_entry.
  destruct (_clean_text (tostring el)) as [|c t] eqn:E; [discriminate|].
  intros [= <-]. eexists _, _. split; [reflexivity|].
  rewrite <- E. apply clean_nonempty_clean_text. by rewrite E.
Qed.

End RecordTexts.

(** X20: in every record the generator yields, the title, where there is
    one, and the text of every entry of the abstract texts are not empty,
    have no whitespace at either end and no two whitespace characters in
    a row. *)
Theorem record_texts_clean {env : PyEnv} (root : element) (r : gmap string pyval) :
  r ∈ (parse_file root).1 ->
  (forall t, r !! "title" = Some (VStr t) -> clean_nonempty t)
  /\ (forall ts, r !! "abstract_texts" = Some (VTexts ts) ->
        Forall (fun d : text_dict =>
                  exists t rest, d = (py "text", t) :: rest /\ clean_nonempty t) ts).
Proof.
  intros Hin. unfold parse_file in Hin.
  apply parse_articles_yields in Hin as (el & _ & Hel).
  apply extract_Some in Hel
    as (mc & pmid_el & a & date & jt & dc & dr & da & _ & _ & _ & _ & _ & _
        & _ & _ & _ & _ & _ & ->).
  rewrite !final_other by done.
  rewrite gated_title, gated_abstract_texts. split.
  - intros t. unfold cleaned_title.
    destruct (find (py "ArticleTitle") a) as [te|]; [|discriminate].
    destruct (_clean_text (tostring te)) as [|c t'] eqn:E; [discriminate|].
    intros [= <-]. rewrite <- E. apply clean_nonempty_clean_text. by rewrite E.
  - intros ts Hts.
    assert (ts = _get_texts a) as -> by (destruct (_get_texts a); congruence).
    unfold _get_texts. destruct (find (py "Abstract") a); [|constructor].
    rewrite texts_loop_spec. cbn [app]. apply Forall_forall. intros d Hd.
    apply list_elem_of_omap in Hd as (ael & _ & Hd).
    by eapply abstract_text_entry_clean.
Qed.

Lemma record_texts_clean_witness :
  sample_record ∈ (@parse_file basic_env sample_set).1
  /\ (forall t, sample_record !! "title" = Some (VStr t) -> clean_nonempty t)
  /\ (forall ts, sample_record !! "abstract_texts" = Some (VTexts ts) ->
        Forall (fun d : text_dict =>
                  exists t rest, d = (py "text", t) :: rest /\ clean_nonempty t) ts).
Proof.
  assert (sample_record ∈ (@parse_file basic_env sample_set).1) as H.
  { assert ((@parse_file basic_env sample_set).1 = [sample_record]) as ->
      by (vm_compute; reflexivity).
    by left. }
  split; [exact H|]. exact (record_texts_clean _ _ H).
Defined.

(** * Facts about the markup parser *)

Section Tokens.
Context {env : PyEnv}.

Lemma tokenize_from_skip k s : tokenize_from k s = tokenize (drop k s).
Proof.
  revert k. induction s as [|c s IH]; intros [|k]; try reflexivity.
  cbn [tokenize_from drop]. apply IH.
Qed.

(** One token, and the tokens of what is left. *)
Lemma tokenize_step c t tok n :
  token_at (c :: t) = (tok, S n) -> tokenize (c :: t) = tok :: tokenize (drop n t).
Proof.
  intros H. unfold tokenize at 1. cbn [tokenize_from]. rewrite H.
  rewrite tokenize_from_skip. by replace (S n - 1)%nat with n by lia.
Qed.

Lemma plain_text_char c : plain_char c <-> is_text_char c = true.
Proof.
  unfold plain_char, is_text_char.
  destruct (N.eqb_spec c 60), (N.eqb_spec c 38); cbn; split; try done;
    intros [? ?]; done.
Qed.

Lemma tokenize_text_head c t :
  plain_char c ->
  tokenize (c :: t)
  = TData (c :: fst (span is_text_char t)) :: tokenize (snd (span is_text_char t)).
Proof.
  intros Hc.
  pose proof (span_app is_text_char t) as Happ.
  assert (token_at (c :: t)
          = (TData (c :: fst (span is_text_char t)),
             S (length (fst (span is_text_char t))))) as H.
  { unfold token_at. destruct Hc as [H1 H2].
    destruct (N.eqb_spec c 60); [done|]. destruct (N.eqb_spec c 38); [done|].
    change (fun c0 : N => negb ((c0 =? 60) || (c0 =? 38))) with is_text_char.
    cbn [span]. unfold is_text_char at 1.
    destruct (N.eqb_spec c 60); [done|]. destruct (N.eqb_spec c 38); [done|].
    cbn [orb negb]. by destruct (span is_text_char t). }
  rewrite (tokenize_step _ _ _ _ H). f_equal.
  rewrite <- (drop_app_length (fst (span is_text_char t)) (snd (span is_text_char t))).
  by rewrite Happ.
Qed.

(** A character of text goes to the text gathered so far. *)
Lemma build_text_char c t data cur stack :
  plain_char c ->
  build (tokenize (c :: t)) data cur stack = build (tokenize t) (data ++ [c]) cur stack.
Proof.
  intros Hc. rewrite tokenize_text_head by done. cbn [build].
  pose proof (span_app is_text_char t) as Happ.
  pose proof (span_fst_Forall is_text_char t) as Hrun.
  destruct (span is_text_char t) as [[|d run] rest] eqn:E; cbn [fst snd] in *.
  - by subst t.
  - subst t. apply Forall_cons in Hrun as [Hd _].
    apply plain_text_char in Hd.
    change ((d :: run) ++ rest) with (d :: (run ++ rest)).
    rewrite (tokenize_text_head d) by done. cbn [build].
    assert (span is_text_char (run ++ rest) = (run, rest)) as ->.
    { cbn [span app] in E. apply plain_text_char in Hd. rewrite Hd in E.
      destruct (span is_text_char (run ++ rest)). by injection E as -> ->. }
    cbn [fst snd]. by rewrite <- app_assoc.
Qed.

Lemma build_text s t data cur stack :
  Forall plain_char s ->
  build (tokenize (s ++ t)) data cur stack = build (tokenize t) (data ++ s) cur stack.
Proof.
  intros H. revert data. induction H as [|c s Hc _ IH]; intros data.
  - by rewrite app_nil_r.
  - cbn [app]. rewrite build_text_char by done. rewrite IH.
    by rewrite <- app_assoc.
Qed.

Lemma letter_bounds c : is_ascii_letter c = true -> 65 <= c /\ c <= 122.
Proof.
  unfold is_ascii_letter. rewrite orb_true_iff, !andb_true_iff, !N.leb_le. lia.
Qed.

Lemma letter_tag_name_char c : is_ascii_letter c = true -> is_tag_name_char c = true.
Proof.
  intros H%letter_bounds. unfold is_tag_name_char.
  repeat match goal with
         | |- context [?a =? ?b] => destruct (N.eqb_spec a b); try lia
         end; reflexivity.
Qed.

(** The name the parser reads off a tag whose name is of letters. *)
Lemma tag_name_letters name t :
  Forall (fun c => is_ascii_letter c = true) name ->
  match t with c :: _ => is_tag_name_char c = false | [] => True end ->
  tag_name (name ++ t) = List.map ascii_lower name.
Proof.
  intros Hn Ht. unfold tag_name. rewrite span_app_stop; [|by eapply Forall_impl; [exact Hn|apply letter_tag_name_char]|done].
  cbn [fst]. apply lower_ascii.
  eapply Forall_impl; [exact Hn|]. intros c Hc%letter_bounds. lia.
Qed.

Lemma uint_digits_range u : Forall (fun c => 48 <= c /\ c <= 57) (uint_digits u).
Proof. induction u; cbn [uint_digits]; constructor; (lia || done). Qed.

Lemma charref_of_no_gt c : Forall (fun d => d <> 62) (charref_of c).
Proof.
  unfold charref_of, decimal_digits. change (py "&#") with [38; 35].
  change (py ";") with [59].
  repeat (apply Forall_cons; split; [done|]).
  apply Forall_app. split; [|by repeat constructor].
  eapply Forall_impl; [apply uint_digits_range|]. intros d [? ?]. lia.
Qed.

Lemma escape_attr_no_gt v : Forall (fun d => d <> 62) (flat_map escape_attr_char v).
Proof.
  induction v as [|c v IH]; cbn [flat_map]; [constructor|].
  apply Forall_app. split; [|done].
  unfold escape_attr_char, escape_text_char.
  repeat case_match; try apply charref_of_no_gt;
    try (vm_compute; by repeat constructor).
  apply Forall_singleton. by apply N.eqb_neq.
Qed.

Lemma attr_string_shape kv :
  Forall (fun c => is_ascii_letter c = true) (fst kv) ->
  exists body, attr_string kv = 32 :: body ++ [34] /\ Forall (fun d => d <> 62) body.
Proof.
  intros Hk. unfold attr_string. change (py "=") with [61].
  exists (fst kv ++ [61] ++ 34 :: flat_map escape_attr_char (snd kv)). split.
  - cbn [app]. f_equal. rewrite <- !app_assoc. by cbn [app].
  - apply Forall_app. split.
    + eapply Forall_impl; [exact Hk|]. intros c Hc%letter_bounds. lia.
    + repeat (apply Forall_cons; split; [done|]). apply escape_attr_no_gt.
Qed.

(** What stands between the name and the [>] of a start tag: nothing, or a
    text that starts with a space, ends with a quote and has no [>]. *)
Lemma attrs_shape attrs :
  Forall (fun kv => Forall (fun c => is_ascii_letter c = true) (fst kv)) attrs ->
  concat (List.map attr_string attrs) = []
  \/ exists body, concat (List.map attr_string attrs) = 32 :: body ++ [34]
                  /\ Forall (fun d => d <> 62) body.
Proof.
  induction 1 as [|kv attrs Hkv _ IH]; [by left|]. right.
  cbn [List.map concat].
  destruct (attr_string_shape kv Hkv) as (b1 & -> & Hb1).
  destruct IH as [->|(b2 & -> & Hb2)].
  - exists b1. by rewrite app_nil_r.
  - exists (b1 ++ 34 :: 32 :: b2). split.
    + cbn [app]. f_equal. rewrite <- !app_assoc. by cbn [app].
    + apply Forall_app. split; [done|]. by repeat (apply Forall_cons; split; [done|]).
Qed.

Lemma tokenize_start_tag name attrs rest :
  letters name ->
  Forall (fun kv => Forall (fun c => is_ascii_letter c = true) (fst kv)) attrs ->
  tokenize (start_tag name attrs ++ rest)
  = TStart (List.map ascii_lower name) :: tokenize rest.
Proof.
  intros [Hne Hn] Ha. unfold start_tag.
  set (astr := concat (List.map attr_string attrs)).
  assert (Forall (fun c => c <> 62) name) as Hn62.
  { eapply Forall_impl; [exact Hn|]. intros c Hc%letter_bounds. lia. }
  assert (Forall (fun c => c <> 62) astr
          /\ ends_with_slash (name ++ astr) = false
          /\ tag_name (name ++ astr) = List.map ascii_lower name) as (Ha62 & Hslash & Htag).
  { destruct (attrs_shape attrs Ha) as [E|(body & E & Hb)]; fold astr in E; rewrite E.
    - split; [constructor|]. rewrite app_nil_r. split.
      + unfold ends_with_slash.
        destruct name as [|c name _] using rev_ind; [done|].
        rewrite rev_unit. apply Forall_app in Hn as [_ Hc].
        apply Forall_singleton, letter_bounds in Hc.
        by destruct (N.eqb_spec c 47); [lia|].
      + rewrite <- (app_nil_r name) at 1. by apply tag_name_letters.
    - split; [|split].
      + apply Forall_cons. split; [done|]. apply Forall_app. split; [done|].
        by apply Forall_singleton.
      + unfold ends_with_slash.
        replace (name ++ 32 :: body ++ [34]) with ((name ++ 32 :: body) ++ [34])
          by by rewrite <- app_assoc.
        by rewrite rev_unit.
      + by apply tag_name_letters. }
  cbn [app].
  replace (name ++ astr ++ [62]) with ((name ++ astr) ++ [62]) by by rewrite <- app_assoc.
  rewrite <- app_assoc. cbn [app].
  assert (token_at (60 :: (name ++ astr) ++ 62 :: rest)
          = (TStart (List.map ascii_lower name), S (S (length (name ++ astr))))) as H.
  { unfold token_at. rewrite N.eqb_refl. unfold markup_token.
    rewrite (span_app_stop _ (name ++ astr) (62 :: rest)).
    2:{ apply Forall_app. split; (eapply Forall_impl; [eassumption|]);
          intros c Hc; by apply negb_true_iff, N.eqb_neq. }
    2:{ reflexivity. }
    destruct name as [|c name]; [done|].
    apply Forall_cons in Hn as [Hc Hn]. cbn [app strip_prefix].
    pose proof (letter_bounds c Hc).
    destruct (N.eqb_spec 33 c); [lia|].
    rewrite Hc. cbn [app] in Hslash, Htag. rewrite Hslash, Htag.
    f_equal. cbn [length]. lia. }
  rewrite (tokenize_step _ _ _ _ H). f_equal.
  replace ((name ++ astr) ++ 62 :: rest) with (((name ++ astr) ++ [62]) ++ rest)
    by by rewrite <- app_assoc.
  f_equal. apply drop_after. rewrite !length_app. cbn [length]. lia.
Qed.

Lemma tokenize_end_tag name rest :
  letters name ->
  tokenize (end_tag name ++ rest) = TEnd (List.map ascii_lower name) :: tokenize rest.
Proof.
  intros [Hne Hn]. unfold end_tag. cbn [app]. rewrite <- app_assoc. cbn [app].
  assert (Forall (fun c => c <> 62) name) as Hn62.
  { eapply Forall_impl; [exact Hn|]. intros c Hc%letter_bounds. lia. }
  assert (token_at (60 :: 47 :: name ++ 62 :: rest)
          = (TEnd (List.map ascii_lower name), S (S (S (length name))))) as H.
  { unfold token_at. rewrite N.eqb_refl. unfold markup_token.
    rewrite (span_app_stop _ (47 :: name) (62 :: rest)).
    2:{ apply Forall_cons. split; [done|]. eapply Forall_impl; [exact Hn62|].
        intros c Hc. by apply negb_true_iff, N.eqb_neq. }
    2:{ reflexivity. }
    cbn [strip_prefix]. replace (33 =? 47) with false by done.
    replace (is_ascii_letter 47) with false by done. rewrite N.eqb_refl.
    rewrite tag_name_letters by done.
    destruct name as [|d name]; [done|].
    apply Forall_cons in Hn as [Hd _]. cbn [app]. rewrite Hd.
    f_equal. cbn [length]. lia. }
  rewrite (tokenize_step _ _ _ _ H). f_equal. cbn [drop]. f_equal.
  replace (name ++ 62 :: rest) with ((name ++ [62]) ++ rest) by by rewrite <- app_assoc.
  apply drop_after. rewrite length_app. cbn [length]. lia.
Qed.

End Tokens.

Lemma attr_names_letters (attrs : list (pystr * pystr)) :
  Forall (fun kv => letters (fst kv)) attrs ->
  Forall (fun kv => Forall (fun c => is_ascii_letter c = true) (fst kv)) attrs.
Proof.
  intros H. eapply Forall_impl; [exact H|]. by intros kv [_ ?].
Qed.

Section OneElement.
Context {env : PyEnv}.

Lemma kept_data_string s stack : kept_text s -> end_data s [] stack = end_data s [] [] /\
  get_text (end_data s [] stack) = s.
Proof.
  intros [->|H]; [done|]. destruct s as [|c s]; [done|].
  unfold end_data, data_string. rewrite H. cbn [andb]. split; [done|].
  unfold get_text. cbn. by rewrite app_nil_r.
Qed.

Lemma end_data_app s cur stack : end_data s cur stack = end_data s [] stack ++ cur.
Proof. by destruct s. Qed.

(** The tree of a text with one element in it. *)
Lemma html_parse_element name attrs a b c :
  letters name ->
  Forall (fun kv => Forall (fun c => is_ascii_letter c = true) (fst kv)) attrs ->
  Forall plain_char a -> Forall plain_char b -> Forall plain_char c ->
  html_parse (a ++ start_tag name attrs ++ b ++ end_tag name ++ c)
  = rev (end_data a [] [])
    ++ [Tag (List.map ascii_lower name)
          (rev (end_data b [] [(List.map ascii_lower name, end_data a [] [])]))]
    ++ rev (end_data c [] []).
Proof.
  intros Hn Hattrs Ha Hb Hc. unfold html_parse.
  rewrite build_text by done. rewrite tokenize_start_tag by done.
  cbn [build app]. rewrite build_text by done. rewrite tokenize_end_tag by done.
  cbn [build app fmap list_fmap fst].
  rewrite bool_decide_true by by left. cbn [pop_to].
  rewrite bool_decide_true by done.
  rewrite <- (app_nil_r c) at 1. rewrite build_text by done.
  cbn [tokenize tokenize_from build close_all app].
  rewrite (end_data_app c). rewrite rev_app_distr. cbn [rev app].
  by rewrite <- !app_assoc.
Qed.

Lemma get_text_app x y : get_text (x ++ y) = get_text x ++ get_text y.
Proof. unfold get_text. by rewrite List.map_app, concat_app. Qed.

Lemma extract_links_app x y : extract_links (x ++ y) = extract_links x ++ extract_links y.
Proof. unfold extract_links. by rewrite List.map_app, concat_app. Qed.

Lemma replace_sub_sup_app x y :
  replace_sub_sup (x ++ y) = replace_sub_sup x ++ replace_sub_sup y.
Proof. apply List.map_app. Qed.

(** A string of the tree goes through the two passes over the elements. *)
Lemma text_passes s stack :
  replace_sub_sup (extract_links (rev (end_data s [] stack)))
  = rev (end_data s [] stack).
Proof. by destruct s. Qed.

Lemma get_text_rev_end_data s stack :
  get_text (rev (end_data s [] stack)) = get_text (end_data s [] stack).
Proof. by destruct s. Qed.

End OneElement.

Section OneElementText.
Context {env : PyEnv}.

Lemma clean_text_tidy text :
  _clean_text text
  = tidy (_decode_unicode_references
            (get_text (replace_sub_sup (extract_links (html_parse text))))).
Proof. reflexivity. Qed.

Lemma plain_no_amp s : Forall plain_char s -> Forall (fun c => c <> 38) s.
Proof. intros H. eapply Forall_impl; [exact H|]. by intros c [_ ?]. Qed.

(** The text of the tree of a text with one element, after the two passes:
    [inner] is what the passes leave of the element. *)
Lemma element_text name attrs a b c inner :
  letters name ->
  Forall (fun kv => Forall (fun c => is_ascii_letter c = true) (fst kv)) attrs ->
  Forall plain_char a -> Forall plain_char b -> Forall plain_char c ->
  kept_text a -> kept_text c ->
  (forall cs, cs = [] \/ (exists s, cs = [Text s]) ->
     get_text (replace_sub_sup (extract_links
                 [Tag (List.map ascii_lower name) cs])) = inner (get_text cs)) ->
  (forall t, Forall plain_char (inner t)) \/ (kept_text b /\ Forall plain_char (inner b)) ->
  exists b', (kept_text b -> b' = b)
    /\ _clean_text (a ++ start_tag name attrs ++ b ++ end_tag name ++ c)
       = tidy (a ++ inner b' ++ c).
Proof.
  intros Hn Hattrs Ha Hb Hc Hka Hkc Hinner Hplain.
  exists (get_text (end_data b []
            [(List.map ascii_lower name, end_data a [] [])])).
  split; [intros Hkb; apply (kept_data_string b _ Hkb)|].
  rewrite clean_text_tidy, html_parse_element by done.
  rewrite !extract_links_app, !replace_sub_sup_app, !get_text_app.
  rewrite !text_passes, !get_text_rev_end_data, Hinner, get_text_rev_end_data.
  2:{ destruct b; [by left|right]. by eexists. }
  rewrite (proj2 (kept_data_string a [] Hka)), (proj2 (kept_data_string c [] Hkc)).
  rewrite decode_no_amp; [done|].
  apply plain_no_amp. apply Forall_app. split; [done|].
  apply Forall_app. split; [|done].
  destruct Hplain as [H|[Hkb H]]; [apply H|].
  by rewrite (proj2 (kept_data_string b _ Hkb)).
Qed.

Lemma letters_literal (name : string) :
  name <> EmptyString ->
  forallb is_ascii_letter (py name) = true -> letters (py name).
Proof.
  intros Hne H. split.
  - destruct name; [done|]. discriminate.
  - by apply forallb_Forall.
Qed.

End OneElementText.

(** X21: a link, [a] or [xref], between plain texts is taken out with
    everything in it. *)
Theorem clean_text_drops_link {env : PyEnv} (name : pystr)
    (attrs : list (pystr * pystr)) (a b c : pystr) :
  name ∈ link_tags ->
  Forall (fun kv => letters (fst kv)) attrs ->
  Forall plain_char a -> Forall plain_char b -> Forall plain_char c ->
  kept_text a -> kept_text c ->
  _clean_text (a ++ start_tag name attrs ++ b ++ end_tag name ++ c)
  = _clean_text (a ++ c).
Proof.
  intros Hname Hattrs Ha Hb Hc Hka Hkc. apply attr_names_letters in Hattrs.
  rewrite (clean_text_plain (a ++ c)) by by apply Forall_app.
  assert (letters name /\ List.map ascii_lower name = name) as [Hl Hlow].
  { apply elem_of_cons in Hname as [->|Hname];
      [by split; [apply letters_literal|]|].
    apply list_elem_of_singleton in Hname as ->.
    by split; [apply letters_literal|]. }
  destruct (element_text name attrs a b c (fun _ => []) Hl Hattrs Ha Hb Hc Hka Hkc)
    as (b' & _ & ->); [|by left|done].
  intros cs _. rewrite Hlow.
  apply elem_of_cons in Hname as [->|Hname]; [done|].
  by apply list_elem_of_singleton in Hname as ->.
Qed.

Lemma clean_text_drops_link_witness :
  py "a" ∈ link_tags
  /\ @_clean_text basic_env
       (py "see " ++ start_tag (py "a") [(py "href", py "x")] ++ py "ref 1"
        ++ end_tag (py "a") ++ py " here")
     = @_clean_text basic_env (py "see " ++ py " here").
Proof.
  assert (py "a" ∈ link_tags) as Hname by (unfold link_tags; set_unfold; tauto).
  assert (Forall (fun kv : pystr * pystr => letters (fst kv)) [(py "href", py "x")])
    as Hattrs.
  { apply Forall_cons. split; [|apply Forall_nil_2].
    split; [discriminate|]. by apply forallb_Forall. }
  assert (Forall plain_char (py "see ")) as Ha.
  { vm_compute.
    repeat (first [ apply Forall_nil_2
                  | apply Forall_cons; split; [split; discriminate|] ]). }
  assert (Forall plain_char (py "ref 1")) as Hb.
  { vm_compute.
    repeat (first [ apply Forall_nil_2
                  | apply Forall_cons; split; [split; discriminate|] ]). }
  assert (Forall plain_char (py " here")) as Hc.
  { vm_compute.
    repeat (first [ apply Forall_nil_2
                  | apply Forall_cons; split; [split; discriminate|] ]). }
  split; [exact Hname|].
  exact (clean_text_drops_link _ _ _ _ _ Hname Hattrs Ha Hb Hc
           (or_intror eq_refl) (or_intror eq_refl)).
Defined.

(** X22: a subscript or superscript, [sub] or [sup], between plain texts is
    replaced by a hyphen and its text. *)
Theorem clean_text_replaces_script {env : PyEnv} (name : pystr)
    (attrs : list (pystr * pystr)) (a b c : pystr) :
  name ∈ script_tags ->
  Forall (fun kv => letters (fst kv)) attrs ->
  Forall plain_char a -> Forall plain_char b -> Forall plain_char c ->
  kept_text a -> kept_text b -> kept_text c ->
  _clean_text (a ++ start_tag name attrs ++ b ++ end_tag name ++ c)
  = _clean_text (a ++ py "-" ++ b ++ c).
Proof.
  intros Hname Hattrs Ha Hb Hc Hka Hkb Hkc. apply attr_names_letters in Hattrs. change (py "-") with [45].
  assert (Forall plain_char (45 :: b)) as Hb'
    by (apply Forall_cons; split; [split; discriminate|done]).
  rewrite (clean_text_plain (a ++ [45] ++ b ++ c)).
  2:{ apply Forall_app. split; [done|]. cbn [app].
      apply Forall_cons. split; [split; discriminate|]. by apply Forall_app. }
  assert (letters name /\ List.map ascii_lower name = name) as [Hl Hlow].
  { apply elem_of_cons in Hname as [->|Hname];
      [by split; [apply letters_literal|]|].
    apply list_elem_of_singleton in Hname as ->.
    by split; [apply letters_literal|]. }
  destruct (element_text name attrs a b c (fun t => 45 :: t)
              Hl Hattrs Ha Hb Hc Hka Hkc) as (b' & Eb & ->);
    [|by right|by rewrite (Eb Hkb)].
  intros cs [-> | [s ->]]; rewrite Hlow.
  - apply elem_of_cons in Hname as [->|Hname]; [done|].
    by apply list_elem_of_singleton in Hname as ->.
  - transitivity ((45 :: s ++ []) ++ []).
    + apply elem_of_cons in Hname as [->|Hname]; [done|].
      by apply list_elem_of_singleton in Hname as ->.
    + unfold get_text. cbn [List.map concat node_text]. by rewrite !app_nil_r.
Qed.

Lemma clean_text_replaces_script_witness :
  py "sup" ∈ script_tags
  /\ @_clean_text basic_env
       (py "see " ++ start_tag (py "sup") [(py "href", py "x")] ++ py "ref 1"
        ++ end_tag (py "sup") ++ py " here")
     = @_clean_text basic_env (py "see " ++ py "-" ++ py "ref 1" ++ py " here").
Proof.
  assert (py "sup" ∈ script_tags) as Hname by (unfold script_tags; set_unfold; tauto).
  assert (Forall (fun kv : pystr * pystr => letters (fst kv)) [(py "href", py "x")])
    as Hattrs.
  { apply Forall_cons. split; [|apply Forall_nil_2].
    split; [discriminate|]. by apply forallb_Forall. }
  assert (Forall plain_char (py "see ")) as Ha.
  { vm_compute.
    repeat (first [ apply Forall_nil_2
                  | apply Forall_cons; split; [split; discriminate|] ]). }
  assert (Forall plain_char (py "ref 1")) as Hb.
  { vm_compute.
    repeat (first [ apply Forall_nil_2
                  | apply Forall_cons; split; [split; discriminate|] ]). }
  assert (Forall plain_char (py " here")) as Hc.
  { vm_compute.
    repeat (first [ apply Forall_nil_2
                  | apply Forall_cons; split; [split; discriminate|] ]). }
  split; [exact Hname|].
  exact (clean_text_replaces_script _ _ _ _ _ Hname Hattrs Ha Hb Hc
           (or_intror eq_refl) (or_intror eq_refl) (or_intror eq_refl)).
Defined.

(** X23: an element of the text markup that [_clean_text] has no rule for,
    between plain texts, gives way to its text. *)
Theorem clean_text_strips_markup {env : PyEnv} (name : pystr)
    (attrs : list (pystr * pystr)) (a b c : pystr) :
  name ∈ text_tags ->
  Forall (fun kv => letters (fst kv)) attrs ->
  Forall plain_char a -> Forall plain_char b -> Forall plain_char c ->
  kept_text a -> kept_text b -> kept_text c ->
  _clean_text (a ++ start_tag name attrs ++ b ++ end_tag name ++ c)
  = _clean_text (a ++ b ++ c).
Proof.
  intros Hname Hattrs Ha Hb Hc Hka Hkb Hkc. apply attr_names_letters in Hattrs.
  rewrite (clean_text_plain (a ++ b ++ c))
    by by repeat (apply Forall_app; split).
  assert (letters name
          /\ forall s, get_text (replace_sub_sup (extract_links
                         [Tag (List.map ascii_lower name) [Text s]]))
                       = (s ++ []) ++ []
          /\ get_text (replace_sub_sup (extract_links
                         [Tag (List.map ascii_lower name) []])) = [])
    as [Hl Hpass].
  { unfold text_tags in Hname.
    repeat (apply elem_of_cons in Hname as [->|Hname];
            [by split; [apply letters_literal|]|]).
    by apply elem_of_nil in Hname. }
  destruct (element_text name attrs a b c (fun t => t)
              Hl Hattrs Ha Hb Hc Hka Hkc) as (b' & Eb & ->);
    [|by right|by rewrite (Eb Hkb)].
  intros cs [-> | [s ->]]; [apply Hpass; exact []|].
  rewrite (proj1 (Hpass s)). unfold get_text. cbn [List.map concat node_text].
  by rewrite !app_nil_r.
Qed.

Lemma clean_text_strips_markup_witness :
  py "i" ∈ text_tags
  /\ @_clean_text basic_env
       (py "see " ++ start_tag (py "i") [(py "href", py "x")] ++ py "ref 1"
        ++ end_tag (py "i") ++ py " here")
     = @_clean_text basic_env (py "see " ++ py "ref 1" ++ py " here").
Proof.
  assert (py "i" ∈ text_tags) as Hname by (unfold text_tags; set_unfold; tauto).
  assert (Forall (fun kv : pystr * pystr => letters (fst kv)) [(py "href", py "x")])
    as Hattrs.
  { apply Forall_cons. split; [|apply Forall_nil_2].
    split; [discriminate|]. by apply forallb_Forall. }
  assert (Forall plain_char (py "see ")) as Ha.
  { vm_compute.
    repeat (first [ apply Forall_nil_2
                  | apply Forall_cons; split; [split; discriminate|] ]). }
  assert (Forall plain_char (py "ref 1")) as Hb.
  { vm_compute.
    repeat (first [ apply Forall_nil_2
                  | apply Forall_cons; split; [split; discriminate|] ]). }
  assert (Forall plain_char (py " here")) as Hc.
  { vm_compute.
    repeat (first [ apply Forall_nil_2
                  | apply Forall_cons; split; [split; discriminate|] ]). }
  split; [exact Hname|].
  exact (clean_text_strips_markup _ _ _ _ _ Hname Hattrs Ha Hb Hc
           (or_intror eq_refl) (or_intror eq_refl) (or_intror eq_refl)).
Defined.

Section Escapes.
Context {env : PyEnv}.

(** *** Decimal digits *)

Lemma digits_fold_pos u : forall p,
  fold_left (fun a c => 10 * a + (c - 48)) (uint_digits u) (N.pos p)
  = N.pos (Pos.of_uint_acc u p).
Proof.
  induction u; intros p; cbn [uint_digits fold_left Pos.of_uint_acc];
    [reflexivity|..];
    match goal with
    | |- fold_left _ _ ?x = _ =>
        match goal with
        | |- _ = N.pos (Pos.of_uint_acc _ ?q) =>
            replace x with (N.pos q) by lia
        end
    end; apply IHu.
Qed.

Lemma digits_fold u :
  fold_left (fun a c => 10 * a + (c - 48)) (uint_digits u) 0 = N.of_uint u.
Proof.
  induction u; cbn [uint_digits fold_left N.of_uint Pos.of_uint];
    [reflexivity|exact IHu|..];
    match goal with
    | |- fold_left _ _ ?x = N.pos (Pos.of_uint_acc _ ?q) =>
        change x with (N.pos q)
    end; apply digits_fold_pos.
Qed.

(** The digits of a number, read back. *)
Lemma decimal_digits_value c :
  fold_left (fun a d => 10 * a + (d - 48)) (decimal_digits c) 0 = c.
Proof. unfold decimal_digits. rewrite digits_fold. apply DecimalN.Unsigned.of_to. Qed.

Lemma decimal_digits_nonempty c : decimal_digits c <> [].
Proof.
  unfold decimal_digits. destruct c as [|p]; [done|]. cbn [N.to_uint].
  pose proof (DecimalN.Unsigned.of_to (N.pos p)) as H. cbn [N.to_uint] in H.
  destruct (Pos.to_uint p); try discriminate. 
Qed.

(** *** The tokens of escaped text *)

Lemma tokenize_entity (c : N) (nm r : pystr) t :
  is_ascii_letter c = true ->
  Forall (fun d => is_entity_name_char d = true) nm ->
  html_entity (c :: nm) = Some r ->
  tokenize (38 :: c :: nm ++ 59 :: t) = TData r :: tokenize t.
Proof.
  intros Hc Hnm Hent.
  assert (token_at (38 :: c :: nm ++ 59 :: t) = (TData r, S (S (S (length nm))))) as H.
  { unfold token_at. replace (38 =? 60) with false by done. rewrite N.eqb_refl.
    pose proof (letter_bounds c Hc).
    destruct (N.eqb_spec c 35); [lia|]. rewrite Hc.
    unfold entityref_token. rewrite (span_app_stop _ nm (59 :: t)) by done.
    rewrite N.eqb_refl, Hent. f_equal. lia. }
  rewrite (tokenize_step _ _ _ _ H). f_equal. cbn [drop].
  replace (nm ++ 59 :: t) with ((nm ++ [59]) ++ t) by by rewrite <- app_assoc.
  f_equal. apply drop_after. rewrite length_app. cbn [length]. lia.
Qed.

Lemma tokenize_entity_app (c : N) (nm r : pystr) t :
  is_ascii_letter c = true ->
  Forall (fun d => is_entity_name_char d = true) nm ->
  html_entity (c :: nm) = Some r ->
  tokenize ((38 :: c :: nm ++ [59]) ++ t) = TData r :: tokenize t.
Proof.
  intros. cbn [app]. rewrite <- app_assoc. by apply tokenize_entity.
Qed.

Lemma digit_is_ascii_digit d : 48 <= d /\ d <= 57 -> is_ascii_digit d = true.
Proof.
  intros [? ?]. unfold is_ascii_digit.
  by destruct (N.leb_spec 48 d), (N.leb_spec d 57); try lia.
Qed.

Lemma tokenize_charref c t :
  tokenize (charref_of c ++ t) = TData (html_charref c) :: tokenize t.
Proof.
  unfold charref_of. change (py "&#") with [38; 35]. change (py ";") with [59].
  cbn [app]. rewrite <- app_assoc. cbn [app].
  pose proof (decimal_digits_nonempty c) as Hne.
  pose proof (decimal_digits_value c) as Hval.
  assert (Forall (fun d => 48 <= d /\ d <= 57) (decimal_digits c)) as Hds
    by apply uint_digits_range.
  set (ds := decimal_digits c) in *.
  assert (token_at (38 :: 35 :: ds ++ 59 :: t)
          = (TData (html_charref c), S (S (S (length ds))))) as H.
  { unfold token_at. replace (38 =? 60) with false by done.
    rewrite !N.eqb_refl. unfold charref_token.
    destruct ds as [|d ds']; [done|].
    apply Forall_cons in Hds as [Hd Hds]. cbn [app].
    assert (((d =? 120) || (d =? 88)) = false) as ->.
    { destruct (N.eqb_spec d 120), (N.eqb_spec d 88); try lia; done. }
    change (d :: ds' ++ 59 :: t) with ((d :: ds') ++ 59 :: t).
    rewrite (span_app_stop _ (d :: ds') (59 :: t)).
    2:{ apply Forall_cons. split; [by apply digit_is_ascii_digit|].
        eapply Forall_impl; [exact Hds|]. apply digit_is_ascii_digit. }
    2:{ reflexivity. }
    replace (is_hex_digit 59) with false by done.
    rewrite Hval, N.eqb_refl. f_equal. cbn [length]. lia. }
  rewrite (tokenize_step _ _ _ _ H). f_equal. cbn [drop].
  replace (ds ++ 59 :: t) with ((ds ++ [59]) ++ t) by by rewrite <- app_assoc.
  f_equal. apply drop_after. rewrite length_app. cbn [length]. lia.
Qed.

(** Escaped text goes to the text gathered so far, unescaped. *)
Lemma build_escaped s t data cur stack :
  entities_known -> Forall text_ok s ->
  build (tokenize (flat_map escape_text_char s ++ t)) data cur stack
  = build (tokenize t) (data ++ s) cur stack.
Proof.
  intros (Hamp & Hlt & Hgt) Hs. revert data.
  induction Hs as [|c s Hc _ IH]; intros data; [by rewrite app_nil_r|].
  cbn [flat_map]. rewrite <- app_assoc.
  replace (data ++ c :: s) with ((data ++ [c]) ++ s) by by rewrite <- app_assoc.
  rewrite <- IH. unfold escape_text_char.
  destruct (N.eqb_spec c 38) as [->|H38].
  { change (py "&amp;") with (38 :: 97 :: py "mp" ++ [59]).
    rewrite (tokenize_entity_app 97 (py "mp") (py "&"));
      [done|done|by repeat constructor|exact Hamp]. }
  destruct (N.eqb_spec c 60) as [->|H60].
  { change (py "&lt;") with (38 :: 108 :: py "t" ++ [59]).
    rewrite (tokenize_entity_app 108 (py "t") (py "<"));
      [done|done|by repeat constructor|exact Hlt]. }
  destruct (N.eqb_spec c 62) as [->|H62].
  { change (py "&gt;") with (38 :: 103 :: py "t" ++ [59]).
    rewrite (tokenize_entity_app 103 (py "t") (py ">"));
      [done|done|by repeat constructor|exact Hgt]. }
  destruct ((c =? 13) || (128 <=? c)) eqn:E.
  - rewrite tokenize_charref. cbn [build].
    destruct Hc as [[H1 H2] | Hr]; [|by rewrite Hr].
    destruct (N.eqb_spec c 13), (N.leb_spec 128 c); try lia; done.
  - cbn [app]. by rewrite build_text_char.
Qed.

End Escapes.

Section Elements.
Context {env : PyEnv}.

Lemma element_ind' (P : element -> Prop) :
  (forall t attrs content children tail,
      Forall P children -> P (Element t attrs content children tail)) ->
  forall e, P e.
Proof.
  intros H. fix IH 1. intros [t attrs content children tail]. apply H.
  induction children as [|c cs IHcs]; constructor; [apply IH|exact IHcs].
Qed.

Lemma tokenize_empty_tag name attrs rest :
  letters name ->
  Forall (fun kv => Forall (fun c => is_ascii_letter c = true) (fst kv)) attrs ->
  tokenize ((60 :: name ++ concat (List.map attr_string attrs)) ++ py "/>" ++ rest)
  = TStartEnd (List.map ascii_lower name) :: tokenize rest.
Proof.
  intros [Hne Hn] Ha. change (py "/>") with [47; 62].
  set (astr := concat (List.map attr_string attrs)).
  assert (Forall (fun c => c <> 62) name) as Hn62.
  { eapply Forall_impl; [exact Hn|]. intros c Hc%letter_bounds. lia. }
  assert (Forall (fun c => c <> 62) astr
          /\ tag_name (name ++ astr ++ [47]) = List.map ascii_lower name)
    as (Ha62 & Htag).
  { destruct (attrs_shape attrs Ha) as [E|(body & E & Hb)]; fold astr in E; rewrite E.
    - split; [constructor|]. by apply tag_name_letters.
    - split.
      + apply Forall_cons. split; [done|]. apply Forall_app. split; [done|].
        by apply Forall_singleton.
      + by apply tag_name_letters. }
  cbn [app]. rewrite <- app_assoc. cbn [app].
  replace (name ++ astr ++ 47 :: 62 :: rest)
    with ((name ++ astr ++ [47]) ++ 62 :: rest)
    by (rewrite <- !app_assoc; by cbn [app]).
  assert (token_at (60 :: (name ++ astr ++ [47]) ++ 62 :: rest)
          = (TStartEnd (List.map ascii_lower name),
             S (S (length (name ++ astr ++ [47]))))) as H.
  { unfold token_at. rewrite N.eqb_refl. unfold markup_token.
    rewrite (span_app_stop _ (name ++ astr ++ [47]) (62 :: rest)).
    2:{ apply Forall_app. split; [|apply Forall_app; split];
          [eapply Forall_impl; [exact Hn62|]|eapply Forall_impl; [exact Ha62|]|];
          try (intros c Hc; by apply negb_true_iff, N.eqb_neq).
        by apply Forall_singleton. }
    2:{ reflexivity. }
    assert (ends_with_slash (name ++ astr ++ [47]) = true) as Hslash.
    { unfold ends_with_slash. rewrite app_assoc, rev_unit. done. }
    destruct name as [|c name]; [done|].
    apply Forall_cons in Hn as [Hc Hn]. cbn [app strip_prefix].
    pose proof (letter_bounds c Hc).
    destruct (N.eqb_spec 33 c); [lia|].
    rewrite Hc. cbn [app] in Hslash, Htag. rewrite Hslash, Htag.
    f_equal. cbn [length]. lia. }
  rewrite (tokenize_step _ _ _ _ H). f_equal.
  replace ((name ++ astr ++ [47]) ++ 62 :: rest)
    with (((name ++ astr ++ [47]) ++ [62]) ++ rest)
    by by rewrite <- (app_assoc _ [62]).
  f_equal. apply drop_after. rewrite (length_app _ [62]). cbn [length]. lia.
Qed.

(** What is known of the names of the text markup. *)
Lemma markup_tag t :
  t ∈ text_tags ++ link_tags ++ script_tags ->
  letters t
  /\ preserves_whitespace (List.map ascii_lower t) = false
  /\ bool_decide (List.map ascii_lower t = py "xref")
     || bool_decide (List.map ascii_lower t = py "a") = is_link t
  /\ bool_decide (List.map ascii_lower t = py "sub")
     || bool_decide (List.map ascii_lower t = py "sup") = is_script t.
Proof.
  intros H. unfold text_tags, link_tags, script_tags in H. cbn [app] in H.
  repeat (apply elem_of_cons in H as [->|H];
          [split; [by apply letters_literal|by vm_compute]|]).
  by apply elem_of_nil in H.
Qed.

Lemma end_data_plain s cur stack :
  plain_stack stack -> end_data s cur stack = rev (text_node s) ++ cur.
Proof.
  intros H. destruct s as [|c s]; [done|].
  unfold end_data, text_node, data_string. cbn [rev app].
  assert (existsb (fun fr : frame => preserves_whitespace fr.1) stack = false) as ->;
    [|done].
  induction H as [|fr stack Hfr _ IH]; [done|]. cbn [existsb]. by rewrite Hfr, IH.
Qed.

Lemma tostring_unfold t attrs content children tail :
  tostring (Element t attrs content children tail)
  = match content, children with
    | [], [] => (60 :: t ++ concat (List.map attr_string attrs)) ++ py "/>"
    | _, _ =>
        start_tag t attrs ++ flat_map escape_text_char content
        ++ concat (List.map tostring children) ++ end_tag t
    end ++ flat_map escape_text_char tail.
Proof.
  cbn [tostring]. f_equal. unfold start_tag, end_tag.
  change (py ">") with [62]. change (py "</") with [60; 47].
  destruct content, children; try reflexivity;
    cbn [app]; f_equal; rewrite <- ?app_assoc; try reflexivity.
Qed.

(** The builder over the children of an open element and its end tag. *)
Lemma build_children t children rest before stack :
  entities_known ->
  letters t ->
  plain_stack ((List.map ascii_lower t, before) :: stack) ->
  Forall (fun c => forall rest data cur stack,
            plain_stack stack ->
            build (tokenize (tostring c ++ rest)) data cur stack
            = build (tokenize rest) (el_tail c)
                (tree c :: end_data data cur stack) stack) children ->
  forall data cur,
    build (tokenize (concat (List.map tostring children) ++ end_tag t ++ rest))
      data cur ((List.map ascii_lower t, before) :: stack)
    = build (tokenize rest) []
        (Tag (List.map ascii_lower t)
           (rev (end_data data cur ((List.map ascii_lower t, before) :: stack))
            ++ kids children) :: before) stack.
Proof.
  intros Hent Ht Hstack Hcs.
  induction Hcs as [|c cs Hc _ IH]; intros data cur.
  - cbn [List.map concat app]. rewrite tokenize_end_tag by done.
    cbn [build fmap list_fmap fst].
    rewrite bool_decide_true by by left. cbn [pop_to].
    rewrite bool_decide_true by done. unfold kids. cbn [List.map concat].
    by rewrite app_nil_r.
  - cbn [List.map concat]. rewrite <- app_assoc.
    rewrite Hc by done. rewrite IH. do 3 f_equal.
    rewrite (end_data_plain (el_tail c)) by done.
    unfold kids. cbn [List.map concat]. rewrite rev_app_distr, rev_involutive.
    cbn [rev app]. by rewrite <- !app_assoc.
Qed.

(** The builder over a serialised element: the element goes to the
    children gathered so far, and the text after it is the text gathered
    next. *)
Lemma build_element e :
  entities_known -> markup e ->
  forall rest data cur stack,
    plain_stack stack ->
    build (tokenize (tostring e ++ rest)) data cur stack
    = build (tokenize rest) (el_tail e) (tree e :: end_data data cur stack) stack.
Proof.
  intros Hent. induction e as [t attrs content children tail IH] using element_ind'.
  intros He rest data cur stack Hstack.
  inversion He as [t' attrs' content' children' tail' Ht Hattrs Hcontent Htail Hchildren];
    subst. apply attr_names_letters in Hattrs.
  destruct (markup_tag t Ht) as (Hletters & Hpre & _).
  assert (plain_stack ((List.map ascii_lower t, end_data data cur stack) :: stack))
    as Hstack' by by constructor.
  rewrite tostring_unfold. cbn [el_tail tree].
  assert (forall c s,
            build (tokenize (flat_map escape_text_char tail ++ rest)) [] c s
            = build (tokenize rest) tail c s) as Htl.
  { intros c s. by rewrite build_escaped. }
  assert (build (tokenize
            ((start_tag t attrs ++ flat_map escape_text_char content
              ++ concat (List.map tostring children) ++ end_tag t)
             ++ flat_map escape_text_char tail ++ rest)) data cur stack
          = build (tokenize rest) tail
              (Tag (List.map ascii_lower t) (text_node content ++ kids children)
               :: end_data data cur stack) stack) as Hfull.
  { rewrite <- !app_assoc. rewrite tokenize_start_tag by done. cbn [build].
    rewrite build_escaped by done. cbn [app].
    rewrite (build_children t children _ (end_data data cur stack) stack);
      try done.
    - rewrite Htl. do 3 f_equal.
      rewrite (end_data_plain content) by done.
      by rewrite app_nil_r, rev_involutive.
    - rewrite Forall_forall in IH, Hchildren. apply Forall_forall.
      intros c Hc. by apply IH, Hchildren. }
  rewrite <- (app_assoc _ (flat_map escape_text_char tail) rest).
  destruct content as [|c0 content]; [destruct children as [|c children]|];
    try exact Hfull.
  rewrite <- !app_assoc. rewrite tokenize_empty_tag by done. cbn [build].
  rewrite Htl. by unfold kids.
Qed.

(** The tree of a serialised element. *)
Lemma html_parse_tostring e :
  entities_known -> markup e ->
  html_parse (tostring e) = tree e :: text_node (el_tail e).
Proof.
  intros Hent He. unfold html_parse.
  rewrite <- (app_nil_r (tostring e)).
  rewrite build_element; [|done|done|constructor].
  cbn [tokenize tokenize_from build end_data close_all].
  rewrite end_data_plain by constructor.
  rewrite rev_app_distr, rev_involutive. done.
Qed.

(** *** The two passes over the tree of an element *)

Lemma passes_text_node s :
  extract_links (text_node s) = text_node s
  /\ replace_sub_sup (text_node s) = text_node s
  /\ get_text (text_node s) = soup_string s.
Proof.
  destruct s; [done|]. repeat split. unfold get_text. cbn. by rewrite app_nil_r.
Qed.

Lemma extract_links_cons n l :
  extract_links (n :: l) = extract_links_node n ++ extract_links l.
Proof. reflexivity. Qed.

Lemma tree_unfold t attrs content children tail :
  tree (Element t attrs content children tail)
  = Tag (List.map ascii_lower t) (text_node content ++ kids children).
Proof. reflexivity. Qed.

Lemma extract_links_tag t ks :
  t ∈ text_tags ++ link_tags ++ script_tags ->
  extract_links_node (Tag (List.map ascii_lower t) ks)
  = if is_link t then [] else [Tag (List.map ascii_lower t) (extract_links ks)].
Proof.
  intros (_ & _ & H & _)%markup_tag. cbn [extract_links_node]. by rewrite H.
Qed.

Lemma replace_sub_sup_tag t ks :
  t ∈ text_tags ++ link_tags ++ script_tags ->
  replace_sub_sup_node (Tag (List.map ascii_lower t) ks)
  = if is_script t then Text (45 :: get_text ks)
    else Tag (List.map ascii_lower t) (replace_sub_sup ks).
Proof.
  intros (_ & _ & _ & H)%markup_tag. cbn [replace_sub_sup_node]. by rewrite H.
Qed.

(** The text of the tree of the children, links taken out. *)
Lemma inner_text_kids children :
  Forall (fun c => get_text (extract_links_node (tree c)) = inner_text c) children ->
  get_text (extract_links (kids children))
  = concat (List.map (fun c => inner_text c ++ soup_string (el_tail c)) children).
Proof.
  unfold kids. induction 1 as [|c cs Hc _ IH]; [done|].
  cbn [List.map concat app]. rewrite extract_links_cons, extract_links_app.
  rewrite !get_text_app, Hc, IH.
  destruct (passes_text_node (el_tail c)) as (-> & _ & ->).
  by rewrite <- app_assoc.
Qed.

Lemma inner_text_tree e :
  markup e -> get_text (extract_links_node (tree e)) = inner_text e.
Proof.
  induction e as [t attrs content children tail IH] using element_ind'.
  intros He.
  inversion He as [t' attrs' content' children' tail' Ht Hattrs Hcontent Htail Hchildren];
    subst. apply attr_names_letters in Hattrs.
  rewrite tree_unfold, extract_links_tag by done. cbn [inner_text].
  destruct (is_link t); [done|].
  unfold get_text at 1. cbn [List.map concat node_text]. rewrite app_nil_r.
  fold (get_text (extract_links (text_node content ++ kids children))).
  rewrite extract_links_app, get_text_app.
  destruct (passes_text_node content) as (-> & _ & ->). f_equal.
  apply inner_text_kids. rewrite Forall_forall in IH, Hchildren.
  apply Forall_forall. intros c Hc. by apply IH, Hchildren.
Qed.

Lemma shown_text_kids children :
  Forall (fun c => get_text (replace_sub_sup (extract_links_node (tree c)))
                   = shown_text c) children ->
  get_text (replace_sub_sup (extract_links (kids children)))
  = concat (List.map (fun c => shown_text c ++ soup_string (el_tail c)) children).
Proof.
  unfold kids. induction 1 as [|c cs Hc _ IH]; [done|].
  cbn [List.map concat app]. rewrite extract_links_cons, extract_links_app.
  rewrite !replace_sub_sup_app, !get_text_app, Hc, IH.
  destruct (passes_text_node (el_tail c)) as (-> & -> & ->).
  by rewrite <- app_assoc.
Qed.

Lemma shown_text_tree e :
  markup e ->
  get_text (replace_sub_sup (extract_links_node (tree e))) = shown_text e.
Proof.
  induction e as [t attrs content children tail IH] using element_ind'.
  intros He. pose proof (inner_text_tree _ He) as Hinner.
  inversion He as [t' attrs' content' children' tail' Ht Hattrs Hcontent Htail Hchildren];
    subst. apply attr_names_letters in Hattrs.
  rewrite tree_unfold, extract_links_tag in * by done.
  cbn [shown_text inner_text] in *.
  destruct (is_link t); [done|].
  cbn [replace_sub_sup List.map]. rewrite replace_sub_sup_tag by done.
  unfold get_text at 1 in Hinner. cbn [List.map concat node_text] in Hinner.
  rewrite app_nil_r in Hinner.
  destruct (is_script t).
  - unfold get_text at 1. cbn [List.map concat node_text]. rewrite app_nil_r.
    f_equal. exact Hinner.
  - unfold get_text at 1. cbn [List.map concat node_text]. rewrite app_nil_r.
    fold (get_text (replace_sub_sup (extract_links (text_node content ++ kids children)))).
    rewrite extract_links_app, replace_sub_sup_app, get_text_app.
    destruct (passes_text_node content) as (-> & -> & ->). f_equal.
    apply shown_text_kids. rewrite Forall_forall in IH, Hchildren.
    apply Forall_forall. intros c Hc. by apply IH, Hchildren.
Qed.

End Elements.

(** X24: the cleaned text of a serialised element of text markup is the
    text of the element, tidied: the detour over the serialiser and the
    markup parser gives back the texts of the element, and the text after
    the element is part of the result. *)
Theorem clean_text_of_element {env : PyEnv} (e : element) :
  entities_known -> markup e ->
  _clean_text (tostring e)
  = tidy (_decode_unicode_references (shown_text e ++ soup_string (el_tail e))).
Proof.
  intros Hent He. rewrite clean_text_tidy, html_parse_tostring by done.
  rewrite extract_links_cons, replace_sub_sup_app, get_text_app.
  rewrite shown_text_tree by done.
  by destruct (passes_text_node (el_tail e)) as (-> & -> & ->).
Qed.

Lemma clean_text_of_element_witness :
  @entities_known basic_env
  /\ @markup basic_env sample_segment
  /\ tostring sample_segment
     = py "<AbstractText Label=" ++ [34] ++ py "RESULTS" ++ [34]
       ++ py ">CO<sub>2</sub> rose &amp; p &lt; 0.05 <xref>1</xref></AbstractText>"
       ++ [10; 32; 32]
  /\ @_clean_text basic_env (tostring sample_segment)
     = tidy (@_decode_unicode_references basic_env
               (shown_text sample_segment ++ soup_string (el_tail sample_segment)))
  /\ @_clean_text basic_env (tostring sample_segment) = py "CO-2 rose & p < 0.05".
Proof.
  assert (@entities_known basic_env) as Hent by (repeat split; vm_compute; reflexivity).
  assert (forall s, forallb (fun c => (c <? 128) && negb (c =? 13)) s = true ->
                    Forall (@text_ok basic_env) s) as Htext.
  { intros s Hs. apply forallb_Forall in Hs.
    eapply Forall_impl; [exact Hs|]. intros c Hc. left.
    apply andb_true_iff in Hc as [H1 H2].
    apply N.ltb_lt in H1. apply negb_true_iff, N.eqb_neq in H2. done. }
  assert (forall t content tail,
            t ∈ text_tags ++ link_tags ++ script_tags ->
            forallb (fun c => (c <? 128) && negb (c =? 13)) content = true ->
            forallb (fun c => (c <? 128) && negb (c =? 13)) tail = true ->
            @markup basic_env (Element t [] content [] tail)) as Hleaf.
  { intros t content tail Ht Hc Htl.
    apply markup_element; [exact Ht|apply Forall_nil_2| by apply Htext
                           | by apply Htext | apply Forall_nil_2]. }
  assert (@markup basic_env sample_segment) as He.
  { apply markup_element.
    - unfold text_tags, link_tags, script_tags. set_unfold. tauto.
    - apply Forall_cons. split; [|apply Forall_nil_2].
      split; [discriminate|]. by apply forallb_Forall.
    - by apply Htext.
    - by apply Htext.
    - apply Forall_cons. split.
      { apply Hleaf; [|done|done].
        unfold text_tags, link_tags, script_tags. set_unfold. tauto. }
      apply Forall_cons. split; [|apply Forall_nil_2].
      apply Hleaf; [|done|done].
      unfold text_tags, link_tags, script_tags. set_unfold. tauto. }
  split; [exact Hent|]. split; [exact He|].
  split; [vm_compute; reflexivity|].
  split; [exact (clean_text_of_element _ Hent He)|].
  vm_compute; reflexivity.
Defined.

(** * Numeric references, written and read *)

Section Digits.

(** The digits of a number have no zero in front, the number zero apart. *)
Lemma nzhead_head u :
  match Decimal.nzhead u with Decimal.D0 _ => False | _ => True end.
Proof. induction u; cbn [Decimal.nzhead]; done. Qed.

Lemma to_uint_head c :
  match N.to_uint c with
  | Decimal.D0 u => u = Decimal.Nil
  | Decimal.Nil => False
  | _ => True
  end.
Proof.
  pose proof (DecimalN.Unsigned.to_of (N.to_uint c)) as H.
  rewrite DecimalN.Unsigned.of_to in H.
  pose proof (nzhead_head (N.to_uint c)) as Hh.
  unfold Decimal.unorm in H.
  destruct (Decimal.nzhead (N.to_uint c)) eqn:E; rewrite H; done.
Qed.

Lemma digits_fold_lower u : forall acc,
  acc * 10 ^ N.of_nat (length (uint_digits u))
  <= fold_left (fun a c => 10 * a + (c - 48)) (uint_digits u) acc.
Proof.
  induction u; intros acc; cbn [uint_digits fold_left length];
    [rewrite N.pow_0_r; lia|..];
    (etrans; [|apply IHu]); rewrite Nat2N.inj_succ, N.pow_succ_r'; nia.
Qed.

Lemma decimal_digits_length c :
  c < 10 ^ 7 -> (length (decimal_digits c) <= 7)%nat.
Proof.
  intros Hc. pose proof (decimal_digits_value c) as Hval.
  pose proof (to_uint_head c) as Hh. unfold decimal_digits in *.
  destruct (N.to_uint c) as [|u|u|u|u|u|u|u|u|u|u]; [done|subst u; cbn [uint_digits length]; lia|..];
    cbn [uint_digits fold_left length] in *;
    match type of Hval with
    | fold_left _ _ ?k = _ => pose proof (digits_fold_lower u k) as Hlow
    end;
    rewrite Hval in Hlow;
    destruct (Nat.le_gt_cases (length (uint_digits u)) 6) as [|Hlen]; try lia;
    assert (10 ^ 7 <= 10 ^ N.of_nat (length (uint_digits u)))
      by (apply N.pow_le_mono_r; lia);
    nia.
Qed.

End Digits.

Section DecodeRoundTrip.
Context {env : PyEnv}.

Lemma digits_value_ascii ds :
  Forall (fun d => 48 <= d /\ d <= 57) ds ->
  forall acc,
    fold_left (fun a c => 10 * a + decimal_value c) ds acc
    = fold_left (fun a c => 10 * a + (c - 48)) ds acc.
Proof.
  induction 1 as [|d ds [H1 H2] _ IH]; intros acc; [done|].
  cbn [fold_left]. rewrite (proj2 (ascii_digit_decimal d H1 H2)). apply IH.
Qed.

Lemma callback_digits c :
  match py_int_max_str_digits with Some m => (7 <= m)%nat | None => True end ->
  c <= 1114111 -> _callback (decimal_digits c) = [c].
Proof.
  intros Hlimit Hc. unfold _callback, py_int.
  assert (digits_value (decimal_digits c) = c) as Hval.
  { unfold digits_value. rewrite digits_value_ascii by apply uint_digits_range.
    apply decimal_digits_value. }
  pose proof (decimal_digits_length c ltac:(lia)) as Hlen.
  assert (py_chr c = Ok [c]) as Hchr.
  { unfold py_chr. by destruct (N.leb_spec c 1114111); [|lia]. }
  destruct py_int_max_str_digits as [m|]; cbn [bind].
  - destruct (Nat.ltb_spec m (length (decimal_digits c))); [lia|].
    cbn [bind]. by rewrite Hval, Hchr.
  - by rewrite Hval, Hchr.
Qed.

Lemma match_charref_charref_of c t :
  match_charref (charref_of c ++ t)
  = Some (S (S (length (decimal_digits c) + 1)), _callback (decimal_digits c)).
Proof.
  unfold charref_of. change (py "&#") with [38; 35]. change (py ";") with [59].
  cbn [app]. rewrite <- app_assoc. cbn [app]. rewrite match_charref_unfold.
  rewrite span_app_stop.
  - pose proof (decimal_digits_nonempty c). by destruct (decimal_digits c).
  - eapply Forall_impl; [apply uint_digits_range|].
    intros d [H1 H2]. apply (ascii_digit_decimal d H1 H2).
  - apply is_decimal_semicolon.
Qed.

End DecodeRoundTrip.

(** X25: the decoder undoes the writing of characters as numeric
    references: a text in which every character stands as [&#NNN;], NNN
    its code in decimal digits, is decoded to the text of the characters. *)
Theorem decode_charrefs {env : PyEnv} (s : pystr) :
  match py_int_max_str_digits with Some m => (7 <= m)%nat | None => True end ->
  Forall (fun c => c <= 1114111) s ->
  _decode_unicode_references (flat_map charref_of s) = s.
Proof.
  intros Hlimit Hs. rewrite decode_unfold.
  induction Hs as [|c s Hc _ IH]; [done|].
  cbn [flat_map].
  assert (exists t, charref_of c ++ flat_map charref_of s = 38 :: t
                   /\ drop (S (length (decimal_digits c) + 1)) t = flat_map charref_of s)
    as (t & E & Hdrop).
  { unfold charref_of. change (py "&#") with [38; 35]. change (py ";") with [59].
    eexists. split; [reflexivity|]. cbn [app drop].
    apply drop_after. rewrite length_app. cbn [length]. lia. }
  pose proof (match_charref_charref_of c (flat_map charref_of s)) as Hm.
  rewrite E in *. rewrite re_sub_cons, Hm, Hdrop, IH.
  by rewrite callback_digits.
Qed.

Lemma decode_charrefs_witness :
  flat_map charref_of [946; 65; 8211] = py "&#946;&#65;&#8211;"
  /\ @_decode_unicode_references basic_env (flat_map charref_of [946; 65; 8211])
     = [946; 65; 8211].
Proof.
  assert (match @py_int_max_str_digits basic_env with
          | Some m => (7 <= m)%nat
          | None => True
          end) as Hlimit by (cbn; lia).
  assert (Forall (fun c => c <= 1114111) [946; 65; 8211]) as Hs.
  { repeat (first [ apply Forall_nil_2
                  | apply Forall_cons; split; [vm_compute; discriminate|] ]). }
  split; [vm_compute; reflexivity|].
  exact (decode_charrefs _ Hlimit Hs).
Defined.

(** * Empty brackets *)

Section LazyRepeat.
Context {A : Type}.

(** A lazy repetition of a class, where what follows takes no text that
    starts in the class: the whole run, then what follows. *)
Lemma repeat_class_lazy p (k : @cont A) fuel : forall s g,
  (length s <= fuel)%nat ->
  (forall c t, p c = true -> k (c :: t) g = None) ->
  repeat_loop (exec (Class p)) false k fuel s g = k (snd (span p s)) g.
Proof.
  induction fuel as [|fuel IH]; intros s g Hlen Hk; cbn [repeat_loop exec].
  - destruct s; [reflexivity|simpl in Hlen; lia].
  - destruct s as [|c s']; [cbn [span snd]; by destruct (k [] g)|]. cbn [span].
    destruct (p c) eqn:E.
    + rewrite (Hk c s' E).
      replace (length s' <? length (c :: s'))%nat with true
        by (symmetry; apply Nat.ltb_lt; simpl; lia).
      rewrite IH by (done || simpl in Hlen; lia).
      by destruct (span p s').
    + cbn [snd]. by destruct (k (c :: s') g).
Qed.

End LazyRepeat.

Section Brackets.

Lemma space_not_bracket c :
  is_space c = true -> c <> 91 /\ c <> 40.
Proof. intros H. split; intros ->; discriminate H. Qed.

Lemma filler_not_close c :
  is_bracket_filler c = true -> c <> 93 /\ c <> 41.
Proof. intros H. split; intros ->; discriminate H. Qed.

(** The filler and the closing bracket, behind an opening bracket. *)
Lemma exec_bracket_tail (close : N) (s r : pystr) :
  close = 93 \/ close = 41 ->
  exec (Cat (Repeat false (Class is_bracket_filler)) (Class (chr_is close))) r None
    (fun s' g => Some ((length s - length s')%nat, g))
  = match snd (span is_bracket_filler r) with
    | c :: rest => if c =? close then Some ((length s - length rest)%nat, None) else None
    | [] => None
    end.
Proof.
  intros Hclose. cbn [exec]. fold_class_repeat is_bracket_filler.
  rewrite repeat_class_lazy; [|done|].
  - destruct (snd (span is_bracket_filler r)) as [|c rest]; [done|].
    unfold chr_is. by rewrite N.eqb_sym.
  - intros c t Hc. apply filler_not_close in Hc as [? ?]. unfold chr_is.
    destruct (N.eqb_spec close c); [|done]. destruct Hclose; congruence.
Qed.

(** An opening bracket, the filler and the closing bracket. *)
Lemma exec_bracket (opening close : N) (s t : pystr) :
  close = 93 \/ close = 41 ->
  exec (Cat (Class (chr_is opening))
          (Cat (Repeat false (Class is_bracket_filler)) (Class (chr_is close))))
    t None (fun s' g => Some ((length s - length s')%nat, g))
  = match t with
    | c :: r' =>
        if c =? opening then
          match snd (span is_bracket_filler r') with
          | c' :: rest =>
              if c' =? close then Some ((length s - length rest)%nat, None) else None
          | [] => None
          end
        else None
    | [] => None
    end.
Proof.
  intros Hclose. destruct t as [|c r']; [done|].
  change (exec (Cat (Class (chr_is opening)) ?R) (c :: r') None ?k)
    with (if chr_is opening c then exec R r' None k else None).
  unfold chr_is at 1. rewrite (N.eqb_sym opening c).
  destruct (c =? opening); [|done]. by apply exec_bracket_tail.
Qed.

Lemma bracket_group_spec close ws r' (s : pystr) :
  length s = (length ws + 1 + length r')%nat ->
  match
    match snd (span is_bracket_filler r') with
    | c' :: rest =>
        if c' =? close
        then Some ((length s - length rest)%nat, @None pystr) else None
    | [] => None
    end
  with
  | Some (n, _) => Some (n, @nil N)
  | None => None
  end
  = bracket_group close ws r'.
Proof.
  intros Hlen. unfold bracket_group.
  pose proof (span_length is_bracket_filler r') as Hsp.
  destruct (span is_bracket_filler r') as [fill [|c' rest]]; [done|].
  cbn [fst snd length] in *. destruct (c' =? close); [|done].
  do 2 f_equal. lia.
Qed.

(** [_empty_brackets_re] matches the whitespace before a bracket and the
    bracket with its filler. *)
Lemma empty_brackets_matcher s :
  matcher_of _empty_brackets_re (fun _ => []) s = match_empty_brackets s.
Proof.
  unfold matcher_of, re_match, _empty_brackets_re, plus, match_empty_brackets.
  set (kf := fun (s' : pystr) (g : option pystr) =>
               Some ((length s - length s')%nat, g)).
  set (square := Cat (Class (chr_is 91))
                   (Cat (Repeat false (Class is_bracket_filler)) (Class (chr_is 93)))).
  set (round := Cat (Class (chr_is 40))
                  (Cat (Repeat false (Class is_bracket_filler)) (Class (chr_is 41)))).
  (* the first branch *)
  assert (exec (Cat (Repeat false (Class is_space)) square) s None kf
          = exec square (snd (span is_space s)) None kf) as H1.
  { change (exec (Cat (Repeat false (Class is_space)) square) s None kf)
      with (repeat_loop (exec (Class is_space)) false
              (fun s' g' => exec square s' g' kf) (length s) s None).
    rewrite repeat_class_lazy; [done|done|].
    intros c t Hc. subst square kf. rewrite exec_bracket by by left.
    apply space_not_bracket in Hc as [? _]. by destruct (N.eqb_spec c 91). }
  (* the second branch *)
  assert (exec (Cat (Cat (Class is_space) (Repeat false (Class is_space))) round)
            s None kf
          = match s with
            | c :: s' =>
                if is_space c then exec round (snd (span is_space s')) None kf
                else None
            | [] => None
            end) as H2.
  { destruct s as [|c s']; [done|].
    change (exec (Cat (Cat (Class is_space) (Repeat false (Class is_space))) round)
              (c :: s') None kf)
      with (if is_space c
            then repeat_loop (exec (Class is_space)) false
                   (fun s'' g' => exec round s'' g' kf) (length s') s' None
            else None).
    destruct (is_space c); [|done].
    rewrite repeat_class_lazy; [done|done|].
    intros d t Hd. subst round kf. rewrite exec_bracket by by right.
    apply space_not_bracket in Hd as [_ ?]. by destruct (N.eqb_spec d 40). }
  change (exec (Or ?a ?b) s None kf)
    with (match exec a s None kf with Some x => Some x | None => exec b s None kf end).
  rewrite H1, H2. subst square round kf.
  pose proof (span_length is_space s) as Hlen.
  destruct s as [|c s']; [done|].
  rewrite (exec_bracket 91 93) by by left.
  cbn [span] in *. destruct (is_space c) eqn:Ec.
  - rewrite (exec_bracket 40 41) by by right.
    destruct (span is_space s') as [ws r]. cbn [fst snd] in *.
    destruct r as [|d r']; [done|].
    destruct (N.eqb_spec d 91) as [->|H91].
    + replace (91 =? 40) with false by done.
      pose proof (bracket_group_spec 93 (c :: ws) r' (c :: s')
                    ltac:(cbn [length] in *; lia)) as HX.
      match type of HX with
      | match ?X with _ => _ end = _ => destruct X as [[n g]|]
      end; exact HX.
    + destruct (d =? 40); [|done].
      exact (bracket_group_spec 41 (c :: ws) r' (c :: s')
               ltac:(cbn [length] in *; lia)).
  - cbn [fst snd] in *.
    destruct (N.eqb_spec c 91) as [->|H91].
    + pose proof (bracket_group_spec 93 [] s' (91 :: s')
                    ltac:(cbn [length] in *; lia)) as HX.
      match type of HX with
      | match ?X with _ => _ end = _ => destruct X as [[n g]|]
      end; exact HX.
    + by destruct (c =? 40).
Qed.

End Brackets.

Section BracketSub.
Context {env : PyEnv}.

(** A text that has a character which is no whitespace starts with
    whitespace and such a character. *)
Lemma first_text_char u :
  u <> [] -> ends_in_text u ->
  exists x d y,
    u = x ++ d :: y /\ Forall (fun c => is_space c = true) x /\ is_space d = false.
Proof.
  intros Hne Hend. destruct (lstrip_split u) as (x & E & Hx).
  destruct (lstrip u) as [|d y] eqn:El.
  - rewrite app_nil_r in E. subst x. unfold ends_in_text in Hend.
    destruct (last u) as [z|] eqn:Ez; [|by apply last_None in Ez].
    apply last_Some in Ez as [u' ->].
    apply Forall_app in Hx as [_ Hz]. rewrite Forall_singleton in Hz. congruence.
  - exists x, d, y. split; [done|]. split; [done|]. by eapply lstrip_head.
Qed.

Lemma ends_in_text_tail c u : ends_in_text (c :: u) -> ends_in_text u.
Proof.
  unfold ends_in_text. rewrite last_cons. by destruct (last u).
Qed.

Lemma match_empty_brackets_text x d y :
  Forall (fun c => is_space c = true) x -> is_space d = false ->
  d <> 91 -> d <> 40 -> match_empty_brackets (x ++ d :: y) = None.
Proof.
  intros Hx Hd H91 H40. unfold match_empty_brackets.
  rewrite span_app_stop by done.
  destruct (N.eqb_spec d 91); [done|]. by destruct (N.eqb_spec d 40).
Qed.

Lemma match_empty_brackets_group opening close ws f b :
  (opening = 91 /\ close = 93) \/ (opening = 40 /\ close = 41 /\ ws <> []) ->
  Forall (fun c => is_space c = true) ws ->
  Forall (fun c => is_bracket_filler c = true) f ->
  match_empty_brackets (ws ++ opening :: f ++ close :: b)
  = Some (length ws + 1 + length f + 1, [])%nat.
Proof.
  intros Hpair Hws Hf. unfold match_empty_brackets.
  rewrite span_app_stop; [|done|by destruct Hpair as [[-> _]|[-> _]]].
  assert (bracket_group close ws (f ++ close :: b)
          = Some (length ws + 1 + length f + 1, [])%nat) as Hg.
  { unfold bracket_group. rewrite span_app_stop;
      [|done|by destruct Hpair as [[_ ->]|[_ [-> _]]]].
    by rewrite N.eqb_refl. }
  destruct Hpair as [[-> ->]|(-> & -> & Hne)]; [done|].
  replace (40 =? 91) with false by done. cbn [N.eqb Pos.eqb].
  by destruct ws.
Qed.

(** The substitution takes an empty pair of brackets out of ordinary
    text, with the whitespace before it. *)
Lemma sub_empty_brackets opening close a ws f b :
  (opening = 91 /\ close = 93) \/ (opening = 40 /\ close = 41 /\ ws <> []) ->
  Forall ordinary_char a -> ends_in_text a ->
  Forall (fun c => is_space c = true) ws ->
  Forall (fun c => is_bracket_filler c = true) f ->
  Forall ordinary_char b ->
  pattern_sub _empty_brackets_re (fun _ => []) (a ++ ws ++ opening :: f ++ close :: b)
  = a ++ b.
Proof.
  intros Hpair Ha Hend Hws Hf Hb. unfold pattern_sub.
  induction a as [|c a IH].
  - cbn [app]. pose proof (match_empty_brackets_group opening close ws f b Hpair Hws Hf) as Hm.
    destruct (ws ++ opening :: f ++ close :: b) as [|c0 s0] eqn:E.
    { by destruct ws. }
    rewrite re_sub_cons, empty_brackets_matcher, Hm.
    replace (length ws + 1 + length f + 1)%nat with (S (length ws + length f + 1))
      by lia.
    cbn [app].
    assert (drop (length ws + length f + 1) s0 = b) as ->.
    { change s0 with (drop 1 (c0 :: s0)). rewrite <- E, drop_drop.
      replace (ws ++ opening :: f ++ close :: b)
        with ((ws ++ opening :: f ++ [close]) ++ b).
      - apply drop_after. rewrite !length_app. cbn [length].
        rewrite length_app. cbn [length]. lia.
      - rewrite <- !app_assoc. cbn [app]. by rewrite <- app_assoc. }
    by apply empty_brackets_id.
  - cbn [app]. rewrite re_sub_cons, empty_brackets_matcher.
    destruct (first_text_char (c :: a)) as (x & d & y & E & Hx & Hd); [done|done|].
    assert (ordinary_char d) as (_ & H91 & H40 & _).
    { rewrite Forall_forall in Ha. apply Ha. rewrite E.
      apply elem_of_app. right. by left. }
    change (c :: a ++ ws ++ opening :: f ++ close :: b)
      with ((c :: a) ++ ws ++ opening :: f ++ close :: b).
    rewrite E, <- app_assoc. cbn [app].
    rewrite match_empty_brackets_text by done. f_equal.
    apply IH; [by apply Forall_cons in Ha as [_ ?]|by eapply ends_in_text_tail].
Qed.

End BracketSub.

Section BracketText.
Context {env : PyEnv}.

Lemma ordinary_plain s : Forall ordinary_char s -> Forall plain_char s.
Proof. intros H. eapply Forall_impl; [exact H|]. by intros c [? _]. Qed.

Lemma space_plain s : Forall (fun c => is_space c = true) s -> Forall plain_char s.
Proof.
  intros H. eapply Forall_impl; [exact H|]. intros c Hc.
  pose proof (space_not_special c Hc) as (? & _). split; [|done].
  intros ->. discriminate Hc.
Qed.

Lemma filler_plain s :
  Forall (fun c => is_bracket_filler c = true) s -> Forall plain_char s.
Proof.
  intros H. eapply Forall_impl; [exact H|]. intros c Hc.
  split; intros ->; discriminate Hc.
Qed.

Lemma clean_text_brackets opening close a ws f b :
  (opening = 91 /\ close = 93) \/ (opening = 40 /\ close = 41 /\ ws <> []) ->
  Forall ordinary_char a -> ends_in_text a ->
  Forall (fun c => is_space c = true) ws ->
  Forall (fun c => is_bracket_filler c = true) f ->
  Forall ordinary_char b ->
  _clean_text (a ++ ws ++ opening :: f ++ close :: b) = _clean_text (a ++ b).
Proof.
  intros Hpair Ha Hend Hws Hf Hb.
  assert (plain_char opening /\ plain_char close) as [Ho Hc].
  { destruct Hpair as [[-> ->]|(-> & -> & _)]; by repeat split. }
  rewrite clean_text_plain.
  2:{ apply Forall_app. split; [by apply ordinary_plain|].
      apply Forall_app. split; [by apply space_plain|].
      apply Forall_cons. split; [done|].
      apply Forall_app. split; [by apply filler_plain|].
      apply Forall_cons. split; [done|]. by apply ordinary_plain. }
  assert (Forall ordinary_char (a ++ b)) as Hab by by apply Forall_app.
  unfold tidy. rewrite sub_empty_brackets by done.
  rewrite spaces_with_delimeter_id, sub_whitespaces by done.
  by rewrite clean_text_ordinary.
Qed.

End BracketText.

(** X26: an empty pair of square brackets, with nothing in it but spaces,
    hyphens, dashes, commas and semicolons, is taken out of ordinary text,
    with the whitespace before it. *)
Theorem clean_text_drops_square_brackets {env : PyEnv} (a ws f b : pystr) :
  Forall ordinary_char a -> ends_in_text a ->
  Forall (fun c => is_space c = true) ws ->
  Forall (fun c => is_bracket_filler c = true) f ->
  Forall ordinary_char b ->
  _clean_text (a ++ ws ++ py "[" ++ f ++ py "]" ++ b) = _clean_text (a ++ b).
Proof.
  intros. apply (clean_text_brackets 91 93); try done. by left.
Qed.

Lemma clean_text_drops_square_brackets_witness :
  Forall ordinary_char (py "dose") /\ Forall ordinary_char (py " response")
  /\ @_clean_text basic_env
       (py "dose" ++ py " " ++ py "[" ++ py " - " ++ py "]" ++ py " response")
     = @_clean_text basic_env (py "dose" ++ py " response").
Proof.
  assert (Forall ordinary_char (py "dose")) as Ha.
  { vm_compute.
    repeat (first [ apply Forall_nil_2
                  | apply Forall_cons; split; [repeat split; discriminate|] ]). }
  assert (Forall ordinary_char (py " response")) as Hb.
  { vm_compute.
    repeat (first [ apply Forall_nil_2
                  | apply Forall_cons; split; [repeat split; discriminate|] ]). }
  assert (Forall (fun c => is_space c = true) (py " ")) as Hws.
  { repeat (first [ apply Forall_nil_2
                  | apply Forall_cons; split; [reflexivity|] ]). }
  assert (Forall (fun c => is_bracket_filler c = true) (py " - ")) as Hf.
  { repeat (first [ apply Forall_nil_2
                  | apply Forall_cons; split; [reflexivity|] ]). }
  split; [exact Ha|]. split; [exact Hb|].
  exact (clean_text_drops_square_brackets _ _ _ _ Ha eq_refl Hws Hf Hb).
Defined.

(** X27: an empty pair of round brackets is taken out in the same way where
    there is whitespace before it. *)
Theorem clean_text_drops_round_brackets {env : PyEnv} (a ws f b : pystr) :
  Forall ordinary_char a -> ends_in_text a ->
  Forall (fun c => is_space c = true) ws -> ws <> [] ->
  Forall (fun c => is_bracket_filler c = true) f ->
  Forall ordinary_char b ->
  _clean_text (a ++ ws ++ py "(" ++ f ++ py ")" ++ b) = _clean_text (a ++ b).
Proof.
  intros. apply (clean_text_brackets 40 41); try done. by right.
Qed.

Lemma clean_text_drops_round_brackets_witness :
  Forall ordinary_char (py "dose") /\ Forall ordinary_char (py " response")
  /\ @_clean_text basic_env
       (py "dose" ++ py " " ++ py "(" ++ py " - " ++ py ")" ++ py " response")
     = @_clean_text basic_env (py "dose" ++ py " response").
Proof.
  assert (Forall ordinary_char (py "dose")) as Ha.
  { vm_compute.
    repeat (first [ apply Forall_nil_2
                  | apply Forall_cons; split; [repeat split; discriminate|] ]). }
  assert (Forall ordinary_char (py " response")) as Hb.
  { vm_compute.
    repeat (first [ apply Forall_nil_2
                  | apply Forall_cons; split; [repeat split; discriminate|] ]). }
  assert (Forall (fun c => is_space c = true) (py " ")) as Hws.
  { repeat (first [ apply Forall_nil_2
                  | apply Forall_cons; split; [reflexivity|] ]). }
  assert (Forall (fun c => is_bracket_filler c = true) (py " - ")) as Hf.
  { repeat (first [ apply Forall_nil_2
                  | apply Forall_cons; split; [reflexivity|] ]). }
  split; [exact Ha|]. split; [exact Hb|].
  exact (clean_text_drops_round_brackets _ _ _ _ Ha eq_refl Hws ltac:(discriminate) Hf Hb).
Defined.

(** * Separators *)

Section Delimiters.
Context {env : PyEnv}.

Lemma space_not_delim c : is_space c = true -> is_delim c = false.
Proof. intros H. by apply space_not_special in H as (_ & _ & _ & ?). Qed.

Lemma delim_not_space c : is_delim c = true -> is_space c = false.
Proof.
  intros H. destruct (is_space c) eqn:E; [|done].
  apply space_not_delim in E. congruence.
Qed.

(** A round takes no text that starts, after whitespace or at once, with a
    character that is neither whitespace nor a delimiter. *)
Lemma delimiter_round_none {A} x d y g (k : @cont A) :
  Forall (fun c => is_space c = true) x ->
  is_space d = false -> is_delim d = false ->
  exec delimiter_round (x ++ d :: y) g k = None.
Proof.
  intros Hx Hd Hdel. unfold delimiter_round, plus.
  destruct x as [|w x].
  - cbn [app exec]. by rewrite Hd.
  - apply Forall_cons in Hx as [Hw Hx].
    change (exec (Cat (Cat (Class is_space) (Repeat true (Class is_space))) ?R)
              ((w :: x) ++ d :: y) g k)
      with (if is_space w
            then repeat_loop (exec (Class is_space)) true
                   (fun s' g' => exec R s' g' k) (length (x ++ d :: y))
                   (x ++ d :: y) g
            else None).
    rewrite Hw, repeat_class_greedy by done.
    rewrite greedy_run_reject.
    + rewrite span_app_stop by done. cbn [snd exec]. by rewrite Hdel.
    + intros c t Hc. cbn [exec]. by rewrite (space_not_delim c Hc).
Qed.

Lemma delimiter_round_nil {A} g (k : @cont A) : exec delimiter_round [] g k = None.
Proof. reflexivity. Qed.

(** At whitespace, a delimiter and whitespace before text the pattern
    takes these three characters. *)
Lemma spaces_with_delimeter_match w1 d w2 b :
  is_space w1 = true -> is_delim d = true -> is_space w2 = true ->
  starts_in_text b ->
  re_match _spaces_with_delimeter_re (w1 :: d :: w2 :: b) = Some (3%nat, None).
Proof.
  intros Hw1 Hd Hw2 Hb. unfold re_match, _spaces_with_delimeter_re.
  change (plus true ?X) with (Cat X (Repeat true X)).
  fold delimiter_round.
  set (kf := fun (s' : pystr) (g : option pystr) =>
               Some ((length (w1 :: d :: w2 :: b) - length s')%nat, g)).
  set (again := fun (s' : pystr) (g' : option pystr) =>
                  exec (Repeat true delimiter_round) s' g' kf).
  change (exec (Cat delimiter_round (Repeat true delimiter_round))
            (w1 :: d :: w2 :: b) None kf)
    with (exec delimiter_round (w1 :: d :: w2 :: b) None again).
  assert (again b None = Some (3%nat, None)) as Hagain.
  { subst again kf. cbn beta. cbn [exec].
    destruct b as [|c b'].
    - cbn [length repeat_loop]. reflexivity.
    - cbn [length repeat_loop].
      change (exec delimiter_round (c :: b') None ?k)
        with (exec delimiter_round ([] ++ c :: b') None k).
      unfold delimiter_round at 1, plus. cbn [app exec].
      cbn in Hb. rewrite Hb. f_equal. f_equal. lia. }
  unfold delimiter_round, plus.
  change (exec (Cat (Cat (Class is_space) (Repeat true (Class is_space))) ?R)
            (w1 :: d :: w2 :: b) None again)
    with (if is_space w1
          then repeat_loop (exec (Class is_space)) true
                 (fun s' g' => exec R s' g' again) (length (d :: w2 :: b))
                 (d :: w2 :: b) None
          else None).
  rewrite Hw1, repeat_class_greedy by done.
  rewrite greedy_run_reject.
  2:{ intros c t Hc. cbn [exec]. by rewrite (space_not_delim c Hc). }
  cbn [span]. rewrite (delim_not_space d Hd). cbn [snd].
  change (exec (Cat (Class is_delim) ?R) (d :: w2 :: b) None again)
    with (if is_delim d then exec R (w2 :: b) None again else None).
  rewrite Hd.
  change (exec (Cat (Class is_space) (Repeat false (Class is_space)))
            (w2 :: b) None again)
    with (if is_space w2
          then repeat_loop (exec (Class is_space)) false again (length b) b None
          else None).
  rewrite Hw2.
  destruct b as [|c b']; cbn [length repeat_loop]; by rewrite Hagain.
Qed.

Lemma spaces_with_delimeter_text x d y :
  Forall (fun c => is_space c = true) x ->
  is_space d = false -> is_delim d = false ->
  re_match _spaces_with_delimeter_re (x ++ d :: y) = None.
Proof.
  intros Hx Hd Hdel. unfold re_match, _spaces_with_delimeter_re.
  change (plus true ?X) with (Cat X (Repeat true X)).
  fold delimiter_round.
  change (exec (Cat delimiter_round ?R) ?s None ?k)
    with (exec delimiter_round s None (fun s' g' => exec R s' g' k)).
  by apply delimiter_round_none.
Qed.

(** The substitution puts one space for whitespace, a delimiter and
    whitespace between ordinary texts. *)
Lemma sub_spaces_with_delimeter a w1 d w2 b :
  Forall ordinary_char a -> ends_in_text a ->
  is_space w1 = true -> is_delim d = true -> is_space w2 = true ->
  Forall ordinary_char b -> starts_in_text b ->
  pattern_sub _spaces_with_delimeter_re (fun _ => [32]) (a ++ w1 :: d :: w2 :: b)
  = a ++ 32 :: b.
Proof.
  intros Ha Hend Hw1 Hd Hw2 Hb Hstart. unfold pattern_sub.
  induction a as [|c a IH].
  - cbn [app]. rewrite re_sub_cons. unfold matcher_of at 1.
    rewrite spaces_with_delimeter_match by done. cbn [drop app]. f_equal.
    by apply spaces_with_delimeter_id.
  - cbn [app]. rewrite re_sub_cons. unfold matcher_of at 1.
    destruct (first_text_char (c :: a)) as (x & e & y & E & Hx & He); [done|done|].
    assert (is_delim e = false) as Hdel.
    { apply ordinary_not_delim. rewrite Forall_forall in Ha. apply Ha. rewrite E.
      apply elem_of_app. right. by left. }
    change (c :: a ++ w1 :: d :: w2 :: b) with ((c :: a) ++ w1 :: d :: w2 :: b).
    rewrite E, <- app_assoc. cbn [app].
    rewrite spaces_with_delimeter_text by done. f_equal.
    apply IH; [by apply Forall_cons in Ha as [_ ?]|by eapply ends_in_text_tail].
Qed.

End Delimiters.

(** X28: a hyphen, comma or semicolon that stands between whitespace, in
    ordinary text, gives way to one space. *)
Theorem clean_text_drops_delimiter {env : PyEnv} (a b : pystr) (w1 d w2 : N) :
  Forall ordinary_char a -> ends_in_text a ->
  is_space w1 = true -> is_delim d = true -> is_space w2 = true ->
  Forall ordinary_char b -> starts_in_text b ->
  _clean_text (a ++ [w1; d; w2] ++ b) = _clean_text (a ++ py " " ++ b).
Proof.
  intros Ha Hend Hw1 Hd Hw2 Hb Hstart. change (py " ") with [32]. cbn [app].
  assert (Forall (fun c => ~ (c = 91 \/ c = 40)) (a ++ w1 :: d :: w2 :: b)) as Hnb.
  { assert (forall s, Forall ordinary_char s ->
                      Forall (fun c => ~ (c = 91 \/ c = 40)) s) as Hord.
    { intros s Hs. eapply Forall_impl; [exact Hs|].
      intros c (_ & ? & ? & _) [?|?]; congruence. }
    apply Forall_app. split; [by apply Hord|].
    apply Forall_cons. split.
    { pose proof (space_not_bracket w1 Hw1). intros [?|?]; tauto. }
    apply Forall_cons. split.
    { intros [->| ->]; discriminate Hd. }
    apply Forall_cons. split; [|by apply Hord].
    pose proof (space_not_bracket w2 Hw2). intros [?|?]; tauto. }
  rewrite clean_text_plain.
  2:{ apply Forall_app. split; [by apply ordinary_plain|].
      apply Forall_cons. split.
      { apply (Forall_singleton plain_char), space_plain. by apply Forall_singleton. }
      apply Forall_cons. split.
      { split; intros ->; discriminate Hd. }
      apply Forall_cons. split; [|by apply ordinary_plain].
      apply (Forall_singleton plain_char), space_plain. by apply Forall_singleton. }
  unfold tidy.
  rewrite (pattern_sub_needs _ _ _ _ empty_brackets_needs) by done.
  rewrite sub_spaces_with_delimeter, sub_whitespaces by done.
  rewrite clean_text_ordinary; [done|].
  apply Forall_app. split; [done|]. apply Forall_cons. split; [|done].
  by repeat split.
Qed.

Lemma clean_text_drops_delimiter_witness :
  Forall ordinary_char (py "dose") /\ Forall ordinary_char (py "response")
  /\ @_clean_text basic_env (py "dose" ++ [32; 44; 10] ++ py "response")
     = @_clean_text basic_env (py "dose" ++ py " " ++ py "response").
Proof.
  assert (Forall ordinary_char (py "dose")) as Ha.
  { vm_compute.
    repeat (first [ apply Forall_nil_2
                  | apply Forall_cons; split; [repeat split; discriminate|] ]). }
  assert (Forall ordinary_char (py "response")) as Hb.
  { vm_compute.
    repeat (first [ apply Forall_nil_2
                  | apply Forall_cons; split; [repeat split; discriminate|] ]). }
  split; [exact Ha|]. split; [exact Hb|].
  exact (clean_text_drops_delimiter _ _ 32 44 10 Ha eq_refl eq_refl eq_refl eq_refl
           Hb eq_refl).
Defined.
